(** * lczero-live front end: the board geometry and the arrow overlay

    A shallow embedding of [src/frontend/board.ts] and of the arrow
    layout, the clock texts and the second board of
    [src/frontend/board_area.ts].

    Conventions.
    - A JavaScript [number] is a binary64 float ([PrimFloat.float]); its
      [+ - * /] are the IEEE operations of the kernel.  Array indices, loop
      indices and the lane counters, which only ever hold small naturals,
      are [nat] and enter arithmetic through [Js.ofNat].
    - A string is a [string] of 8-bit characters; the feed is ASCII.
    - A thrown exception is the [Throw] case of [completion].
    - The methods that only hand texts to the document (the player names,
      the clocks on their timer, the score bar) are not part of the model;
      the functions that compute those texts are.
    - [Math.atan2], [Math.sin], [Math.cos] and [Math.pow] are left to the
      host by ECMAScript (implementation-approximated): the functions that
      use them take them as section variables, and [Host] gives one
      reference evaluation for running the model. *)

From Stdlib Require Import ZArith Floats String Ascii List Bool Lia.
From stdpp Require Import base option list gmap strings pretty.

Set Default Proof Using "Type".
Set Warnings "-inexact-float".

(* ------------------------------------------------------------------ *)
(** ** Completions: a value or a thrown exception                       *)
(* ------------------------------------------------------------------ *)

Inductive JsError : Type := TypeError.

Inductive completion (A : Type) : Type :=
| Normal (a : A)
| Throw (e : JsError).
Arguments Normal {A} a.
Arguments Throw {A} e.

#[global] Instance completion_ret : MRet completion := fun _ a => Normal a.

#[global] Instance completion_bind : MBind completion := fun _ _ k c =>
  match c with
  | Normal a => k a
  | Throw e => Throw e
  end.

(** Reading a property of a value that may be [undefined]. *)
Definition defined {A : Type} (o : option A) : completion A :=
  match o with
  | Some a => Normal a
  | None => Throw TypeError
  end.

(* ------------------------------------------------------------------ *)
(** ** The JavaScript primitives the two files use                      *)
(* ------------------------------------------------------------------ *)

Module Js.

Abbreviation number := float.

(** The double that holds an integer (exact below 2^53). *)
Definition ofZ (z : Z) : number :=
  match z with
  | Z0 => 0%float
  | Zpos _ => PrimFloat.of_uint63 (Uint63.of_Z z)
  | Zneg p => (- PrimFloat.of_uint63 (Uint63.of_Z (Zpos p)))%float
  end.

Definition ofNat (n : nat) : number := ofZ (Z.of_nat n).

(** [isNaN]. *)
Definition isNaN (x : number) : bool := PrimFloat.is_nan x.

(** The integer a finite double holds, when it holds one. *)
Definition toZ (x : number) : option Z :=
  match Prim2SF x with
  | S754_zero _ => Some 0%Z
  | S754_finite s m e =>
      let sign (v : Z) := if s then (- v)%Z else v in
      match e with
      | Z0 => Some (sign (Zpos m))
      | Zpos k => Some (sign (Zpos m * 2 ^ Zpos k)%Z)
      | Zneg k =>
          if (Zpos m mod 2 ^ Zpos k =? 0)%Z
          then Some (sign (Zpos m / 2 ^ Zpos k)%Z)
          else None
      end
  | _ => None
  end.

(** [Number::toString] on what [Math.round] returns: NaN, the
    infinities, and integral values, printed in decimal (both zeros
    print as 0).  The last case is never an integer; it is kept apart
    from every decimal rendering. *)
Definition numberToString (x : number) : string :=
  match Prim2SF x with
  | S754_nan => "NaN"
  | S754_infinity false => "Infinity"
  | S754_infinity true => "-Infinity"
  | S754_zero _ => "0"
  | S754_finite s m e =>
      match toZ x with
      | Some z => pretty z
      | None => (if s then "-" else "") ++ pretty (Zpos m) ++ "p" ++ pretty e
      end
  end.

(** [s.slice(a, b)] for [0 <= a <= b]. *)
Definition slice (s : string) (a b : nat) : string :=
  String.substring a (b - a) s.

(** [s[i]]: the character, or [undefined]. *)
Definition at_ (s : string) (i : nat) : option ascii := String.get i s.

(** [s.charCodeAt(i)]: NaN out of range. *)
Definition charCodeAt (s : string) (i : nat) : number :=
  match String.get i s with
  | Some c => ofNat (nat_of_ascii c)
  | None => nan
  end.

(** The value of a decimal digit. *)
Definition digit (c : ascii) : option nat :=
  let n := nat_of_ascii c in
  if (48 <=? n)%nat && (n <=? 57)%nat then Some (n - 48)%nat else None.

(** [parseInt] of one character, or of [undefined]: a digit gives its
    value, anything else NaN. *)
Definition parseInt (s : option ascii) : number :=
  match s ≫= digit with
  | Some d => ofNat d
  | None => nan
  end.

(** [s.toUpperCase()] of one ASCII character. *)
Definition toUpperCase (c : ascii) : ascii :=
  let n := nat_of_ascii c in
  if (97 <=? n)%nat && (n <=? 122)%nat then ascii_of_nat (n - 32) else c.

(** [s.split(sep)] for a one-character separator: never empty. *)
Fixpoint split (sep : ascii) (s : string) : list string :=
  match s with
  | EmptyString => [EmptyString]
  | String c rest =>
      if Ascii.eqb c sep then EmptyString :: split sep rest
      else match split sep rest with
           | [] => [String c EmptyString]
           | w :: ws => String c w :: ws
           end
  end.

(** The characters of a string, as [for (let char of s)] visits them. *)
Definition chars (s : string) : list ascii := list_ascii_of_string s.

(** [Math.PI]. *)
Definition Math_PI : number := 0x1.921fb54442d18p+1%float.

Definition two52 : number := 4503599627370496%float.

(** [Math.floor]. Below 2^52 in magnitude, adding and removing 2^52
    rounds to an integer, which is then corrected downwards. *)
Definition Math_floor (x : number) : number :=
  if PrimFloat.is_nan x || PrimFloat.is_infinity x then x
  else if (PrimFloat.abs x <? two52)%float then
    let r := if (x <? 0)%float then (x - two52 + two52)%float
             else (x + two52 - two52)%float in
    if (x =? 0)%float then x
    else if (x <? r)%float then (r - 1)%float else r
  else x.

(** [Math.round]: the nearest integral value, a tie going up; the
    arguments in ]0, 0.5[ give +0, those in [-0.5, -0] give -0. *)
Definition Math_round (x : number) : number :=
  if PrimFloat.is_nan x || PrimFloat.is_infinity x then x
  else
    let f := Math_floor x in
    if (f =? x)%float then x
    else if (x <? 0.5)%float && (0 <? x)%float then 0%float
    else if (x <? 0)%float && (-0.5 <=? x)%float then (-0)%float
    else if (0.5 <=? x - f)%float then (f + 1)%float else f.

(** [x % y]: the remainder of the truncating division, exact, with the
    sign of the dividend. *)
Definition rem (x y : number) : number :=
  match Prim2SF x, Prim2SF y with
  | S754_nan, _ | _, S754_nan => nan
  | S754_infinity _, _ => nan
  | _, S754_zero _ => nan
  | _, S754_infinity _ => x
  | S754_zero _, _ => x
  | S754_finite sx mx ex, S754_finite _ my ey =>
      let e0 := Z.min ex ey in
      let r := ((Zpos mx * 2 ^ (ex - e0)) mod (Zpos my * 2 ^ (ey - e0)))%Z in
      let v := Z.ldexp (ofZ r) e0 in
      if sx then (- v)%float else v
  end.

(** [s.padStart(n, c)] for a one-character filler. *)
Definition padStart (n : nat) (c : ascii) (s : string) : string :=
  (string_of_list_ascii (repeat c (n - String.length s)) ++ s)%string.

(** Whether a number counts as true in a condition. *)
Definition truthy (x : number) : bool :=
  negb (PrimFloat.is_nan x || (x =? 0)%float).

(** A positive integer without its trailing decimal zeros. *)
Fixpoint stripZeros (fuel : nat) (z : Z) : Z :=
  match fuel with
  | O => z
  | S fuel => if (z mod 10 =? 0)%Z then stripZeros fuel (z / 10) else z
  end.

(** Whether the integer [w] rounds to the double [m * 2^e], a tie going to
    the even mantissa; [m] has 53 bits and [e] is positive. *)
Definition roundsTo (m : positive) (e w : Z) : bool :=
  let d := (2 * (w - Zpos m * 2 ^ e))%Z in
  let gap := if (0 <=? d)%Z then (2 ^ e)%Z
             else if (Zpos m =? 2 ^ 52)%Z then (2 ^ (e - 1))%Z
             else (2 ^ e)%Z in
  (Z.abs d <? gap)%Z || ((Z.abs d =? gap)%Z && Z.even (Zpos m)).

(** The integer with the fewest significant digits that rounds to
    [m * 2^e], and the nearest of them. *)
Fixpoint shortestFrom (fuel k : nat) (m : positive) (e : Z) : Z :=
  let v := (Zpos m * 2 ^ e)%Z in
  match fuel with
  | O => v
  | S fuel =>
      let p := (10 ^ Z.of_nat (String.length (pretty v) - k))%Z in
      let lo := (v / p * p)%Z in
      let hi := (lo + p)%Z in
      match roundsTo m e lo, roundsTo m e hi with
      | true, true => if (v - lo <=? hi - v)%Z then lo else hi
      | true, false => lo
      | false, true => hi
      | false, false => shortestFrom fuel (S k) m e
      end
  end.

(** [Number::toString] on an integral value of any size: from 2^53 on the
    digits are the fewest that still name the double, followed by zeros
    below 10^21 and by an exponent from there on. *)
Definition toString (x : number) : string :=
  match Prim2SF x with
  | S754_finite s m (Zpos e) =>
      let w := shortestFrom 17 1 m (Zpos e) in
      let n := String.length (pretty w) in
      ((if s then "-" else "")
       ++ if (n <=? 21)%nat then pretty w
          else match pretty (stripZeros n w) with
               | String d EmptyString =>
                   String d EmptyString ++ "e+" ++ pretty (n - 1)%nat
               | String d rest =>
                   String d ("." ++ rest) ++ "e+" ++ pretty (n - 1)%nat
               | EmptyString => ""
               end)%string
  | _ => numberToString x
  end.

End Js.

(* ------------------------------------------------------------------ *)
(** ** board.ts                                                         *)
(* ------------------------------------------------------------------ *)

Local Open Scope float_scope.

Record PieceLocation : Type := {
  pieceSymbol : ascii;   (* upper case for white, lower case for black *)
  rank : Js.number;      (* 0-based *)
  file : Js.number;      (* 0-based *)
}.

Record ArrowLocation : Type := {
  move : option string;  (* [undefined] when the line has no such ply *)
  classes : string;
  width : Js.number;
  angle : Js.number;
  headLength : Js.number;
  headWidth : Js.number;
  dashLength : Js.number;
  dashSpace : Js.number;
  renderAfterPieces : bool;
  offset : Js.number;
  totalOffsets : Js.number;
  offsetDirection : Js.number;
  onlyOuterStroke : option bool;
}.

Record Outline : Type := {
  square : string;
  className : string;
  inset : Js.number;
}.

Definition SQUARE_SIZE : Js.number := 45.
Definition BEAM_SPREAD : Js.number := 55.

(** Only [renderBoard] calls it, with its two loop indices. *)
Definition fileRanktoSquare (rank file : nat) : string :=
  (match Js.at_ "abcdefgh" file with
   | Some c => String c EmptyString
   | None => "undefined"
   end ++ pretty (rank + 1)%nat)%string.

Definition squareToFileRank (square : string) : Js.number * Js.number :=
  (Js.charCodeAt square 0 - Js.charCodeAt "a" 0,
   Js.parseInt (Js.at_ square 1) - 1).

(** The object of ./arrow that [renderArrows] fills in before it calls
    its [render]. *)
Record Arrow : Type := {
  x1 : Js.number;
  y1 : Js.number;
  x2 : Js.number;
  y2 : Js.number;
  arClasses : string;
  arWidth : Js.number;
  arAngle : Js.number;
  arHeadLength : Js.number;
  arHeadWidth : Js.number;
  arDashLength : Js.number;
  arDashSpace : Js.number;
  arOnlyOuterStroke : bool;
}.

(** What is appended to the svg element.  Attributes keep their numeric
    value; an arrow stands for whatever [Arrow.render] appends for it. *)
Inductive SvgElement : Type :=
| SvgRect (x y w h : Js.number) (cls : string)
| SvgUse (x y : Js.number) (href : string) (cls : option string)
| SvgArrow (ar : Arrow).

Record Svg : Type := {
  svgClass : string;
  viewBox : Js.number;   (* the side of the square view box *)
  children : list SvgElement;
}.

(** What the set of outlines holds at run time.  The class declares a set
    of outlines and [addOutline] an outline; [renderMovePlayedOutline] of
    board_area.ts, the only caller of [addOutline], hands it the name of a
    square, and the set keeps what it is given. *)
Inductive OutlineEntry : Type :=
| OutlineObject (outline : Outline)
| OutlineName (square : string).

(** The fields of the class.  [pieces] and [outlinedSquares] are sets: a
    freshly made object, compared by identity, is kept at every insertion,
    in order; the name of a square, compared by value, is kept once.  The
    [element] field is left out: it is written only by [render], which
    here returns the svg element it appends. *)
Record Board : Type := {
  boardClass : string;
  pieces : list PieceLocation;
  highlightedSquares : gset string;
  outlinedSquares : list OutlineEntry;
  flipped : bool;
  arrows : list ArrowLocation;
  whiteToMove : bool;
  border : Js.number;
}.

Definition setPieces (b : Board) (ps : list PieceLocation) : Board :=
  {| boardClass := boardClass b; pieces := ps;
     highlightedSquares := highlightedSquares b;
     outlinedSquares := outlinedSquares b; flipped := flipped b;
     arrows := arrows b; whiteToMove := whiteToMove b; border := border b |}.

Definition setWhiteToMove (b : Board) (w : bool) : Board :=
  {| boardClass := boardClass b; pieces := pieces b;
     highlightedSquares := highlightedSquares b;
     outlinedSquares := outlinedSquares b; flipped := flipped b;
     arrows := arrows b; whiteToMove := w; border := border b |}.

Definition clearHighlights (b : Board) : Board :=
  {| boardClass := boardClass b; pieces := pieces b;
     highlightedSquares := ∅;
     outlinedSquares := outlinedSquares b; flipped := flipped b;
     arrows := arrows b; whiteToMove := whiteToMove b; border := border b |}.

Definition clearArrows (b : Board) : Board :=
  {| boardClass := boardClass b; pieces := pieces b;
     highlightedSquares := highlightedSquares b;
     outlinedSquares := outlinedSquares b; flipped := flipped b;
     arrows := []; whiteToMove := whiteToMove b; border := border b |}.

Definition clearOutlines (b : Board) : Board :=
  {| boardClass := boardClass b; pieces := pieces b;
     highlightedSquares := highlightedSquares b;
     outlinedSquares := []; flipped := flipped b;
     arrows := arrows b; whiteToMove := whiteToMove b; border := border b |}.

Definition addHighlight (b : Board) (square : string) : Board :=
  {| boardClass := boardClass b; pieces := pieces b;
     highlightedSquares := highlightedSquares b ∪ {[ square ]};
     outlinedSquares := outlinedSquares b; flipped := flipped b;
     arrows := arrows b; whiteToMove := whiteToMove b; border := border b |}.

(** Whether the set holds the name [name] already. *)
Definition hasOutlineName (name : string) (entries : list OutlineEntry)
  : bool :=
  existsb (fun entry => match entry with
                        | OutlineName name' => String.eqb name name'
                        | OutlineObject _ => false
                        end) entries.

Definition addOutline (b : Board) (outline : OutlineEntry) : Board :=
  {| boardClass := boardClass b; pieces := pieces b;
     highlightedSquares := highlightedSquares b;
     outlinedSquares :=
       match outline with
       | OutlineObject _ => outlinedSquares b ++ [outline]
       | OutlineName name =>
           if hasOutlineName name (outlinedSquares b) then outlinedSquares b
           else outlinedSquares b ++ [outline]
       end;
     flipped := flipped b;
     arrows := arrows b; whiteToMove := whiteToMove b; border := border b |}.

Definition addArrow (b : Board) (arrow : ArrowLocation) : Board :=
  {| boardClass := boardClass b; pieces := pieces b;
     highlightedSquares := highlightedSquares b;
     outlinedSquares := outlinedSquares b; flipped := flipped b;
     arrows := arrows b ++ [arrow]; whiteToMove := whiteToMove b;
     border := border b |}.

(** *** renderBoard *)

Definition boardSquare (b : Board) (rank file : nat) : SvgElement :=
  let x := (if flipped b then 7 - Js.ofNat file else Js.ofNat file)
           * SQUARE_SIZE + border b in
  let y := (if flipped b then Js.ofNat rank else 7 - Js.ofNat rank)
           * SQUARE_SIZE + border b in
  let is_light := ((rank + file) mod 2 =? 1)%nat in
  let className := "square"%string in
  let className := (className ++ if is_light then " light" else " dark")%string in
  let className :=
    if decide (fileRanktoSquare rank file ∈ highlightedSquares b)
    then (className ++ " lastmove")%string else className in
  SvgRect x y SQUARE_SIZE SQUARE_SIZE className.

Definition renderBoard (b : Board) (parent : list SvgElement)
  : list SvgElement :=
  foldl (fun parent rank =>
           foldl (fun parent file => parent ++ [boardSquare b rank file])
                 parent (seq 0 8))
        parent (seq 0 8).

(** *** renderOutlines *)

Definition outlineRect (b : Board) (outline : Outline) : SvgElement :=
  let '(file, rank) := squareToFileRank (square outline) in
  let x := (if flipped b then 7 - file else file) * SQUARE_SIZE + border b in
  let y := (if flipped b then rank else 7 - rank) * SQUARE_SIZE + border b in
  let hWidth := inset outline / 2 in
  SvgRect (x + hWidth) (y + hWidth)
          (SQUARE_SIZE - 2 * hWidth) (SQUARE_SIZE - 2 * hWidth)
          (className outline).

(** The body of the loop.  Of the name of a square, [outline.square] is
    [undefined], and [squareToFileRank] throws on reading its
    [charCodeAt]. *)
Definition outlineElement (b : Board) (outline : OutlineEntry)
  : completion SvgElement :=
  match outline with
  | OutlineObject outline => mret (outlineRect b outline)
  | OutlineName _ => Throw TypeError
  end.

Fixpoint renderOutlinesFrom (b : Board) (todo : list OutlineEntry)
  (parent : list SvgElement) : completion (list SvgElement) :=
  match todo with
  | [] => mret parent
  | outline :: todo =>
      el ← outlineElement b outline;
      renderOutlinesFrom b todo (parent ++ [el])
  end.

Definition renderOutlines (b : Board) (parent : list SvgElement)
  : completion (list SvgElement) :=
  renderOutlinesFrom b (outlinedSquares b) parent.

(** *** renderPieces *)

Definition isWhitePiece (piece : PieceLocation) : bool :=
  bool_decide (pieceSymbol piece = Js.toUpperCase (pieceSymbol piece)).

Definition pieceUse (b : Board) (piece : PieceLocation) : SvgElement :=
  let x := (if flipped b then 7 - file piece else file piece)
           * SQUARE_SIZE + border b in
  let y := (if flipped b then 7 - rank piece else rank piece)
           * SQUARE_SIZE + border b in
  SvgUse x y
         ("/static/pieces.svg#piece-" ++ String (pieceSymbol piece) EmptyString)
         (if Bool.eqb (whiteToMove b) (isWhitePiece piece)
          then Some " side-to-move"%string else None).

Definition renderPieces (b : Board) (parent : list SvgElement)
  (sideToMove : bool) : list SvgElement :=
  let whiteToShow := Bool.eqb (whiteToMove b) sideToMove in
  foldl (fun parent piece =>
           if negb (Bool.eqb (isWhitePiece piece) whiteToShow) then parent
           else parent ++ [pieceUse b piece])
        parent (pieces b).

(** *** fromFen *)

(** One row: the file cursor and the pieces added so far. *)
Definition fenChar (rowIndex : nat) (st : Js.number * list PieceLocation)
  (char : ascii) : Js.number * list PieceLocation :=
  let '(file, pieces) := st in
  let num := Js.parseInt (Some char) in
  if Js.isNaN num then
    (file + 1,
     pieces ++ [{| pieceSymbol := char; rank := Js.ofNat rowIndex;
                   file := file |}])
  else (file + num, pieces).

Definition fenRow (pieces : list PieceLocation) (rowIndex : nat)
  (row : string) : list PieceLocation :=
  snd (foldl (fenChar rowIndex) (0, pieces) (Js.chars row)).

Definition fromFen (b : Board) (fen : string) : completion Board :=
  let b := setPieces b [] in
  let b := clearHighlights b in
  let b := clearArrows b in
  let b := clearOutlines b in
  let b := setWhiteToMove b
             (bool_decide (Js.split " " fen !! 1%nat = Some "w"%string)) in
  placement ← defined (Js.split " " fen !! 0%nat);
  let rows := Js.split "/" placement in
  mret (setPieces b
          (foldl (fun pieces '(rowIndex, row) => fenRow pieces rowIndex row)
                 (pieces b) (imap pair rows))).

Definition emptyBoard : Board :=
  {| boardClass := "main-board"; pieces := []; highlightedSquares := ∅;
     outlinedSquares := []; flipped := false; arrows := [];
     whiteToMove := true; border := 0 |}.

Definition startFen : string :=
  "rnbqkbnr/pppppppp/8/8/8/8/PPPPPPPP/RNBQKBNR w".

(** The constructor. *)
Definition newBoard : completion Board := fromFen emptyBoard startFen.

(* ------------------------------------------------------------------ *)
(** ** A reference host for the approximated Math functions             *)
(* ------------------------------------------------------------------ *)

(** The special cases are those ECMAScript fixes; the rest is a plain
    series evaluation in binary64, good to a few units in the last place
    on the arguments a board produces. *)
Module Host.

Definition isNegZero (x : Js.number) : bool :=
  match PrimFloat.classify x with NZero => true | _ => false end.

Definition isPosZero (x : Js.number) : bool :=
  match PrimFloat.classify x with PZero => true | _ => false end.

Definition isInteger (x : Js.number) : bool :=
  negb (PrimFloat.is_nan x) && negb (PrimFloat.is_infinity x)
  && (Js.Math_floor x =? x).

Definition isOddInteger (x : Js.number) : bool :=
  isInteger x && negb (isInteger (x / 2)).

(** [1/(2k+1) - z2/(2k+3) + ...], [fuel] terms. *)
Fixpoint atanTail (fuel : nat) (k z2 : Js.number) : Js.number :=
  match fuel with
  | O => 0
  | S n => 1 / (2 * k + 1) - z2 * atanTail n (k + 1) z2
  end.

Definition sqrt3 : Js.number := PrimFloat.sqrt 3.

Definition atanSmall (z : Js.number) : Js.number :=
  z * atanTail 26 0 (z * z).

Definition atanUnit (x : Js.number) : Js.number :=
  if 0.2679491924311227 <? x
  then Js.Math_PI / 6 + atanSmall ((sqrt3 * x - 1) / (sqrt3 + x))
  else atanSmall x.

Definition atanPos (x : Js.number) : Js.number :=
  if 1 <? x then Js.Math_PI / 2 - atanUnit (1 / x) else atanUnit x.

Definition atan2 (y x : Js.number) : Js.number :=
  if PrimFloat.is_nan y || PrimFloat.is_nan x then nan
  else if y =? infinity then
    if x =? infinity then Js.Math_PI / 4
    else if x =? neg_infinity then 3 * Js.Math_PI / 4
    else Js.Math_PI / 2
  else if y =? neg_infinity then
    if x =? infinity then - (Js.Math_PI / 4)
    else if x =? neg_infinity then - (3 * Js.Math_PI / 4)
    else - (Js.Math_PI / 2)
  else if isPosZero y then
    if (0 <? x) || isPosZero x then 0 else Js.Math_PI
  else if isNegZero y then
    if (0 <? x) || isPosZero x then -0 else - Js.Math_PI
  else if x =? infinity then (if 0 <? y then 0 else -0)
  else if x =? neg_infinity then
    (if 0 <? y then Js.Math_PI else - Js.Math_PI)
  else if x =? 0 then
    (if 0 <? y then Js.Math_PI / 2 else - (Js.Math_PI / 2))
  else
    let r := atanPos (PrimFloat.abs (y / x)) in
    if x <? 0 then (if 0 <? y then Js.Math_PI - r else - Js.Math_PI + r)
    else (if y <? 0 then - r else r).

(** [1 - x2/((2k+2)(2k+3)) (1 - ...)], the series of [sin r / r]. *)
Fixpoint sinTail (fuel : nat) (k x2 : Js.number) : Js.number :=
  match fuel with
  | O => 1
  | S n => 1 - x2 / ((2 * k + 2) * (2 * k + 3)) * sinTail n (k + 1) x2
  end.

Fixpoint cosTail (fuel : nat) (k x2 : Js.number) : Js.number :=
  match fuel with
  | O => 1
  | S n => 1 - x2 / ((2 * k + 1) * (2 * k + 2)) * cosTail n (k + 1) x2
  end.

(** The argument brought back into [-π, π]. *)
Definition reduce (x : Js.number) : Js.number :=
  x - 2 * Js.Math_PI * Js.Math_round (x / (2 * Js.Math_PI)).

Definition sin (x : Js.number) : Js.number :=
  if PrimFloat.is_nan x || PrimFloat.is_infinity x then nan
  else if x =? 0 then x
  else let r := reduce x in r * sinTail 20 0 (r * r).

Definition cos (x : Js.number) : Js.number :=
  if PrimFloat.is_nan x || PrimFloat.is_infinity x then nan
  else let r := reduce x in cosTail 20 0 (r * r).

Definition ln2 : Js.number := 0x1.62e42fefa39efp-1.

(** [1/(2k+1) + t2/(2k+3) + ...], the series of [atanh t / t]. *)
Fixpoint atanhTail (fuel : nat) (k t2 : Js.number) : Js.number :=
  match fuel with
  | O => 0
  | S n => 1 / (2 * k + 1) + t2 * atanhTail n (k + 1) t2
  end.

(** The logarithm of a positive finite number. *)
Definition ln (x : Js.number) : Js.number :=
  let '(m, e) := Z.frexp x in
  let '(m, e) := if m <? 0x1.6a09e667f3bcdp-1 then (2 * m, (e - 1)%Z)
                 else (m, e) in
  let t := (m - 1) / (m + 1) in
  Js.ofZ e * ln2 + 2 * t * atanhTail 24 0 (t * t).

Fixpoint expTail (fuel : nat) (k r : Js.number) : Js.number :=
  match fuel with
  | O => 1
  | S n => 1 + r / k * expTail n (k + 1) r
  end.

Definition exp (x : Js.number) : Js.number :=
  if 710 <? x then infinity
  else if x <? -746 then 0
  else
    let k := Js.Math_round (x / ln2) in
    let r := x - k * ln2 in
    match Js.toZ k with
    | Some z => Z.ldexp (expTail 24 1 r) z
    | None => nan
    end.

Definition pow (base exponent : Js.number) : Js.number :=
  if PrimFloat.is_nan exponent then nan
  else if exponent =? 0 then 1
  else if PrimFloat.is_nan base then nan
  else if base =? infinity then (if 0 <? exponent then infinity else 0)
  else if base =? neg_infinity then
    if 0 <? exponent
    then (if isOddInteger exponent then neg_infinity else infinity)
    else (if isOddInteger exponent then -0 else 0)
  else if isPosZero base then (if 0 <? exponent then 0 else infinity)
  else if isNegZero base then
    if 0 <? exponent
    then (if isOddInteger exponent then -0 else 0)
    else (if isOddInteger exponent then neg_infinity else infinity)
  else if exponent =? infinity then
    if 1 <? PrimFloat.abs base then infinity
    else if PrimFloat.abs base =? 1 then nan else 0
  else if exponent =? neg_infinity then
    if 1 <? PrimFloat.abs base then 0
    else if PrimFloat.abs base =? 1 then nan else infinity
  else if base <? 0 then
    if isInteger exponent
    then let r := exp (exponent * ln (- base)) in
         if isOddInteger exponent then - r else r
    else nan
  else exp (exponent * ln base).

End Host.

(* ------------------------------------------------------------------ *)
(** ** board.ts, the part that calls the host's Math                    *)
(* ------------------------------------------------------------------ *)

Section BoardGeometry.

Variable Math_atan2 : Js.number → Js.number → Js.number.
Variables Math_sin Math_cos : Js.number → Js.number.

Definition moveToDirectionDeg (move : string) : Js.number :=
  let '(file1, rank1) := squareToFileRank (Js.slice move 0 2) in
  let '(file2, rank2) := squareToFileRank (Js.slice move 2 4) in
  Js.Math_round (Math_atan2 (rank2 - rank1) (file2 - file1) * 180 / Js.Math_PI).

(** *** renderArrows *)

(** The body of the loop for an arrow of the requested bucket. *)
Definition arrowShape (b : Board) (arrow : ArrowLocation)
  : completion Arrow :=
  move ← defined (move arrow);
  let '(file1, rank1) := squareToFileRank (Js.slice move 0 2) in
  let '(file2, rank2) := squareToFileRank (Js.slice move 2 4) in
  let offset :=
    ((offset arrow + 1) / (totalOffsets arrow + 1) - 0.5) * BEAM_SPREAD in
  let dx := Math_sin (offsetDirection arrow * Js.Math_PI / 180) * offset in
  let dy := Math_cos (offsetDirection arrow * Js.Math_PI / 180) * offset in
  mret {|
    x1 := (if flipped b then 7 - file1 else file1) * SQUARE_SIZE + dx
          + SQUARE_SIZE / 2 + border b;
    y1 := (if flipped b then rank1 else 7 - rank1) * SQUARE_SIZE + dy
          + SQUARE_SIZE / 2 + border b;
    x2 := (if flipped b then 7 - file2 else file2) * SQUARE_SIZE + dx
          + SQUARE_SIZE / 2 + border b;
    y2 := (if flipped b then rank2 else 7 - rank2) * SQUARE_SIZE + dy
          + SQUARE_SIZE / 2 + border b;
    arClasses := classes arrow;
    arWidth := width arrow;
    arAngle := angle arrow;
    arHeadLength := headLength arrow;
    arHeadWidth := headWidth arrow;
    arDashLength := dashLength arrow;
    arDashSpace := dashSpace arrow;
    arOnlyOuterStroke := default false (onlyOuterStroke arrow);
  |}.

Fixpoint renderArrowsFrom (b : Board) (todo : list ArrowLocation)
  (parent : list SvgElement) (renderAfterPieces' : bool)
  : completion (list SvgElement) :=
  match todo with
  | [] => mret parent
  | arrow :: todo =>
      if negb (Bool.eqb (renderAfterPieces arrow) renderAfterPieces')
      then renderArrowsFrom b todo parent renderAfterPieces'
      else
        ar ← arrowShape b arrow;
        renderArrowsFrom b todo (parent ++ [SvgArrow ar]) renderAfterPieces'
  end.

Definition renderArrows (b : Board) (parent : list SvgElement)
  (renderAfterPieces : bool) : completion (list SvgElement) :=
  renderArrowsFrom b (arrows b) parent renderAfterPieces.

(** *** render *)

Definition render (b : Board) : completion Svg :=
  let side := SQUARE_SIZE * 8 + 2 * border b in
  let svg := [] in
  let svg := renderBoard b svg in
  svg ← renderOutlines b svg;
  let svg := renderPieces b svg false in
  svg ← renderArrows b svg false;
  let svg := renderPieces b svg true in
  svg ← renderArrows b svg true;
  mret {| svgClass := "board " ++ boardClass b; viewBox := side;
          children := svg |}.

End BoardGeometry.

(* ------------------------------------------------------------------ *)
(** ** board_area.ts: the arrows of an evaluation update                *)
(* ------------------------------------------------------------------ *)

(** The two fields of a variation of the feed that are read here. *)
Record Variation : Type := {
  pvUci : string;
  nodes : Js.number;
}.

Record WsEvaluationData : Type := {
  variations : list Variation;
}.

(** The two fields of an [ArrowInfo] of ./arrow_selector that are read. *)
Record ArrowInfo : Type := {
  variationIdx : nat;
  ply : nat;
}.

Record Counts : Type := {
  current : nat;
  total : nat;
}.

Section BoardAreaArrows.

Variable Math_atan2 : Js.number → Js.number → Js.number.
Variable Math_pow : Js.number → Js.number → Js.number.
(** ./arrow_selector is not part of the sources. *)
Variable selectArrowsToRender : WsEvaluationData → list ArrowInfo.

(** The four lines both loops of [buildArrowOffsets] start with: the key
    of the lane of an arrow. *)
Definition laneKey (update : WsEvaluationData) (arrow : ArrowInfo)
  : completion string :=
  variation ← defined (variations update !! variationIdx arrow);
  move ← defined (Js.split " " (pvUci variation) !! ply arrow);
  let from := Js.slice move 0 2 in
  mret (from ++ ":"
        ++ Js.numberToString (moveToDirectionDeg Math_atan2 move))%string.

(** The first loop. *)
Fixpoint countLanes (update : WsEvaluationData) (todo : list ArrowInfo)
  (dirToCount : gmap string Counts) : completion (gmap string Counts) :=
  match todo with
  | [] => mret dirToCount
  | arrow :: todo =>
      if (2 <=? ply arrow)%nat then countLanes update todo dirToCount
      else
        key ← laneKey update arrow;
        let dirToCount :=
          if decide (is_Some (dirToCount !! key)) then dirToCount
          else <[key := {| current := 0; total := 0 |}]> dirToCount in
        let dirToCount :=
          alter (fun c => {| current := current c; total := S (total c) |})
                key dirToCount in
        countLanes update todo dirToCount
  end.

(** The second loop; [value.current++] is what throws on a missing lane. *)
Fixpoint assignOffsets (update : WsEvaluationData) (todo : list ArrowInfo)
  (dirToCount : gmap string Counts)
  (usVariations themVariations : gmap nat Counts)
  : completion (gmap nat Counts * gmap nat Counts) :=
  match todo with
  | [] => mret (usVariations, themVariations)
  | arrow :: todo =>
      if (2 <=? ply arrow)%nat
      then assignOffsets update todo dirToCount usVariations themVariations
      else
        key ← laneKey update arrow;
        value ← defined (dirToCount !! key);
        let varIdx := variationIdx arrow in
        let usVariations :=
          if (ply arrow =? 0)%nat then <[varIdx := value]> usVariations
          else usVariations in
        let themVariations :=
          if (ply arrow =? 0)%nat then themVariations
          else <[varIdx := value]> themVariations in
        let dirToCount :=
          <[key := {| current := S (current value); total := total value |}]>
            dirToCount in
        assignOffsets update todo dirToCount usVariations themVariations
  end.

Definition buildArrowOffsets (update : WsEvaluationData)
  (arrowInfos : list ArrowInfo)
  : completion (gmap nat Counts * gmap nat Counts) :=
  dirToCount ← countLanes update arrowInfos ∅;
  assignOffsets update arrowInfos dirToCount ∅ ∅.

(** The body of the loop of [renderThinkingarrows]: the arrow it adds. *)
Definition thinkingArrow (update : WsEvaluationData)
  (usVars themVars : gmap nat Counts) (arrow : ArrowInfo)
  : completion ArrowLocation :=
  variation ← defined (variations update !! variationIdx arrow);
  let ply := ply arrow in
  let move := Js.split " " (pvUci variation) !! ply in
  best ← defined (variations update !! 0%nat);
  let width := Math_pow (nodes variation / nodes best) (1 / 1.7) * 15 in
  let classes :=
    ("arrow arrow-variation" ++ pretty (variationIdx arrow) ++ " arrow-ply"
     ++ pretty (if (ply <=? 2)%nat then ply else 2%nat))%string in
  if (ply =? 0)%nat then
    counts ← defined (usVars !! variationIdx arrow);
    move' ← defined move;
    mret {| move := move; classes := classes; width := width + 1;
            angle := 0; headLength := 20; headWidth := width + 14;
            dashLength := 1000; dashSpace := 0; renderAfterPieces := false;
            offset := Js.ofNat (current counts);
            totalOffsets := Js.ofNat (total counts);
            offsetDirection := moveToDirectionDeg Math_atan2 move';
            onlyOuterStroke := None |}
  else if (ply =? 1)%nat then
    counts ← defined (themVars !! variationIdx arrow);
    move' ← defined move;
    mret {| move := move; classes := classes; width := width / 2.2 + 1;
            angle := Js.Math_PI / 6; headLength := 10;
            headWidth := width / 2 + 8;
            dashLength := 10; dashSpace := 10; renderAfterPieces := true;
            offset := Js.ofNat (current counts);
            totalOffsets := Js.ofNat (total counts);
            offsetDirection := moveToDirectionDeg Math_atan2 move';
            onlyOuterStroke := None |}
  else
    counts ← defined (usVars !! variationIdx arrow);
    first ← defined (Js.split " " (pvUci variation) !! 0%nat);
    mret {| move := move; classes := classes; width := 3;
            angle := - Js.Math_PI / 4; headLength := 5; headWidth := 10;
            dashLength := 3; dashSpace := 3; renderAfterPieces := true;
            offset := Js.ofNat (current counts);
            totalOffsets := Js.ofNat (total counts);
            offsetDirection := moveToDirectionDeg Math_atan2 first;
            onlyOuterStroke := None |}.

Fixpoint addThinkingArrows (update : WsEvaluationData)
  (usVars themVars : gmap nat Counts) (todo : list ArrowInfo)
  (board : Board) : completion Board :=
  match todo with
  | [] => mret board
  | arrow :: todo =>
      a ← thinkingArrow update usVars themVars arrow;
      addThinkingArrows update usVars themVars todo (addArrow board a)
  end.

Definition renderThinkingarrows (update : WsEvaluationData) (board : Board)
  : completion Board :=
  let arrows := selectArrowsToRender update in
  '(usVars, themVars) ← buildArrowOffsets update arrows;
  addThinkingArrows update usVars themVars arrows board.

End BoardAreaArrows.

(* ------------------------------------------------------------------ *)
(** ** board.ts and board_area.ts: what the arrows leave out            *)
(* ------------------------------------------------------------------ *)

(** [renderMovePlayedOutline], on the main board it changes. *)
Definition renderMovePlayedOutline (board : Board) (move : string) : Board :=
  let board := clearOutlines board in
  let board := addOutline board (OutlineName (Js.slice move 0 2)) in
  addOutline board (OutlineName (Js.slice move 2 4)).

(** An assignment to the public field [boardClass]. *)
Definition setBoardClass (b : Board) (boardClass' : string) : Board :=
  {| boardClass := boardClass'; pieces := pieces b;
     highlightedSquares := highlightedSquares b;
     outlinedSquares := outlinedSquares b; flipped := flipped b;
     arrows := arrows b; whiteToMove := whiteToMove b; border := border b |}.

(* ------------------------------------------------------------------ *)
(** ** board_area.ts: the clocks                                        *)
(* ------------------------------------------------------------------ *)

(** [seconds] is [None] when it is [undefined] or [null]; the default of
    [alwaysShowHours] is passed by the callers that leave it out. *)
Definition formatTime (seconds : option Js.number) (alwaysShowHours : bool)
  : string :=
  match seconds with
  | None => ""
  | Some seconds =>
      let hours := Js.Math_floor (seconds / 3600) in
      let minutes := Js.Math_floor (Js.rem seconds 3600 / 60) in
      let secs := Js.Math_floor (Js.rem seconds 60) in
      if (hours =? 0) && negb alwaysShowHours then
        (Js.padStart 2 "0" (Js.toString minutes) ++ ":"
         ++ Js.padStart 2 "0" (Js.toString secs))%string
      else
        (Js.padStart 2 "0" (Js.toString hours) ++ ":"
         ++ Js.padStart 2 "0" (Js.toString minutes) ++ ":"
         ++ Js.padStart 2 "0" (Js.toString secs))%string
  end.

Definition formatClock (seconds thinkingTime : option Js.number) : string :=
  match seconds with
  | None => ""
  | Some seconds =>
      match thinkingTime with
      | Some thinkingTime =>
          if Js.truthy thinkingTime then
            let seconds := seconds - thinkingTime / 1000 in
            ("(" ++ formatTime (Some (thinkingTime / 1000)) false ++ ") "
             ++ formatTime (Some seconds) true)%string
          else formatTime (Some seconds) true
      | None => formatTime (Some seconds) true
      end
  end.

(* ------------------------------------------------------------------ *)
(** ** board_area.ts: the two boards and the line shown on the second   *)
(* ------------------------------------------------------------------ *)

Record PvVisualization : Type := {
  lastMove : option string;   (* [null] is [None] *)
  fen : string;
  moves : list string;
}.

(** The fields of the class that decide which board is drawn.  The fields
    of the clocks ([currentPosition], [positionIsOngoing],
    [lastUpdateTimestamp]) and [flipped], which is never written, are read
    by none of the methods below and are left out. *)
Record BoardArea : Type := {
  board : Board;
  pvBoard : Board;
  pvVisualization : option PvVisualization;
}.

Section BoardAreaBoards.

Variables Math_sin Math_cos : Js.number → Js.number.

Definition renderCorrectBoard (area : BoardArea) : completion Svg :=
  match pvVisualization area with
  | Some _ => render Math_sin Math_cos (pvBoard area)
  | None => render Math_sin Math_cos (board area)
  end.

(** The constructor, up to the timer it starts: the object and what it
    draws. *)
Definition newBoardArea : completion (BoardArea * Svg) :=
  board ← newBoard;
  pvBoard ← newBoard;
  let pvBoard := setBoardClass pvBoard "pv-board" in
  let area := {| board := board; pvBoard := pvBoard;
                 pvVisualization := None |} in
  svg ← renderCorrectBoard area;
  mret (area, svg).

(** The four arrows of a line, by ply. *)
Definition pvArrow0 (moves : list string) : ArrowLocation :=
  {| move := moves !! 0%nat; classes := "arrow arrow-variation-ply0";
     width := 20; angle := 0; headLength := 20; headWidth := 44;
     dashLength := 1000; dashSpace := 0; renderAfterPieces := false;
     offset := 0; totalOffsets := 1; offsetDirection := 0;
     onlyOuterStroke := None |}.

Definition pvArrow1 (moves : list string) : ArrowLocation :=
  {| move := moves !! 1%nat; classes := "arrow arrow-variation-ply1";
     width := 10; angle := Js.Math_PI / 6; headLength := 10; headWidth := 25;
     dashLength := 10; dashSpace := 10; renderAfterPieces := true;
     offset := 0; totalOffsets := 1; offsetDirection := 0;
     onlyOuterStroke := None |}.

Definition pvArrow2 (moves : list string) : ArrowLocation :=
  {| move := moves !! 2%nat; classes := "arrow arrow-variation-ply2";
     width := 5; angle := - Js.Math_PI / 4; headLength := 7; headWidth := 15;
     dashLength := 5; dashSpace := 5; renderAfterPieces := true;
     offset := 0; totalOffsets := 1; offsetDirection := 0;
     onlyOuterStroke := None |}.

Definition pvArrow3 (moves : list string) : ArrowLocation :=
  {| move := moves !! 3%nat; classes := "arrow arrow-variation-ply3";
     width := 2; angle := Js.Math_PI / 2; headLength := 5; headWidth := 10;
     dashLength := 2; dashSpace := 2; renderAfterPieces := true;
     offset := 0; totalOffsets := 1; offsetDirection := 0;
     onlyOuterStroke := None |}.

(** The object after the call and what the call draws, or the exception
    the drawing ends with.  [fromFen] completes on every string; the log
    line writes to the console only. *)
Definition setPvVisualization (area : BoardArea) (lastMove : option string)
  (baseFen : string) (moves : list string) : BoardArea * completion Svg :=
  let area := {| board := board area; pvBoard := pvBoard area;
                 pvVisualization :=
                   Some {| lastMove := lastMove; fen := baseFen;
                           moves := moves |} |} in
  match fromFen (pvBoard area) baseFen with
  | Throw e => (area, Throw e)
  | Normal pv =>
      let pv :=
        match lastMove with
        | Some (String c rest as lastMove) =>
            addHighlight (addHighlight pv (Js.slice lastMove 0 2))
                         (Js.slice lastMove 2 4)
        | _ => pv
        end in
      let pv := if (0 <? length moves)%nat then addArrow pv (pvArrow0 moves)
                else pv in
      let pv := if (1 <? length moves)%nat then addArrow pv (pvArrow1 moves)
                else pv in
      let pv := if (2 <? length moves)%nat then addArrow pv (pvArrow2 moves)
                else pv in
      let pv := if (3 <? length moves)%nat then addArrow pv (pvArrow3 moves)
                else pv in
      let area := {| board := board area; pvBoard := pv;
                     pvVisualization := pvVisualization area |} in
      (area, renderCorrectBoard area)
  end.

Definition resetPvVisualization (area : BoardArea)
  : BoardArea * completion Svg :=
  let area := {| board := board area; pvBoard := pvBoard area;
                 pvVisualization := None |} in
  (area, renderCorrectBoard area).

End BoardAreaBoards.

(* ------------------------------------------------------------------ *)
(** ** The vocabulary of the statements                                 *)
(* ------------------------------------------------------------------ *)

Definition startPlacement : string :=
  "rnbqkbnr/pppppppp/8/8/8/8/PPPPPPPP/RNBQKBNR".

(** The first field of a position string and its rows. *)
Definition placementOf (fen : string) : string :=
  default EmptyString (Js.split " " fen !! 0%nat).

(** The pieces a position string stands for, read off the string alone. *)
Definition fenPieces (fen : string) : list PieceLocation :=
  foldl (fun pieces '(rowIndex, row) => fenRow pieces rowIndex row)
        [] (imap pair (Js.split "/" (placementOf fen))).

Definition isDigitChar (c : ascii) : bool :=
  match Js.digit c with Some _ => true | None => false end.

(** The characters of a row that are not digits. *)
Definition letters (row : string) : list ascii :=
  List.filter (fun c => negb (isDigitChar c)) (Js.chars row).

(** A position whose second row has seven files, and one with two rows. *)
Definition shortRowFen : string :=
  "rnbqkbnr/ppppppp/8/8/8/8/PPPPPPPP/RNBQKBNR w".
Definition twoRowFen : string := "8/8 w".

(** [x] is [c] or one of its two neighbours among the doubles. *)
Definition within1ulp (c x : Js.number) : Prop :=
  x = c ∨ x = PrimFloat.next_up c ∨ x = PrimFloat.next_down c.

(** The lateral displacement as the specification words it: offset index
    [i] of [N], spread [S]. *)
Definition lateral (S i N : Js.number) : Js.number :=
  ((i + 1) / (N + 1) - 0.5) * S.

(** The left and top edge of a file and of a rank, before the border. *)
Definition fileOnScreen (flipped : bool) (file : Js.number) : Js.number :=
  if flipped then 7 - file else file.

Definition rowOnScreen (flipped : bool) (rowIndex : Js.number) : Js.number :=
  if flipped then rowIndex else 7 - rowIndex.

Definition inBucket (renderAfterPieces' : bool) (arrow : ArrowLocation)
  : bool :=
  Bool.eqb (renderAfterPieces arrow) renderAfterPieces'.

Section ShapeVocabulary.

Variables Math_sin Math_cos : Js.number → Js.number.

(** What the specification says of the shape drawn for an arrow: both
    ends are the centres of the two squares of the move, moved by one and
    the same [(dx, dy)]. *)
Definition displaced (b : Board) (arrow : ArrowLocation) (ar : Arrow)
  : Prop :=
  ∃ move', move arrow = Some move' ∧
    let '(file1, rank1) := squareToFileRank (Js.slice move' 0 2) in
    let '(file2, rank2) := squareToFileRank (Js.slice move' 2 4) in
    let t := lateral BEAM_SPREAD (offset arrow) (totalOffsets arrow) in
    let dx := Math_sin (offsetDirection arrow * Js.Math_PI / 180) * t in
    let dy := Math_cos (offsetDirection arrow * Js.Math_PI / 180) * t in
    x1 ar = fileOnScreen (flipped b) file1 * SQUARE_SIZE + dx
            + SQUARE_SIZE / 2 + border b
    ∧ y1 ar = rowOnScreen (flipped b) rank1 * SQUARE_SIZE + dy
              + SQUARE_SIZE / 2 + border b
    ∧ x2 ar = fileOnScreen (flipped b) file2 * SQUARE_SIZE + dx
              + SQUARE_SIZE / 2 + border b
    ∧ y2 ar = rowOnScreen (flipped b) rank2 * SQUARE_SIZE + dy
              + SQUARE_SIZE / 2 + border b.

(** The shape [renderArrows] hands to [Arrow.render] for an arrow. *)
Definition shapeOf (b : Board) (arrow : ArrowLocation) (ar : Arrow) : Prop :=
  arrowShape Math_sin Math_cos b arrow = Normal ar.

End ShapeVocabulary.

Definition shaft (move' : string) (after : bool) (i N d : Js.number)
  : ArrowLocation :=
  {| move := Some move'; classes := "arrow"; width := 10; angle := 0;
     headLength := 20; headWidth := 24; dashLength := 1000; dashSpace := 0;
     renderAfterPieces := after; offset := i; totalOffsets := N;
     offsetDirection := d; onlyOuterStroke := None |}.

(** The starting position with two arrows out of e2 in one lane and a
    reply drawn over the pieces. *)
Definition sampleBoard : Board :=
  addArrow (addArrow (addArrow
    (setPieces emptyBoard (fenPieces startFen))
    (shaft "e2e3" false 0 2 90)) (shaft "e2e4" false 1 2 90))
    (shaft "e7e5" true 0 1 (-90)).

(** Whether an entry of the set of outlines is the name of a square, and
    the outlines among the entries. *)
Definition isOutlineName (entry : OutlineEntry) : bool :=
  match entry with
  | OutlineName _ => true
  | OutlineObject _ => false
  end.

Definition objectsOf (entries : list OutlineEntry) : list Outline :=
  omap (fun entry => match entry with
                     | OutlineObject outline => Some outline
                     | OutlineName _ => None
                     end) entries.

Definition outlineObjects (b : Board) : list Outline :=
  objectsOf (outlinedSquares b).

(** What a redraw needs to complete: no name of a square among the
    outlines, and a move on every arrow. *)
Definition drawable (b : Board) : Prop :=
  Forall (fun entry => isOutlineName entry = false) (outlinedSquares b)
  ∧ Forall (fun a => is_Some (move a)) (arrows b).

(** The sample board with an outline on e4. *)
Definition outlinedBoard : Board :=
  addOutline sampleBoard
    (OutlineObject {| square := "e4"; className := "outline"; inset := 4 |}).

(** The 64 squares, rank by rank from rank 0 and file by file from file 0. *)
Definition allSquares (b : Board) : list SvgElement :=
  flat_map (fun rank => map (boardSquare b rank) (seq 0 8)) (seq 0 8).

(** Whether a piece belongs to the side to move. *)
Definition ofSideToMove (b : Board) (piece : PieceLocation) : bool :=
  Bool.eqb (isWhitePiece piece) (whiteToMove b).

(** The top edge of the squares of a row, as the specification words it:
    [(flipped ? rowIndex : 7 - rowIndex) * squareSize + border]. *)
Definition topLeftY (flipped : bool) (rowIndex squareSize border : Js.number)
  : Js.number :=
  rowOnScreen flipped rowIndex * squareSize + border.

(** The y attribute of a rectangle or of a piece. *)
Definition svgY (e : SvgElement) : option Js.number :=
  match e with
  | SvgRect _ y _ _ _ => Some y
  | SvgUse _ y _ _ => Some y
  | SvgArrow _ => None
  end.

(** The vertical part of the displacement of an arrow. *)
Definition lateralDy (Math_cos : Js.number → Js.number)
  (arrow : ArrowLocation) : Js.number :=
  Math_cos (offsetDirection arrow * Js.Math_PI / 180)
  * lateral BEAM_SPREAD (offset arrow) (totalOffsets arrow).

(** The ratio and the scaling law as the specification words them. *)
Definition guardedRatio (nodes' bestNodes : Js.number) : Js.number :=
  if bestNodes =? 0 then 0 else nodes' / bestNodes.

Definition scalingLaw (Math_pow : Js.number → Js.number → Js.number)
  (ratio baseWidth : Js.number) : Js.number :=
  Math_pow ratio (1 / 1.7) * baseWidth.

(** What [thinkingArrow] reads besides the two variations: the counts of
    the arrow and, below ply 2, its move. *)
Definition arrowReady (usVars themVars : gmap nat Counts)
  (arrow : ArrowInfo) (variation : Variation) : Prop :=
  match ply arrow with
  | 0%nat => is_Some (usVars !! variationIdx arrow)
             ∧ is_Some (Js.split " " (pvUci variation) !! 0%nat)
  | 1%nat => is_Some (themVars !! variationIdx arrow)
             ∧ is_Some (Js.split " " (pvUci variation) !! 1%nat)
  | _ => is_Some (usVars !! variationIdx arrow)
  end.

(** An update whose best variation has no nodes yet. *)
Definition zeroBestUpdate : WsEvaluationData :=
  {| variations := [ {| pvUci := "e2e4 e7e5"; nodes := 0 |};
                     {| pvUci := "d2d4 d7d5"; nodes := 5 |} ] |}.

Definition secondLineFirstPly : ArrowInfo :=
  {| variationIdx := 1; ply := 0 |}.

Section LaneVocabulary.

Variable Math_atan2 : Js.number → Js.number → Js.number.
Variable update : WsEvaluationData.

(** The arrows both loops of [buildArrowOffsets] look at. *)
Definition isLaned (arrow : ArrowInfo) : bool :=
  negb (2 <=? ply arrow)%nat.

(** The arrows of a lane, in the order of the list. *)
Definition inLane (key : string) (arrow : ArrowInfo) : bool :=
  isLaned arrow
  && match laneKey Math_atan2 update arrow with
     | Normal key' => bool_decide (key' = key)
     | Throw _ => false
     end.

Definition laneMembers (key : string) (arrowInfos : list ArrowInfo)
  : list ArrowInfo :=
  List.filter (inLane key) arrowInfos.

(** Where [renderThinkingarrows] reads the counts of a laned arrow. *)
Definition assigned (offsets : gmap nat Counts * gmap nat Counts)
  (arrow : ArrowInfo) : option Counts :=
  if (ply arrow =? 0)%nat then offsets.1 !! variationIdx arrow
  else offsets.2 !! variationIdx arrow.

(** Every laned arrow names a move of the update. *)
Definition keyed (arrowInfos : list ArrowInfo) : Prop :=
  ∀ a, a ∈ arrowInfos → isLaned a = true →
       ∃ key, laneKey Math_atan2 update a = Normal key.

Definition totalOf (dirToCount : gmap string Counts) (key : string) : nat :=
  from_option total 0%nat (dirToCount !! key).

Definition currentOf (dirToCount : gmap string Counts) (key : string) : nat :=
  from_option current 0%nat (dirToCount !! key).

(** One step of the first loop. *)
Definition countOne (key : string) (dirToCount : gmap string Counts)
  : gmap string Counts :=
  alter (fun c => {| current := current c; total := S (total c) |}) key
        (if decide (is_Some (dirToCount !! key)) then dirToCount
         else <[key := {| current := 0; total := 0 |}]> dirToCount).

(** One step of the second loop. *)
Definition assignOne (arrow : ArrowInfo) (value : Counts)
  (offsets : gmap nat Counts * gmap nat Counts)
  : gmap nat Counts * gmap nat Counts :=
  (if (ply arrow =? 0)%nat then <[variationIdx arrow := value]> offsets.1
   else offsets.1,
   if (ply arrow =? 0)%nat then offsets.2
   else <[variationIdx arrow := value]> offsets.2).

End LaneVocabulary.

#[global] Instance ArrowInfo_eq_dec : EqDecision ArrowInfo.
Proof. solve_decision. Defined.

(** A check of [keyed] that runs. *)
Definition keyedb (Math_atan2 : Js.number → Js.number → Js.number)
  (update : WsEvaluationData) (arrowInfos : list ArrowInfo) : bool :=
  forallb (fun a => negb (isLaned a)
                    || match laneKey Math_atan2 update a with
                       | Normal _ => true
                       | Throw _ => false
                       end)
          arrowInfos.

(** Two lines that open from e2 straight up the board, the second with a
    third ply. *)
Definition twoLines : WsEvaluationData :=
  {| variations := [ {| pvUci := "e2e3 e7e5 d2d4"; nodes := 100 |};
                     {| pvUci := "e2e4 e7e6 d2d4"; nodes := 50 |} ] |}.

Definition twoLinesArrows : list ArrowInfo :=
  [ {| variationIdx := 0; ply := 0 |}; {| variationIdx := 0; ply := 1 |};
    {| variationIdx := 1; ply := 0 |}; {| variationIdx := 1; ply := 1 |};
    {| variationIdx := 1; ply := 2 |} ].

(** The move a candidate stands for: the move of its ply in its
    variation. *)
Definition moveOf (update : WsEvaluationData) (arrow : ArrowInfo)
  : option string :=
  variations update !! variationIdx arrow
  ≫= fun variation => Js.split " " (pvUci variation) !! ply arrow.

(** The direction function of the specification, on the two squares of a
    move and in board coordinates: the file of a square is its letter minus
    a, its row its digit minus one. *)
Definition direction (Math_atan2 : Js.number → Js.number → Js.number)
  (originSquare destSquare : string) : Js.number :=
  let fileOf (square : string) := Js.charCodeAt square 0 - 97 in
  let rowOf (square : string) := Js.parseInt (Js.at_ square 1) - 1 in
  Js.Math_round
    (Math_atan2 (rowOf destSquare - rowOf originSquare)
                (fileOf destSquare - fileOf originSquare)
     * 180 / Js.Math_PI).

(** The lane of a move: its origin square and its direction bucket, the
    rounded direction in degrees as a key prints it (0 and -0 are one
    bucket). *)
Definition laneOf (Math_atan2 : Js.number → Js.number → Js.number)
  (move : string) : string * string :=
  (Js.slice move 0 2,
   Js.numberToString
     (direction Math_atan2 (Js.slice move 0 2) (Js.slice move 2 4))).

(** The ply-0 and ply-1 arrows of a lane, in the order of the list. *)
Definition inLaneOf (Math_atan2 : Js.number → Js.number → Js.number)
  (update : WsEvaluationData) (lane : string * string) (arrow : ArrowInfo)
  : bool :=
  isLaned arrow
  && bool_decide (laneOf Math_atan2 <$> moveOf update arrow = Some lane).

Definition laneArrows (Math_atan2 : Js.number → Js.number → Js.number)
  (update : WsEvaluationData) (lane : string * string)
  (arrowInfos : list ArrowInfo) : list ArrowInfo :=
  List.filter (inLaneOf Math_atan2 update lane) arrowInfos.

(** Every ply-0 and ply-1 arrow of the list stands for a move. *)
Definition named (update : WsEvaluationData) (arrowInfos : list ArrowInfo)
  : Prop :=
  Forall (fun a => isLaned a = true → is_Some (moveOf update a)) arrowInfos.

#[global] Instance named_dec (update : WsEvaluationData)
  (arrowInfos : list ArrowInfo) : Decision (named update arrowInfos).
Proof. unfold named. apply _. Defined.

(** A string without a colon. *)
Fixpoint colonFree (s : string) : Prop :=
  match s with
  | EmptyString => True
  | String c s => c ≠ ":"%char ∧ colonFree s
  end.

(** A candidate listed twice. *)
Definition firstLineTwice : list ArrowInfo :=
  [ {| variationIdx := 0; ply := 0 |}; {| variationIdx := 0; ply := 0 |} ].

Section PlacementVocabulary.

Variable Math_atan2 : Js.number → Js.number → Js.number.
Variable update : WsEvaluationData.

(** Where [thinkingArrow] reads the counts of an arrow: ply 1 in
    [themVars], every other ply in [usVars]. *)
Definition countsRead (offsets : gmap nat Counts * gmap nat Counts)
  (arrow : ArrowInfo) : option Counts :=
  if (ply arrow =? 1)%nat then offsets.2 !! variationIdx arrow
  else offsets.1 !! variationIdx arrow.

(** The move whose direction the arrow is displaced along: its own at
    ply 0 and 1, the first move of the line from ply 2 on. *)
Definition directionPly (arrow : ArrowInfo) : nat :=
  if (ply arrow =? 1)%nat then 1%nat else 0%nat.

(** How an added arrow is laid out from the counts. *)
Definition placed (offsets : gmap nat Counts * gmap nat Counts)
  (arrow : ArrowInfo) (loc : ArrowLocation) : Prop :=
  ∃ variation counts along,
    variations update !! variationIdx arrow = Some variation
    ∧ countsRead offsets arrow = Some counts
    ∧ Js.split " " (pvUci variation) !! directionPly arrow = Some along
    ∧ move loc = Js.split " " (pvUci variation) !! ply arrow
    ∧ offset loc = Js.ofNat (current counts)
    ∧ totalOffsets loc = Js.ofNat (total counts)
    ∧ offsetDirection loc = moveToDirectionDeg Math_atan2 along.

(** Every arrow from ply 2 on comes with the first-ply arrow of its
    line. *)
Definition anchored (arrowInfos : list ArrowInfo) : Prop :=
  Forall (fun a => (2 ≤ ply a)%nat →
            Exists (fun a0 => ply a0 = 0%nat
                              ∧ variationIdx a0 = variationIdx a)
                   arrowInfos)
         arrowInfos.

#[global] Instance anchored_dec (arrowInfos : list ArrowInfo) :
  Decision (anchored arrowInfos).
Proof. unfold anchored. apply _. Defined.

End PlacementVocabulary.


Definition svgXY (e : SvgElement) : option (Js.number * Js.number) :=
  match e with
  | SvgRect x y _ _ _ => Some (x, y)
  | SvgUse x y _ _ => Some (x, y)
  | SvgArrow _ => None
  end.

(** The colour of a square: a1 is dark. *)
Definition shade (rank file : nat) : string :=
  if Nat.odd (rank + file) then "square light" else "square dark".

(** The primitives of a redraw as the specification has them.  The name of
    a square is the letter of its file followed by its rank plus one; a
    square is light when rank plus file is odd and dark otherwise, and
    marked when its name is highlighted. *)
Definition squareName (rank file : nat) : string :=
  String (ascii_of_nat (97 + file))
         (String (ascii_of_nat (49 + rank)) EmptyString).

Definition squareStyle (b : Board) (rank file : nat) : string :=
  (shade rank file
   ++ if bool_decide (squareName rank file ∈ highlightedSquares b)
      then " lastmove" else "")%string.

Definition styledSquare (b : Board) (rank file : nat) : SvgElement :=
  SvgRect (fileOnScreen (flipped b) (Js.ofNat file) * SQUARE_SIZE + border b)
          (rowOnScreen (flipped b) (Js.ofNat rank) * SQUARE_SIZE + border b)
          SQUARE_SIZE SQUARE_SIZE (squareStyle b rank file).

Definition styledSquares (b : Board) : list SvgElement :=
  flat_map (fun rank => map (styledSquare b rank) (seq 0 8)) (seq 0 8).

(** An outline is the rectangle of the square it names (the letter of the
    file minus a, the digit of the rank minus one), moved in by half its
    inset on every side. *)
Definition outlineBox (b : Board) (outline : Outline) : SvgElement :=
  let file := Js.charCodeAt (square outline) 0 - 97 in
  let rank := Js.parseInt (Js.at_ (square outline) 1) - 1 in
  SvgRect (fileOnScreen (flipped b) file * SQUARE_SIZE + border b
           + inset outline / 2)
          (rowOnScreen (flipped b) rank * SQUARE_SIZE + border b
           + inset outline / 2)
          (SQUARE_SIZE - 2 * (inset outline / 2))
          (SQUARE_SIZE - 2 * (inset outline / 2))
          (className outline).

(** A black piece is written with a lower-case letter, a white piece with
    anything else; a piece is of the side to move when its colour is the
    colour to move. *)
Definition isBlackSymbol (c : ascii) : bool :=
  (97 <=? nat_of_ascii c)%nat && (nat_of_ascii c <=? 122)%nat.

Definition toMove (b : Board) (piece : PieceLocation) : bool :=
  Bool.eqb (whiteToMove b) (negb (isBlackSymbol (pieceSymbol piece))).

(** A piece is drawn on its file and on the row of the position string it
    stands on, counted from the top, and is marked when it is of the side
    to move. *)
Definition glyph (b : Board) (piece : PieceLocation) : SvgElement :=
  SvgUse (fileOnScreen (flipped b) (file piece) * SQUARE_SIZE + border b)
         (rowOnScreen (negb (flipped b)) (rank piece) * SQUARE_SIZE
          + border b)
         ("/static/pieces.svg#piece-"
          ++ String (pieceSymbol piece) EmptyString)
         (if toMove b piece then Some " side-to-move"%string else None).

(** The boards a program can hold: built by the constructor and changed
    through the public methods and the public field only. *)
Inductive reachable : Board → Prop :=
| reach_new b : newBoard = Normal b → reachable b
| reach_boardClass b c : reachable b → reachable (setBoardClass b c)
| reach_clearHighlights b : reachable b → reachable (clearHighlights b)
| reach_clearArrows b : reachable b → reachable (clearArrows b)
| reach_clearOutlines b : reachable b → reachable (clearOutlines b)
| reach_addHighlight b s : reachable b → reachable (addHighlight b s)
| reach_addOutline b o : reachable b → reachable (addOutline b o)
| reach_addArrow b a : reachable b → reachable (addArrow b a)
| reach_fromFen b fen b' :
    reachable b → fromFen b fen = Normal b' → reachable b'.

(** A row of a position string read with a counter of files in [nat]:
    its pieces with their files, and the files it covers. *)
Fixpoint rowCells (cs : list ascii) (k : nat) : list (ascii * nat) :=
  match cs with
  | [] => []
  | c :: cs =>
      match Js.digit c with
      | Some d => rowCells cs (k + d)
      | None => (c, k) :: rowCells cs (S k)
      end
  end.

Fixpoint rowWidth (cs : list ascii) : nat :=
  match cs with
  | [] => 0
  | c :: cs =>
      match Js.digit c with
      | Some d => d + rowWidth cs
      | None => S (rowWidth cs)
      end
  end.

(** The occupied squares of the rows from row [i] on: row, file, symbol. *)
Fixpoint cellsFrom (i : nat) (rows : list string)
  : list (nat * nat * ascii) :=
  match rows with
  | [] => []
  | row :: rows =>
      map (fun cell => (i, cell.2, cell.1)) (rowCells (Js.chars row) 0)
      ++ cellsFrom (S i) rows
  end.

Definition pieceOf (cell : nat * nat * ascii) : PieceLocation :=
  {| pieceSymbol := cell.2; rank := Js.ofNat cell.1.1;
     file := Js.ofNat cell.1.2 |}.

#[global] Instance spec_float_eq_dec : EqDecision spec_float.
Proof. solve_decision. Defined.

(** Whether two doubles are the same double. *)
Definition sameDouble (x y : Js.number) : bool :=
  bool_decide (Prim2SF x = Prim2SF y).

(** The pieces and the arrows among the children of the svg element. *)
Definition isUse (e : SvgElement) : bool :=
  match e with SvgUse _ _ _ _ => true | _ => false end.

Definition isArrow (e : SvgElement) : bool :=
  match e with SvgArrow _ => true | _ => false end.

(** The class of a drawn piece. *)
Definition useClass (e : SvgElement) : option string :=
  match e with SvgUse _ _ _ cls => cls | _ => None end.

(** The counts of [twoLinesArrows]: the same for both plies. *)
Definition twoLinesCounts : gmap nat Counts :=
  {[ 0%nat := {| current := 0; total := 2 |};
     1%nat := {| current := 1; total := 2 |} ]}.

(** A line of two moves, with a candidate for a third that is not there. *)
Definition shortLine : WsEvaluationData :=
  {| variations := [ {| pvUci := "e2e4 e7e5"; nodes := 10 |} ] |}.

Definition shortLineArrows : list ArrowInfo :=
  [ {| variationIdx := 0; ply := 0 |}; {| variationIdx := 0; ply := 2 |} ].

(** The look [thinkingArrow] gives to the arrow of a candidate. *)
Definition styled (update : WsEvaluationData) (a : ArrowInfo)
  (loc : ArrowLocation) : Prop :=
  renderAfterPieces loc = negb (ply a =? 0)%nat
  ∧ classes loc
    = ("arrow arrow-variation" ++ pretty (variationIdx a) ++ " arrow-ply"
       ++ pretty (Nat.min (ply a) 2))%string
  ∧ ∃ v, variations update !! variationIdx a = Some v
         ∧ move loc = Js.split " " (pvUci v) !! ply a.

(** The board a completed update leaves, or the board as it was. *)
Definition updated (update : WsEvaluationData) (candidates : list ArrowInfo)
  (board : Board) : Board :=
  match renderThinkingarrows Host.atan2 Host.pow (fun _ => candidates) update
          (clearArrows board)
  with
  | Normal board' => board'
  | Throw _ => board
  end.

(** Two decimal digits, and the faces of a clock. *)
Definition twoDigits (k : Z) : string :=
  String (ascii_of_nat (48 + Z.to_nat (k / 10)))
    (String (ascii_of_nat (48 + Z.to_nat (k mod 10))) EmptyString).

Definition decimal (k : Z) : string :=
  if (k <? 10)%Z then String (ascii_of_nat (48 + Z.to_nat k)) EmptyString
  else twoDigits k.

Definition clockFace (n : Z) : string :=
  (twoDigits (n / 3600) ++ ":" ++ twoDigits (n / 60 mod 60) ++ ":"
   ++ twoDigits (n mod 60))%string.

Definition minuteFace (n : Z) : string :=
  (twoDigits (n / 60) ++ ":" ++ twoDigits (n mod 60))%string.

(** What [formatTime] shows of a time [n] seconds below zero. *)
Definition overdrawnFace (n : Z) : string :=
  ("-1:-" ++ decimal ((n + 59) / 60) ++ ":"
   ++ if (n mod 60 =? 0)%Z then "00" else "-" ++ decimal (n mod 60))%string.

(** [p] holds of the [fuel] integers from [z] on. *)
Fixpoint allFrom (fuel : nat) (z : Z) (p : Z → bool) : bool :=
  match fuel with
  | O => true
  | S fuel => p z && allFrom fuel (z + 1)%Z p
  end.

(** The three numbers [formatTime] computes for [n] whole seconds are the
    hours, the minutes and the seconds of [n]. *)
Definition fieldsOf (n : Z) : bool :=
  let x := Js.ofZ n in
  let hours := Js.Math_floor (x / 3600) in
  PrimFloat.Leibniz.eqb hours (Js.ofZ (n / 3600))
  && Bool.eqb (hours =? 0) (n <? 3600)%Z
  && PrimFloat.Leibniz.eqb (Js.Math_floor (Js.rem x 3600 / 60))
                           (Js.ofZ (n / 60 mod 60))
  && PrimFloat.Leibniz.eqb (Js.Math_floor (Js.rem x 60)) (Js.ofZ (n mod 60)).

Definition secondsInADay : nat := Z.to_nat 86400.

(** Both ends of the shape are the centres of the two squares of the
    move. *)
Definition centred (b : Board) (move' : string) (ar : Arrow) : Prop :=
  let '(file1, rank1) := squareToFileRank (Js.slice move' 0 2) in
  let '(file2, rank2) := squareToFileRank (Js.slice move' 2 4) in
  x1 ar = fileOnScreen (flipped b) file1 * SQUARE_SIZE + SQUARE_SIZE / 2
          + border b
  ∧ y1 ar = rowOnScreen (flipped b) rank1 * SQUARE_SIZE + SQUARE_SIZE / 2
            + border b
  ∧ x2 ar = fileOnScreen (flipped b) file2 * SQUARE_SIZE + SQUARE_SIZE / 2
            + border b
  ∧ y2 ar = rowOnScreen (flipped b) rank2 * SQUARE_SIZE + SQUARE_SIZE / 2
            + border b.

(** An arrow alone in its lane. *)
Definition lone (arrow : ArrowLocation) : Prop :=
  offset arrow = 0 ∧ totalOffsets arrow = 1.

(** The squares a last move highlights; an empty move, like none, highlights
    nothing. *)
Definition lastMoveSquares (lastMove : option string) : gset string :=
  match lastMove with
  | Some (String c rest as lastMove) =>
      {[ Js.slice lastMove 0 2; Js.slice lastMove 2 4 ]}
  | _ => ∅
  end.

(** A main board with arrows and a second board that still shows an older
    line. *)
Definition sampleArea : BoardArea :=
  {| board := sampleBoard;
     pvBoard := setBoardClass (addHighlight sampleBoard "a1") "pv-board";
     pvVisualization := None |}.

(** An empty board seen from the other side. *)
Definition turnedBoard : Board :=
  {| boardClass := "main-board"; pieces := []; highlightedSquares := ∅;
     outlinedSquares := []; flipped := true; arrows := [];
     whiteToMove := true; border := 0 |}.

(** The areas the constructor makes and the two methods of the line shown
    lead to. *)
Inductive reachableArea (Math_sin Math_cos : Js.number → Js.number)
  : BoardArea → Prop :=
| reach_newArea area svg :
    newBoardArea Math_sin Math_cos = Normal (area, svg) →
    reachableArea Math_sin Math_cos area
| reach_setPv area lastMove' baseFen moves' :
    reachableArea Math_sin Math_cos area →
    reachableArea Math_sin Math_cos
      (fst (setPvVisualization Math_sin Math_cos area lastMove' baseFen
              moves'))
| reach_resetPv area :
    reachableArea Math_sin Math_cos area →
    reachableArea Math_sin Math_cos
      (fst (resetPvVisualization Math_sin Math_cos area)).

(** The area as the constructor leaves it. *)
Definition startArea : BoardArea :=
  {| board := setPieces emptyBoard (fenPieces startFen);
     pvBoard := setBoardClass (setPieces emptyBoard (fenPieces startFen))
                  "pv-board";
     pvVisualization := None |}.

(** The position after 1. e4, and a line from it. *)
Definition afterE4 : string :=
  "rnbqkbnr/pppppppp/8/8/4P3/8/PPPP1PPP/RNBQKBNR b".

Definition spanishLine : list string :=
  ["e7e5"; "g1f3"; "b8c6"; "f1b5"; "a7a6"].

(* ================================================================== *)
(** * Lemmas and theorems                                               *)
(* ================================================================== *)

Example round_samples :
  map Js.Math_round [2.5; -2.5; 116.56505117707799; 0.49999999999999994;
                     -0.2; 90; -7.6; 1e300]%float
  = [3; -2; 117; 0; -0; 90; -8; 1e300]%float.
Proof. vm_compute. reflexivity. Qed.

(* ------------------------------------------------------------------ *)
(** ** Strings: slicing and splitting                                   *)
(* ------------------------------------------------------------------ *)

Lemma split_no_sep (sep : ascii) (s : string) :
  sep ∉ Js.chars s → Js.split sep s = [s].
Proof.
  induction s as [|c s IH]; cbn; [done|].
  intros Hnot. rewrite not_elem_of_cons in Hnot. destruct Hnot as [Hc Hs].
  destruct (Ascii.eqb_spec c sep) as [->|_]; [done|].
  by rewrite (IH Hs).
Qed.

Lemma append_nil (t : string) : ("" ++ t)%string = t.
Proof. reflexivity. Qed.

Lemma append_cons (c : ascii) (s t : string) :
  (String c s ++ t)%string = String c (s ++ t)%string.
Proof. reflexivity. Qed.

Lemma split_app_sep (sep : ascii) (s rest : string) :
  sep ∉ Js.chars s →
  Js.split sep (s ++ String sep rest) = s :: Js.split sep rest.
Proof.
  induction s as [|c s IH].
  - intros _. rewrite append_nil. cbn. by rewrite Ascii.eqb_refl.
  - intros Hnot. cbn in Hnot. rewrite not_elem_of_cons in Hnot.
    destruct Hnot as [Hc Hs]. rewrite append_cons. cbn.
    destruct (Ascii.eqb_spec c sep) as [->|_]; [done|].
    by rewrite (IH Hs).
Qed.

Lemma split_nonempty (sep : ascii) (s : string) :
  ∃ w ws, Js.split sep s = w :: ws.
Proof.
  induction s as [|c s (w & ws & IH)]; cbn; [by eexists _, _|].
  destruct (Ascii.eqb c sep); [by eexists _, _|].
  rewrite IH. by eexists _, _.
Qed.

Lemma slice_front (s t : string) :
  Js.slice (s ++ t) 0 (String.length s) = s.
Proof.
  unfold Js.slice. rewrite Nat.sub_0_r.
  induction s as [|c s IH]; [by destruct t|].
  rewrite append_cons. cbn. by rewrite IH.
Qed.

Lemma substring_all (t : string) : String.substring 0 (String.length t) t = t.
Proof. induction t as [|c t IH]; cbn; [done|by rewrite IH]. Qed.

Lemma slice_back (s t : string) :
  Js.slice (s ++ t) (String.length s) (String.length s + String.length t) = t.
Proof.
  unfold Js.slice.
  replace (String.length s + String.length t - String.length s)%nat
    with (String.length t) by lia.
  induction s as [|c s IH]; [by rewrite append_nil, substring_all|].
  rewrite append_cons. cbn. apply IH.
Qed.

(* ------------------------------------------------------------------ *)
(** ** Squares and their names                                          *)
(* ------------------------------------------------------------------ *)

Tactic Notation "below8" ident(n) :=
  destruct n as [|[|[|[|[|[|[|[|n]]]]]]]]; [..|exfalso; lia].

Lemma square_name_decoded (rank file : nat) :
  (file ≤ 7)%nat → (rank ≤ 7)%nat →
  String.length (fileRanktoSquare rank file) = 2%nat
  ∧ squareToFileRank (fileRanktoSquare rank file)
    = (Js.ofNat file, Js.ofNat rank).
Proof.
  intros Hf Hr. below8 file; below8 rank; vm_compute; done.
Qed.

Lemma square_name_chars (rank file : nat) :
  (file ≤ 7)%nat → (rank ≤ 7)%nat →
  fileRanktoSquare rank file
  = String (ascii_of_nat (97 + file))
           (String (ascii_of_nat (49 + rank)) EmptyString).
Proof. intros Hf Hr. below8 file; below8 rank; reflexivity. Qed.

Lemma shade_class (rank file : nat) :
  (if ((rank + file) mod 2 =? 1)%nat then " light" else " dark")%string
  = (if Nat.odd (rank + file) then " light" else " dark")%string.
Proof.
  rewrite <- Nat.bit0_mod, Nat.bit0_odd.
  destruct (Nat.odd (rank + file)); reflexivity.
Qed.

(** C10. For file and rank between 0 and 7, the name [fileRanktoSquare]
    gives to the square is read back by [squareToFileRank] as the pair
    [file, rank] it came from. *)
Theorem squareToFileRank_fileRanktoSquare (rank file : nat) :
  (file ≤ 7)%nat → (rank ≤ 7)%nat →
  squareToFileRank (fileRanktoSquare rank file)
  = (Js.ofNat file, Js.ofNat rank).
Proof.
  intros Hfile Hrank.
  below8 file; below8 rank; vm_compute; reflexivity.
Qed.

Lemma squareToFileRank_fileRanktoSquare_witness :
  squareToFileRank (fileRanktoSquare 3 4) = (Js.ofNat 4, Js.ofNat 3).
Proof. apply (squareToFileRank_fileRanktoSquare 3 4); lia. Defined.

(* ------------------------------------------------------------------ *)
(** ** fromFen                                                          *)
(* ------------------------------------------------------------------ *)

Lemma isNaN_parseInt (c : ascii) :
  Js.isNaN (Js.parseInt (Some c)) = negb (isDigitChar c).
Proof. destruct c as [[] [] [] [] [] [] [] []]; vm_compute; reflexivity. Qed.

Lemma fenChars_length (rowIndex : nat) (cs : list ascii)
  (file : Js.number) (pieces : list PieceLocation) :
  length (snd (foldl (fenChar rowIndex) (file, pieces) cs))
  = (length pieces
     + length (List.filter (fun c => negb (isDigitChar c)) cs))%nat.
Proof.
  revert file pieces. induction cs as [|c cs IH]; intros file pieces; cbn.
  - lia.
  - rewrite isNaN_parseInt. destruct (isDigitChar c); cbn.
    + apply IH.
    + rewrite IH, length_app. cbn. lia.
Qed.

Lemma fenRow_length (pieces : list PieceLocation) (rowIndex : nat)
  (row : string) :
  length (fenRow pieces rowIndex row)
  = (length pieces + length (letters row))%nat.
Proof. apply fenChars_length. Qed.

Lemma fenRows_length (rows : list (nat * string))
  (pieces : list PieceLocation) :
  length (foldl (fun pieces '(rowIndex, row) => fenRow pieces rowIndex row)
                pieces rows)
  = (length pieces + sum_list (map (fun ir => length (letters ir.2)) rows))%nat.
Proof.
  revert pieces. induction rows as [|[i row] rows IH]; intros pieces.
  - cbn. lia.
  - cbn. rewrite IH, fenRow_length. unfold letters, Js.chars. cbn. lia.
Qed.

Lemma map_snd_imap {A B : Type} (g : A → B) (f : nat → A → nat * A)
  (rows : list A) :
  (∀ i x, (f i x).2 = x) →
  map (fun ir => g ir.2) (imap f rows) = map g rows.
Proof.
  revert f. induction rows as [|row rows IH]; intros f Hf; cbn; [done|].
  rewrite Hf. f_equal. apply IH. intros i x. apply Hf.
Qed.

Lemma fromFen_unfold (b : Board) (fen : string) :
  fromFen b fen
  = Normal {| boardClass := boardClass b; pieces := fenPieces fen;
              highlightedSquares := ∅; outlinedSquares := [];
              flipped := flipped b; arrows := [];
              whiteToMove :=
                bool_decide (Js.split " " fen !! 1%nat = Some "w"%string);
              border := border b |}.
Proof.
  unfold fromFen, fenPieces, placementOf.
  destruct (split_nonempty " " fen) as (w & ws & ->). reflexivity.
Qed.

(** C2 (as the code has it). [fromFen] never throws and checks neither
    the length of a row nor the number of rows: for every board and every
    string it completes, with a piece set that is read off the string alone
    -- one piece for each character of a row that is not a digit -- and
    with the highlights, arrows and outlines cleared; nothing of the
    previous piece set is kept. *)
Theorem fromFen_no_validation (b : Board) (fen : string) :
  ∃ b', fromFen b fen = Normal b'
    ∧ pieces b' = fenPieces fen
    ∧ length (pieces b')
      = sum_list (map (fun row => length (letters row))
                      (Js.split "/" (placementOf fen)))
    ∧ highlightedSquares b' = ∅ ∧ arrows b' = [] ∧ outlinedSquares b' = [].
Proof.
  rewrite fromFen_unfold. eexists. split; [reflexivity|]. cbn.
  repeat split. unfold fenPieces. rewrite fenRows_length.
  by rewrite (map_snd_imap (fun row => length (letters row))).
Qed.

(** C2, refuted as stated: on the freshly built board, which holds the 32
    pieces of the starting position, both malformed strings are accepted
    without any exception and replace the piece set (by 31 pieces, and by
    none). *)
Lemma fromFen_accepts_malformed :
  ∃ b b1 b2,
    newBoard = Normal b ∧ length (pieces b) = 32%nat
    ∧ fromFen b shortRowFen = Normal b1 ∧ length (pieces b1) = 31%nat
    ∧ fromFen b twoRowFen = Normal b2 ∧ pieces b2 = [].
Proof.
  unfold newBoard. rewrite fromFen_unfold.
  eexists. rewrite !fromFen_unfold. eexists _, _.
  repeat split; vm_compute; reflexivity.
Qed.

Lemma append_empty_r (s : string) : (s ++ "")%string = s.
Proof.
  induction s as [|c s IH]; [done|]. by rewrite append_cons, IH.
Qed.

(** The second field of [placement ++ " " ++ activeColor ++ rest], where
    [rest] is empty or starts a further field. *)
Lemma split_fields (placement activeColor rest : string) :
  " "%char ∉ Js.chars placement →
  " "%char ∉ Js.chars activeColor →
  rest = EmptyString ∨ (∃ r, rest = String " " r) →
  ∃ more, Js.split " " (placement ++ " " ++ activeColor ++ rest)
          = placement :: activeColor :: more.
Proof.
  intros Hp Ha Hrest.
  change (placement ++ " " ++ activeColor ++ rest)%string
    with (placement ++ String " " (activeColor ++ rest))%string.
  rewrite (split_app_sep _ _ _ Hp).
  destruct Hrest as [->|[r ->]].
  - rewrite append_empty_r, (split_no_sep _ _ Ha). by eexists.
  - rewrite (split_app_sep _ _ _ Ha). by eexists.
Qed.

(** C9. The starting position, followed by any active-colour field (and
    possibly further fields), parses to exactly 32 pieces, 16 with an
    upper-case symbol and 16 with a lower-case one; and for every
    placement the white-to-move flag is set exactly when the active-colour
    field is the token w. *)
Theorem fromFen_start_position (b : Board) (activeColor rest : string) :
  " "%char ∉ Js.chars activeColor →
  rest = EmptyString ∨ (∃ r, rest = String " " r) →
  (∃ b', fromFen b (startPlacement ++ " " ++ activeColor ++ rest) = Normal b'
     ∧ length (pieces b') = 32%nat
     ∧ length (List.filter isWhitePiece (pieces b')) = 16%nat
     ∧ length (List.filter (fun p => negb (isWhitePiece p)) (pieces b'))
       = 16%nat)
  ∧ (∀ placement, " "%char ∉ Js.chars placement →
       ∃ b', fromFen b (placement ++ " " ++ activeColor ++ rest) = Normal b'
         ∧ (whiteToMove b' = true ↔ activeColor = "w"%string)).
Proof.
  intros Ha Hrest. split.
  - assert (Hp : " "%char ∉ Js.chars startPlacement).
    { apply (bool_decide_unpack _). vm_compute. reflexivity. }
    destruct (split_fields _ _ _ Hp Ha Hrest) as [more Hsplit].
    rewrite fromFen_unfold. eexists. split; [reflexivity|].
    cbn [pieces]. unfold fenPieces, placementOf. rewrite Hsplit.
    repeat split; vm_compute; reflexivity.
  - intros placement Hp.
    destruct (split_fields _ _ _ Hp Ha Hrest) as [more Hsplit].
    rewrite fromFen_unfold. eexists. split; [reflexivity|].
    cbn [whiteToMove]. rewrite Hsplit. cbn.
    rewrite bool_decide_eq_true. split; congruence.
Qed.

Lemma fromFen_start_position_witness :
  (∃ b', fromFen emptyBoard (startPlacement ++ " " ++ "w" ++ " KQkq - 0 1")
         = Normal b'
     ∧ length (pieces b') = 32%nat
     ∧ length (List.filter isWhitePiece (pieces b')) = 16%nat
     ∧ length (List.filter (fun p => negb (isWhitePiece p)) (pieces b'))
       = 16%nat)
  ∧ (∀ placement, " "%char ∉ Js.chars placement →
       ∃ b', fromFen emptyBoard (placement ++ " " ++ "w" ++ " KQkq - 0 1")
             = Normal b'
         ∧ (whiteToMove b' = true ↔ "w"%string = "w"%string)).
Proof.
  apply (fromFen_start_position emptyBoard "w" " KQkq - 0 1").
  - apply (bool_decide_unpack _). vm_compute. reflexivity.
  - right. eexists. reflexivity.
Defined.

(* ------------------------------------------------------------------ *)
(** ** The direction of a move                                          *)
(* ------------------------------------------------------------------ *)

(** C6. The direction of a four-character move is
    [round(atan2(destRank - originRank, destFile - originFile) * 180 / π)],
    the files and ranks being those of the two squares of the move (letter
    minus a, digit minus one): board coordinates, with no board and so no
    orientation flag in sight.  On every host whose [atan2] is within one
    unit in the last place at (2, 0) and at (2, -1), the move e2e4 has
    direction 90 and the move e2d4 has direction 117. *)
Theorem moveToDirectionDeg_board_coordinates
  (Math_atan2 : Js.number → Js.number → Js.number) :
  within1ulp (Js.Math_PI / 2) (Math_atan2 2 0) →
  within1ulp 2.0344439357957027 (Math_atan2 2 (-1)) →
  (∀ o1 o2 d1 d2 : ascii,
     let originFile := Js.ofNat (nat_of_ascii o1) - 97 in
     let originRank := Js.parseInt (Some o2) - 1 in
     let destFile := Js.ofNat (nat_of_ascii d1) - 97 in
     let destRank := Js.parseInt (Some d2) - 1 in
     moveToDirectionDeg Math_atan2
       (String o1 (String o2 (String d1 (String d2 EmptyString))))
     = Js.Math_round
         (Math_atan2 (destRank - originRank) (destFile - originFile)
          * 180 / Js.Math_PI))
  ∧ moveToDirectionDeg Math_atan2 "e2e4" = 90
  ∧ moveToDirectionDeg Math_atan2 "e2d4" = 117.
Proof.
  intros H90 H117. split; [|split].
  - intros o1 o2 d1 d2. reflexivity.
  - change (moveToDirectionDeg Math_atan2 "e2e4")
      with (Js.Math_round (Math_atan2 2 0 * 180 / Js.Math_PI)).
    destruct H90 as [->|[->| ->]]; vm_compute; reflexivity.
  - change (moveToDirectionDeg Math_atan2 "e2d4")
      with (Js.Math_round (Math_atan2 2 (-1) * 180 / Js.Math_PI)).
    destruct H117 as [->|[->| ->]]; vm_compute; reflexivity.
Qed.

Lemma moveToDirectionDeg_board_coordinates_witness :
  (∀ o1 o2 d1 d2 : ascii,
     let originFile := Js.ofNat (nat_of_ascii o1) - 97 in
     let originRank := Js.parseInt (Some o2) - 1 in
     let destFile := Js.ofNat (nat_of_ascii d1) - 97 in
     let destRank := Js.parseInt (Some d2) - 1 in
     moveToDirectionDeg Host.atan2
       (String o1 (String o2 (String d1 (String d2 EmptyString))))
     = Js.Math_round
         (Host.atan2 (destRank - originRank) (destFile - originFile)
          * 180 / Js.Math_PI))
  ∧ moveToDirectionDeg Host.atan2 "e2e4" = 90
  ∧ moveToDirectionDeg Host.atan2 "e2d4" = 117.
Proof.
  apply (moveToDirectionDeg_board_coordinates Host.atan2).
  - left. vm_compute. reflexivity.
  - left. vm_compute. reflexivity.
Defined.

(* ------------------------------------------------------------------ *)
(** ** The arrows of a redraw                                           *)
(* ------------------------------------------------------------------ *)

Section ArrowShapes.

Variables Math_sin Math_cos : Js.number → Js.number.

Lemma arrowShape_displaced (b : Board) (arrow : ArrowLocation) :
  is_Some (move arrow) →
  ∃ ar, arrowShape Math_sin Math_cos b arrow = Normal ar
        ∧ displaced Math_sin Math_cos b arrow ar.
Proof.
  intros [m Hm]. unfold arrowShape, displaced. rewrite Hm.
  cbn -[squareToFileRank Js.slice].
  destruct (squareToFileRank (Js.slice m 0 2)) as [file1 rank1] eqn:E1.
  destruct (squareToFileRank (Js.slice m 2 4)) as [file2 rank2] eqn:E2.
  eexists. split; [reflexivity|]. exists m. split; [done|].
  rewrite E1, E2. cbn. done.
Qed.

Lemma renderArrowsFrom_shapes (b : Board) (todo : list ArrowLocation)
  (parent : list SvgElement) (flag : bool) :
  Forall (fun a => is_Some (move a)) todo →
  ∃ shapes,
    renderArrowsFrom Math_sin Math_cos b todo parent flag
    = Normal (parent ++ map SvgArrow shapes)
    ∧ Forall2 (fun a ar => shapeOf Math_sin Math_cos b a ar
                           ∧ displaced Math_sin Math_cos b a ar)
              (List.filter (inBucket flag) todo) shapes.
Proof.
  intros Hall. revert parent.
  induction Hall as [|arrow todo Harrow _ IH]; intros parent; cbn.
  - exists []. by rewrite app_nil_r.
  - unfold inBucket at 1.
    destruct (Bool.eqb (renderAfterPieces arrow) flag); cbn.
    + destruct (arrowShape_displaced b arrow Harrow) as (ar & Hshape & Har).
      rewrite Hshape. cbn.
      destruct (IH (parent ++ [SvgArrow ar])) as (shapes & -> & Hshapes).
      exists (ar :: shapes). rewrite <- app_assoc. cbn. split; [done|].
      by constructor.
    + apply IH.
Qed.

End ArrowShapes.

(** C7. Every arrow of the bucket being drawn gives one shape, in the
    order of the list; with offset index [i], lane total [N] and offset
    direction [d] its displacement is [t = ((i+1)/(N+1) - 0.5) * S] for
    the spread [S = BEAM_SPREAD], [dx = sin(d π/180) t] and
    [dy = cos(d π/180) t], and the same [(dx, dy)] is added at the origin
    and at the destination end. *)
Theorem renderArrows_lateral_displacement
  (Math_sin Math_cos : Js.number → Js.number)
  (b : Board) (parent : list SvgElement) (renderAfterPieces' : bool) :
  Forall (fun a => is_Some (move a)) (arrows b) →
  ∃ shapes,
    renderArrows Math_sin Math_cos b parent renderAfterPieces'
    = Normal (parent ++ map SvgArrow shapes)
    ∧ Forall2 (displaced Math_sin Math_cos b)
              (List.filter (inBucket renderAfterPieces') (arrows b)) shapes.
Proof.
  intros Hmoves. unfold renderArrows.
  destruct (renderArrowsFrom_shapes Math_sin Math_cos b (arrows b) parent
              renderAfterPieces' Hmoves) as (shapes & Hrun & Hshapes).
  exists shapes. split; [exact Hrun|].
  eapply Forall2_impl; [exact Hshapes|]. by intros a ar [_ Hd].
Qed.

Lemma sampleBoard_moves :
  Forall (fun a => is_Some (move a)) (arrows sampleBoard).
Proof. repeat constructor; by eexists. Defined.

Lemma renderArrows_lateral_displacement_witness :
  ∃ shapes,
    renderArrows Host.sin Host.cos sampleBoard [] false
    = Normal ([] ++ map SvgArrow shapes)
    ∧ Forall2 (displaced Host.sin Host.cos sampleBoard)
              (List.filter (inBucket false) (arrows sampleBoard)) shapes.
Proof.
  apply (renderArrows_lateral_displacement Host.sin Host.cos sampleBoard
           [] false).
  exact sampleBoard_moves.
Defined.

(* ------------------------------------------------------------------ *)
(** ** The order of a redraw                                            *)
(* ------------------------------------------------------------------ *)

Lemma foldl_append {A B : Type} (f : A → B) (l : list A) (parent : list B) :
  foldl (fun parent x => parent ++ [f x]) parent l = parent ++ map f l.
Proof.
  revert parent. induction l as [|x l IH]; intros parent; cbn.
  - by rewrite app_nil_r.
  - by rewrite IH, <- app_assoc.
Qed.

Lemma foldl_append_if {A B : Type} (keep : A → bool) (f : A → B)
  (l : list A) (parent : list B) :
  foldl (fun parent x => if negb (keep x) then parent else parent ++ [f x])
        parent l
  = parent ++ map f (List.filter keep l).
Proof.
  revert parent. induction l as [|x l IH]; intros parent; cbn.
  - by rewrite app_nil_r.
  - destruct (keep x); cbn; rewrite IH; [by rewrite <- app_assoc|done].
Qed.

Lemma foldl_append_nested {A B C : Type} (f : A → B → C)
  (rows : list A) (cols : list B) (parent : list C) :
  foldl (fun parent r => foldl (fun parent c => parent ++ [f r c]) parent cols)
        parent rows
  = parent ++ flat_map (fun r => map (f r) cols) rows.
Proof.
  revert parent. induction rows as [|r rows IH]; intros parent; cbn.
  - by rewrite app_nil_r.
  - by rewrite IH, foldl_append, <- app_assoc.
Qed.

Lemma renderBoard_squares (b : Board) (parent : list SvgElement) :
  renderBoard b parent = parent ++ allSquares b.
Proof. apply (foldl_append_nested (boardSquare b)). Qed.

Lemma renderOutlinesFrom_objects (b : Board) (todo : list OutlineEntry)
  (parent : list SvgElement) :
  Forall (fun entry => isOutlineName entry = false) todo →
  renderOutlinesFrom b todo parent
  = Normal (parent ++ map (outlineRect b) (objectsOf todo)).
Proof.
  intros Hall. revert parent.
  induction Hall as [|entry todo Hentry _ IH]; intros parent.
  - cbn. by rewrite app_nil_r.
  - destruct entry as [outline|name]; [|discriminate Hentry].
    cbn [renderOutlinesFrom outlineElement mbind completion_bind mret
         completion_ret].
    rewrite IH, <- app_assoc. reflexivity.
Qed.

Lemma renderOutlinesFrom_throws (b : Board) (todo : list OutlineEntry)
  (parent : list SvgElement) :
  Exists (fun entry => isOutlineName entry = true) todo →
  renderOutlinesFrom b todo parent = Throw TypeError.
Proof.
  intros Hex. revert parent.
  induction todo as [|entry todo IH]; intros parent; [by inversion Hex|].
  destruct entry as [outline|name]; [|reflexivity].
  cbn [renderOutlinesFrom outlineElement mbind completion_bind mret
       completion_ret].
  apply IH. apply Exists_cons in Hex as [H|H]; [discriminate H|done].
Qed.

Lemma names_all_or_some (l : list OutlineEntry) :
  Forall (fun entry => isOutlineName entry = false) l
  ∨ Exists (fun entry => isOutlineName entry = true) l.
Proof.
  induction l as [|entry l [IH|IH]]; [left; constructor| |].
  - destruct entry as [outline|name].
    + left. by constructor.
    + right. by left.
  - right. by right.
Qed.

Lemma renderPieces_side (b : Board) (parent : list SvgElement)
  (sideToMove : bool) :
  renderPieces b parent sideToMove
  = parent ++ map (pieceUse b)
      (List.filter (fun p => if sideToMove then ofSideToMove b p
                             else negb (ofSideToMove b p))
                   (pieces b)).
Proof.
  unfold renderPieces.
  rewrite (foldl_append_if
             (fun p => Bool.eqb (isWhitePiece p)
                                (Bool.eqb (whiteToMove b) sideToMove))).
  do 2 f_equal. apply List.filter_ext. intros p. unfold ofSideToMove.
  by destruct (isWhitePiece p), (whiteToMove b), sideToMove.
Qed.

Lemma inBucket_false (a : ArrowLocation) :
  inBucket false a = negb (inBucket true a).
Proof. unfold inBucket. by destruct (renderAfterPieces a). Qed.

Lemma renderArrowsFrom_throws (Math_sin Math_cos : Js.number → Js.number)
  (b : Board) (todo : list ArrowLocation) (parent : list SvgElement)
  (flag : bool) :
  Exists (fun a => inBucket flag a = true ∧ move a = None) todo →
  renderArrowsFrom Math_sin Math_cos b todo parent flag = Throw TypeError.
Proof.
  intros Hex. revert parent.
  induction todo as [|a todo IH]; intros parent; [by inversion Hex|].
  cbn [renderArrowsFrom]. fold (inBucket flag a).
  destruct (inBucket flag a) eqn:Hbucket; cbn [negb].
  - destruct (move a) as [m|] eqn:Hmove.
    + destruct (arrowShape_displaced Math_sin Math_cos b a)
        as (ar & -> & _); [by rewrite Hmove|].
      cbn [mbind completion_bind]. apply IH.
      apply Exists_cons in Hex as [[_ Hnone]|Hex]; [congruence|done].
    + unfold arrowShape. by rewrite Hmove.
  - apply IH. apply Exists_cons in Hex as [[Hin _]|Hex]; [congruence|done].
Qed.

Lemma moves_all_or_missing (l : list ArrowLocation) :
  Forall (fun a => is_Some (move a)) l ∨ Exists (fun a => move a = None) l.
Proof.
  induction l as [|a l [IH|IH]]; [left; constructor| |].
  - destruct (move a) eqn:Hm.
    + left. constructor; [by rewrite Hm|done].
    + right. by left.
  - right. by right.
Qed.

(** The children of the svg element of a redraw, phase by phase. *)
Lemma render_phases (Math_sin Math_cos : Js.number → Js.number) (b : Board) :
  Forall (fun entry => isOutlineName entry = false) (outlinedSquares b) →
  Forall (fun a => is_Some (move a)) (arrows b) →
  ∃ svg beneath above,
    render Math_sin Math_cos b = Normal svg
    ∧ children svg
      = allSquares b
        ++ map (outlineRect b) (outlineObjects b)
        ++ map (pieceUse b)
               (List.filter (fun p => negb (ofSideToMove b p)) (pieces b))
        ++ map SvgArrow beneath
        ++ map (pieceUse b) (List.filter (ofSideToMove b) (pieces b))
        ++ map SvgArrow above
    ∧ Forall2 (shapeOf Math_sin Math_cos b)
              (List.filter (inBucket false) (arrows b)) beneath
    ∧ Forall2 (shapeOf Math_sin Math_cos b)
              (List.filter (inBucket true) (arrows b)) above.
Proof.
  intros Hobjects Hmoves. unfold render, renderArrows, renderOutlines.
  rewrite renderBoard_squares, (renderOutlinesFrom_objects _ _ _ Hobjects).
  cbn [mbind completion_bind]. rewrite renderPieces_side.
  match goal with
  | |- context [renderArrowsFrom _ _ b _ ?parent false] =>
      destruct (renderArrowsFrom_shapes Math_sin Math_cos b (arrows b) parent
                  false Hmoves) as (beneath & -> & Hbeneath)
  end.
  cbn [mbind completion_bind]. rewrite renderPieces_side.
  match goal with
  | |- context [renderArrowsFrom _ _ b _ ?parent true] =>
      destruct (renderArrowsFrom_shapes Math_sin Math_cos b (arrows b) parent
                  true Hmoves) as (above & -> & Habove)
  end.
  eexists _, beneath, above. split; [reflexivity|]. cbn [children].
  split; [rewrite <- !app_assoc; reflexivity|].
  split; (eapply Forall2_impl; [eassumption|]); by intros a ar [Hs _].
Qed.

(** The two ways a redraw fails. *)
Lemma render_throws (Math_sin Math_cos : Js.number → Js.number) (b : Board) :
  Exists (fun entry => isOutlineName entry = true) (outlinedSquares b)
  ∨ Exists (fun a => move a = None) (arrows b) →
  render Math_sin Math_cos b = Throw TypeError.
Proof.
  intros [Hname|Hex]; unfold render, renderArrows, renderOutlines.
  { by rewrite (renderOutlinesFrom_throws _ _ _ Hname). }
  destruct (renderOutlinesFrom b (outlinedSquares b) _) as [svg0|[]];
    [|done].
  cbn [mbind completion_bind].
  destruct (renderArrowsFrom Math_sin Math_cos b (arrows b) _ false)
    as [svg|[]] eqn:Hfirst; [|done].
  cbn [mbind completion_bind].
  rewrite renderArrowsFrom_throws; [done|].
  apply Exists_exists in Hex as (a & Ha & Hnone).
  apply Exists_exists. exists a. split; [done|]. split; [|done].
  destruct (inBucket true a) eqn:Hbucket; [done|]. exfalso.
  rewrite renderArrowsFrom_throws in Hfirst; [done|].
  apply Exists_exists. exists a. split; [done|].
  by rewrite inBucket_false, Hbucket.
Qed.

Lemma render_completes_drawable (Math_sin Math_cos : Js.number → Js.number)
  (b : Board) (svg : Svg) :
  render Math_sin Math_cos b = Normal svg → drawable b.
Proof.
  intros Hrun. split.
  - destruct (names_all_or_some (outlinedSquares b)) as [H|H]; [done|].
    rewrite render_throws in Hrun by (by left). discriminate Hrun.
  - destruct (moves_all_or_missing (arrows b)) as [H|H]; [done|].
    rewrite render_throws in Hrun by (by right). discriminate Hrun.
Qed.

Lemma not_drawable (b : Board) :
  ¬ drawable b
  ↔ Exists (fun entry => isOutlineName entry = true) (outlinedSquares b)
    ∨ Exists (fun a => move a = None) (arrows b).
Proof.
  unfold drawable. split.
  - intros Hnot.
    destruct (names_all_or_some (outlinedSquares b)) as [Hn|Hn];
      [|by left].
    destruct (moves_all_or_missing (arrows b)) as [Hm|Hm]; [|by right].
    by destruct Hnot.
  - intros [Hex|Hex] [Hn Hm].
    + apply Exists_exists in Hex as (entry & Hin & Hname).
      rewrite Forall_forall in Hn. specialize (Hn entry Hin). congruence.
    + apply Exists_exists in Hex as (a & Hin & Hnone).
      rewrite Forall_forall in Hm. specialize (Hm a Hin).
      rewrite Hnone in Hm. by destruct Hm.
Qed.

(** The primitives of the model are those of the specification. *)
Lemma boardSquare_styled (b : Board) (rank file : nat) :
  (rank ≤ 7)%nat → (file ≤ 7)%nat →
  boardSquare b rank file = styledSquare b rank file.
Proof.
  intros Hr Hf. unfold boardSquare, styledSquare, squareStyle, shade.
  unfold fileOnScreen, rowOnScreen. f_equal.
  rewrite (square_name_chars rank file Hf Hr). fold (squareName rank file).
  assert (Hshade : ("square" ++ if ((rank + file) mod 2 =? 1)%nat
                                then " light" else " dark")%string
                   = (if Nat.odd (rank + file) then "square light"
                      else "square dark")%string).
  { rewrite shade_class. by destruct (Nat.odd (rank + file)). }
  rewrite Hshade.
  destruct (decide (squareName rank file ∈ highlightedSquares b)).
  - by rewrite bool_decide_eq_true_2.
  - rewrite bool_decide_eq_false_2 by done. by rewrite append_empty_r.
Qed.

Lemma allSquares_styled (b : Board) : allSquares b = styledSquares b.
Proof.
  unfold allSquares, styledSquares.
  assert (Hrows : ∀ rank, In rank (seq 0 8) →
            map (boardSquare b rank) (seq 0 8)
            = map (styledSquare b rank) (seq 0 8)).
  { intros rank Hrank. apply in_seq in Hrank.
    apply map_ext_in. intros file Hfile. apply in_seq in Hfile.
    apply boardSquare_styled; lia. }
  rewrite !flat_map_concat_map. f_equal. by apply map_ext_in.
Qed.

Lemma isWhitePiece_symbol (piece : PieceLocation) :
  isWhitePiece piece = negb (isBlackSymbol (pieceSymbol piece)).
Proof.
  unfold isWhitePiece.
  destruct (pieceSymbol piece) as [[] [] [] [] [] [] [] []];
    vm_compute; reflexivity.
Qed.

Lemma ofSideToMove_toMove (b : Board) (piece : PieceLocation) :
  ofSideToMove b piece = toMove b piece.
Proof.
  unfold ofSideToMove, toMove. rewrite isWhitePiece_symbol.
  by destruct (whiteToMove b), (isBlackSymbol (pieceSymbol piece)).
Qed.

Lemma pieceUse_glyph (b : Board) (piece : PieceLocation) :
  pieceUse b piece = glyph b piece.
Proof.
  unfold pieceUse, glyph, toMove, fileOnScreen, rowOnScreen.
  rewrite isWhitePiece_symbol. by destruct (flipped b).
Qed.

Lemma outlineRect_box (b : Board) (outline : Outline) :
  outlineRect b outline = outlineBox b outline.
Proof. reflexivity. Qed.

Lemma shapeOf_displaced (Math_sin Math_cos : Js.number → Js.number)
  (b : Board) (arrow : ArrowLocation) (ar : Arrow) :
  shapeOf Math_sin Math_cos b arrow ar →
  displaced Math_sin Math_cos b arrow ar.
Proof.
  unfold shapeOf. intros Hshape.
  destruct (move arrow) as [m|] eqn:Hm.
  - destruct (arrowShape_displaced Math_sin Math_cos b arrow)
      as (ar' & Hshape' & Hd); [by rewrite Hm|]. congruence.
  - unfold arrowShape in Hshape. rewrite Hm in Hshape. discriminate Hshape.
Qed.

(** The children of a redraw in the words of the specification. *)
Lemma render_primitives (Math_sin Math_cos : Js.number → Js.number)
  (b : Board) :
  drawable b →
  ∃ svg beneath above,
    render Math_sin Math_cos b = Normal svg
    ∧ children svg
      = styledSquares b
        ++ map (outlineBox b) (outlineObjects b)
        ++ map (glyph b)
               (List.filter (fun p => negb (toMove b p)) (pieces b))
        ++ map SvgArrow beneath
        ++ map (glyph b) (List.filter (toMove b) (pieces b))
        ++ map SvgArrow above
    ∧ Forall2 (fun a ar => shapeOf Math_sin Math_cos b a ar
                           ∧ displaced Math_sin Math_cos b a ar)
              (List.filter (inBucket false) (arrows b)) beneath
    ∧ Forall2 (fun a ar => shapeOf Math_sin Math_cos b a ar
                           ∧ displaced Math_sin Math_cos b a ar)
              (List.filter (inBucket true) (arrows b)) above.
Proof.
  intros [Hobjects Hmoves].
  destruct (render_phases Math_sin Math_cos b Hobjects Hmoves)
    as (svg & beneath & above & Hrun & Hchildren & Hbeneath & Habove).
  exists svg, beneath, above. split; [exact Hrun|]. split.
  - rewrite Hchildren, allSquares_styled.
    rewrite !(map_ext _ _ (pieceUse_glyph b)).
    rewrite (map_ext _ _ (outlineRect_box b)).
    rewrite (List.filter_ext _ _ (ofSideToMove_toMove b)).
    rewrite (List.filter_ext (fun p => negb (ofSideToMove b p))
                             (fun p => negb (toMove b p)))
      by (intros p; by rewrite ofSideToMove_toMove).
    reflexivity.
  - split; (eapply Forall2_impl; [eassumption|]);
      intros a ar Hs; (split; [done|by apply shapeOf_displaced]).
Qed.

(** C8. A redraw completes exactly when no entry of the set of outlines is
    the name of a square and every arrow carries a move, and the svg
    element of every redraw that completes holds, in this order: (1) the
    64 squares, rank by rank and file by file, each light or dark by the
    parity of rank plus file and marked when its name is highlighted; (2)
    the outlines; (3) the pieces of the side not to move, which are the
    lower-case pieces when White is to move and the others when Black is;
    (4) the arrows whose [renderAfterPieces] is false; (5) the pieces of
    the side to move; (6) the arrows whose [renderAfterPieces] is true. *)
Theorem render_fixed_order (Math_sin Math_cos : Js.number → Js.number)
  (b : Board) :
  ((∃ svg, render Math_sin Math_cos b = Normal svg) ↔ drawable b)
  ∧ ∀ svg, render Math_sin Math_cos b = Normal svg →
      ∃ beneath above,
        children svg
        = styledSquares b
          ++ map (outlineBox b) (outlineObjects b)
          ++ map (glyph b)
                 (List.filter (fun p => negb (toMove b p)) (pieces b))
          ++ map SvgArrow beneath
          ++ map (glyph b) (List.filter (toMove b) (pieces b))
          ++ map SvgArrow above
        ∧ length (styledSquares b) = 64%nat
        ∧ Forall2 (fun a ar => shapeOf Math_sin Math_cos b a ar
                               ∧ displaced Math_sin Math_cos b a ar)
                  (List.filter (inBucket false) (arrows b)) beneath
        ∧ Forall2 (fun a ar => shapeOf Math_sin Math_cos b a ar
                               ∧ displaced Math_sin Math_cos b a ar)
                  (List.filter (inBucket true) (arrows b)) above.
Proof.
  split; [split|].
  - intros [svg Hrun]. by eapply render_completes_drawable.
  - intros Hdrawable.
    destruct (render_primitives Math_sin Math_cos b Hdrawable)
      as (svg & _ & _ & Hrun & _).
    by exists svg.
  - intros svg Hrun.
    pose proof (render_completes_drawable _ _ _ _ Hrun) as Hdrawable.
    destruct (render_primitives Math_sin Math_cos b Hdrawable)
      as (svg' & beneath & above & Hrun' & Hchildren & Hbeneath & Habove).
    rewrite Hrun in Hrun'. injection Hrun' as <-.
    exists beneath, above. split; [exact Hchildren|].
    split; [reflexivity|]. by split.
Qed.

Lemma outlinedBoard_drawable : drawable outlinedBoard.
Proof.
  split.
  - repeat constructor.
  - repeat (apply Forall_cons_2; [by eexists|]). apply Forall_nil_2.
Defined.

Lemma render_fixed_order_witness :
  ∃ svg beneath above,
    render Host.sin Host.cos outlinedBoard = Normal svg
    ∧ children svg
      = styledSquares outlinedBoard
        ++ map (outlineBox outlinedBoard) (outlineObjects outlinedBoard)
        ++ map (glyph outlinedBoard)
               (List.filter (fun p => negb (toMove outlinedBoard p))
                            (pieces outlinedBoard))
        ++ map SvgArrow beneath
        ++ map (glyph outlinedBoard)
               (List.filter (toMove outlinedBoard) (pieces outlinedBoard))
        ++ map SvgArrow above
    ∧ length (styledSquares outlinedBoard) = 64%nat
    ∧ Forall2 (fun a ar => shapeOf Host.sin Host.cos outlinedBoard a ar
                           ∧ displaced Host.sin Host.cos outlinedBoard a ar)
              (List.filter (inBucket false) (arrows outlinedBoard)) beneath
    ∧ Forall2 (fun a ar => shapeOf Host.sin Host.cos outlinedBoard a ar
                           ∧ displaced Host.sin Host.cos outlinedBoard a ar)
              (List.filter (inBucket true) (arrows outlinedBoard)) above.
Proof.
  destruct (render_fixed_order Host.sin Host.cos outlinedBoard)
    as [Hcompletes Horder].
  destruct (proj2 Hcompletes outlinedBoard_drawable) as [svg Hrun].
  destruct (Horder svg Hrun) as (beneath & above & Hchildren).
  exists svg, beneath, above. split; [exact Hrun|exact Hchildren].
Defined.

(* ------------------------------------------------------------------ *)
(** ** The vertical transform                                           *)
(* ------------------------------------------------------------------ *)

Lemma mirrored_row (flipped' : bool) (row : nat) (border' : Js.number) :
  (row ≤ 7)%nat →
  topLeftY (negb flipped') (Js.ofNat row) SQUARE_SIZE border'
  = topLeftY flipped' (Js.ofNat (7 - row)) SQUARE_SIZE border'.
Proof.
  intros Hrow. unfold topLeftY. f_equal.
  below8 row; destruct flipped'; vm_compute; reflexivity.
Qed.

(** C4 (as the code has it). For rank and file between 0 and 7 and either
    orientation, the squares of the board (highlighted or not), the
    outlines and both ends of an arrow are placed with the one transform
    [(flipped ? rank : 7 - rank) * SQUARE_SIZE + border] on the rank of
    the square (an outline then moves in by half its inset, an arrow end
    to the centre of the square and by its displacement).  A piece keeps
    the index of its row in the position string, counted from the top, and
    is placed with the mirrored transform
    [(flipped ? 7 - row : row) * SQUARE_SIZE + border]: the pixel row of
    the square of rank [7 - row]. *)
Theorem vertical_transform (Math_sin Math_cos : Js.number → Js.number)
  (b : Board) (rank' file' : nat) :
  (rank' ≤ 7)%nat → (file' ≤ 7)%nat →
  let top := topLeftY (flipped b) (Js.ofNat rank') SQUARE_SIZE (border b) in
  svgY (boardSquare b rank' file') = Some top
  ∧ (∀ outline, square outline = fileRanktoSquare rank' file' →
       svgY (outlineRect b outline) = Some (top + inset outline / 2))
  ∧ (∀ arrow other ar,
       arrowShape Math_sin Math_cos b arrow = Normal ar →
       (move arrow = Some (fileRanktoSquare rank' file' ++ other)%string →
        y1 ar = rowOnScreen (flipped b) (Js.ofNat rank') * SQUARE_SIZE
                + lateralDy Math_cos arrow + SQUARE_SIZE / 2 + border b)
       ∧ (String.length other = 2%nat →
          move arrow = Some (other ++ fileRanktoSquare rank' file')%string →
          y2 ar = rowOnScreen (flipped b) (Js.ofNat rank') * SQUARE_SIZE
                  + lateralDy Math_cos arrow + SQUARE_SIZE / 2 + border b))
  ∧ (∀ piece, rank piece = Js.ofNat rank' →
       svgY (pieceUse b piece)
       = Some (topLeftY (negb (flipped b)) (Js.ofNat rank') SQUARE_SIZE
                        (border b))
       ∧ svgY (pieceUse b piece)
         = Some (topLeftY (flipped b) (Js.ofNat (7 - rank')) SQUARE_SIZE
                          (border b))).
Proof.
  intros Hrank Hfile top.
  destruct (square_name_decoded rank' file' Hfile Hrank) as [Hlen Hdec].
  split; [|split; [|split]].
  - unfold boardSquare, top, topLeftY, rowOnScreen. cbn. reflexivity.
  - intros outline Hsq. unfold outlineRect. rewrite Hsq, Hdec. reflexivity.
  - intros arrow other ar Har. split.
    + intros Hmove.
      destruct (arrowShape_displaced Math_sin Math_cos b arrow) as
        (ar' & Har' & m & Hm & Hd); [by rewrite Hmove|].
      rewrite Har in Har'. injection Har' as <-.
      rewrite Hmove in Hm. injection Hm as <-.
      rewrite <- Hlen, slice_front, Hdec in Hd.
      destruct (squareToFileRank _) as [file2 rank2] in Hd.
      by destruct Hd as (_ & -> & _).
    + intros Hother Hmove.
      destruct (arrowShape_displaced Math_sin Math_cos b arrow) as
        (ar' & Har' & m & Hm & Hd); [by rewrite Hmove|].
      rewrite Har in Har'. injection Har' as <-.
      rewrite Hmove in Hm. injection Hm as <-.
      pose proof (slice_back other (fileRanktoSquare rank' file')) as Hback.
      rewrite Hother, Hlen in Hback. cbn [Nat.add] in Hback.
      rewrite Hback, Hdec in Hd.
      destruct (squareToFileRank _) as [file1 rank1] in Hd.
      by destruct Hd as (_ & _ & _ & ->).
  - intros piece Hpiece.
    rewrite <- (mirrored_row _ _ _ Hrank). split; [|].
    all: unfold pieceUse, topLeftY, rowOnScreen; cbn; rewrite Hpiece;
      by destruct (flipped b).
Qed.

Lemma vertical_transform_witness :
  let b := sampleBoard in
  let top := topLeftY (flipped b) (Js.ofNat 1) SQUARE_SIZE (border b) in
  svgY (boardSquare b 1 4) = Some top
  ∧ (∀ outline, square outline = fileRanktoSquare 1 4 →
       svgY (outlineRect b outline) = Some (top + inset outline / 2))
  ∧ (∀ arrow other ar,
       arrowShape Host.sin Host.cos b arrow = Normal ar →
       (move arrow = Some (fileRanktoSquare 1 4 ++ other)%string →
        y1 ar = rowOnScreen (flipped b) (Js.ofNat 1) * SQUARE_SIZE
                + lateralDy Host.cos arrow + SQUARE_SIZE / 2 + border b)
       ∧ (String.length other = 2%nat →
          move arrow = Some (other ++ fileRanktoSquare 1 4)%string →
          y2 ar = rowOnScreen (flipped b) (Js.ofNat 1) * SQUARE_SIZE
                  + lateralDy Host.cos arrow + SQUARE_SIZE / 2 + border b))
  ∧ (∀ piece, rank piece = Js.ofNat 1 →
       svgY (pieceUse b piece)
       = Some (topLeftY (negb (flipped b)) (Js.ofNat 1) SQUARE_SIZE
                        (border b))
       ∧ svgY (pieceUse b piece)
         = Some (topLeftY (flipped b) (Js.ofNat (7 - 1)) SQUARE_SIZE
                          (border b))).
Proof.
  apply (vertical_transform Host.sin Host.cos sampleBoard 1 4); lia.
Defined.

(** C4, refuted as stated: on the freshly built, unflipped board the rook
    of the first row of the position string (row index 0, file 0) is drawn
    at y = 0, where the claimed [(flipped ? row : 7 - row) * 45 + border]
    is 315. *)
Lemma piece_row_not_the_claimed_transform :
  ∃ b piece,
    newBoard = Normal b ∧ piece ∈ pieces b
    ∧ flipped b = false ∧ rank piece = 0 ∧ file piece = 0
    ∧ svgY (pieceUse b piece) = Some 0
    ∧ topLeftY (flipped b) (rank piece) SQUARE_SIZE (border b) = 315
    ∧ svgY (pieceUse b piece)
      ≠ Some (topLeftY (flipped b) (rank piece) SQUARE_SIZE (border b)).
Proof.
  unfold newBoard. rewrite fromFen_unfold. eexists.
  exists {| pieceSymbol := "r"; rank := 0; file := 0 |}.
  split; [reflexivity|]. split; [vm_compute; by left|].
  repeat split; try (vm_compute; reflexivity).
  intros H. apply (f_equal (fun y => Prim2SF (default nan y))) in H.
  vm_compute in H. discriminate H.
Qed.

(* ------------------------------------------------------------------ *)
(** ** The width of a thinking arrow                                    *)
(* ------------------------------------------------------------------ *)

Lemma div_positive_by_zero (x : Js.number) :
  (0 <? x) = true → x / 0 = infinity.
Proof.
  intros Hpos. rewrite ltb_spec in Hpos.
  rewrite <- (SF2Prim_Prim2SF (x / 0)), div_spec.
  change (Prim2SF 0) with (S754_zero false) in *.
  destruct (Prim2SF x) as [s|s| |s m e]; cbn in Hpos; try discriminate;
    destruct s; try discriminate; reflexivity.
Qed.

Lemma lookup_first {A : Type} (l : list A) (i : nat) (x : A) :
  l !! i = Some x → ∃ y, l !! 0%nat = Some y.
Proof. destruct l as [|y l]; [by rewrite lookup_nil|by exists y]. Qed.

(** C3 (as the code has it). Whenever the variation and the counts of an
    arrow are there, [thinkingArrow] completes, whatever the node counts:
    nothing guards a zero count of the best variation.  The width is
    [pow(variation.nodes / variations[0].nodes, 1/1.7) * 15] for every
    update (then [+ 1] at ply 0, [/ 2.2 + 1] at ply 1, and the constant 3
    from ply 2 on); when the best variation has 0 nodes the ratio given to
    [pow] is the IEEE quotient, +Infinity for a positive count and NaN for
    0/0, not 0. *)
Theorem thinkingArrow_width_unguarded
  (Math_atan2 Math_pow : Js.number → Js.number → Js.number)
  (update : WsEvaluationData) (usVars themVars : gmap nat Counts)
  (arrow : ArrowInfo) (variation : Variation) :
  variations update !! variationIdx arrow = Some variation →
  arrowReady usVars themVars arrow variation →
  ∃ best a,
    variations update !! 0%nat = Some best
    ∧ thinkingArrow Math_atan2 Math_pow update usVars themVars arrow
      = Normal a
    ∧ (let w := Math_pow (nodes variation / nodes best) (1 / 1.7) * 15 in
       match ply arrow with
       | 0%nat => width a = w + 1 ∧ headWidth a = w + 14
       | 1%nat => width a = w / 2.2 + 1 ∧ headWidth a = w / 2 + 8
       | _ => width a = 3 ∧ headWidth a = 10
       end)
    ∧ (nodes best = 0 → (0 <? nodes variation) = true →
       nodes variation / nodes best = infinity)
    ∧ (nodes best = 0 → nodes variation = 0 →
       nodes variation / nodes best = nan).
Proof.
  intros Hvar Hready.
  destruct (lookup_first _ _ _ Hvar) as [best Hbest]. exists best.
  assert (Hdiv : (nodes best = 0 → (0 <? nodes variation) = true →
                  nodes variation / nodes best = infinity)
                 ∧ (nodes best = 0 → nodes variation = 0 →
                    nodes variation / nodes best = nan)).
  { split.
    - intros -> Hpos. by apply div_positive_by_zero.
    - intros -> ->. reflexivity. }
  unfold thinkingArrow, arrowReady in *. rewrite Hvar, Hbest.
  cbn [defined mbind completion_bind].
  destruct (ply arrow) as [|[|n]]; cbn [Nat.eqb].
  - destruct Hready as [[c ->] [m ->]]. cbn [defined mbind completion_bind].
    eexists. split; [done|]. split; [reflexivity|]. split; [|exact Hdiv].
    cbn. done.
  - destruct Hready as [[c ->] [m ->]]. cbn [defined mbind completion_bind].
    eexists. split; [done|]. split; [reflexivity|]. split; [|exact Hdiv].
    cbn. done.
  - destruct Hready as [c ->].
    destruct (split_nonempty " " (pvUci variation)) as (w & ws & ->).
    cbn [defined mbind completion_bind lookup list_lookup].
    eexists. split; [done|]. split; [reflexivity|]. split; [|exact Hdiv].
    cbn. done.
Qed.

Lemma thinkingArrow_width_unguarded_witness :
  ∃ best a,
    variations zeroBestUpdate !! 0%nat = Some best
    ∧ thinkingArrow Host.atan2 Host.pow zeroBestUpdate
        {[ 1%nat := {| current := 0; total := 1 |} ]} ∅ secondLineFirstPly
      = Normal a
    ∧ (let w := Host.pow (5 / nodes best) (1 / 1.7) * 15 in
       match ply secondLineFirstPly with
       | 0%nat => width a = w + 1 ∧ headWidth a = w + 14
       | 1%nat => width a = w / 2.2 + 1 ∧ headWidth a = w / 2 + 8
       | _ => width a = 3 ∧ headWidth a = 10
       end)
    ∧ (nodes best = 0 → (0 <? 5) = true → 5 / nodes best = infinity)
    ∧ (nodes best = 0 → 5 = 0 → 5 / nodes best = nan).
Proof.
  apply (thinkingArrow_width_unguarded Host.atan2 Host.pow zeroBestUpdate
           {[ 1%nat := {| current := 0; total := 1 |} ]} ∅
           secondLineFirstPly {| pvUci := "d2d4 d7d5"; nodes := 5 |}).
  - reflexivity.
  - split; by eexists.
Defined.

(** The same on every host that follows ECMAScript on a base of
    +Infinity: the first-ply arrow of the second variation gets an
    infinite width. *)
Lemma zero_best_nodes_on_every_host
  (Math_atan2 Math_pow : Js.number → Js.number → Js.number) :
  Math_pow infinity (1 / 1.7) = infinity →
  ∃ a,
    thinkingArrow Math_atan2 Math_pow zeroBestUpdate
      {[ 1%nat := {| current := 0; total := 1 |} ]} ∅ secondLineFirstPly
    = Normal a
    ∧ width a = infinity.
Proof.
  intros Hpow. eexists. split; [reflexivity|]. cbn [width].
  change (nodes _ / nodes _) with infinity. rewrite Hpow. reflexivity.
Qed.

(** C3, refuted as stated: with 0 nodes for the best variation and 5 for
    the second, the ratio is +Infinity, and on the reference host the
    first-ply arrow of the second variation is given an infinite width,
    where a ratio treated as 0 would give [0 + 1]. *)
Lemma zero_best_nodes_ratio_is_infinite :
  ∃ usVars themVars a,
    buildArrowOffsets Host.atan2 zeroBestUpdate [secondLineFirstPly]
    = Normal (usVars, themVars)
    ∧ thinkingArrow Host.atan2 Host.pow zeroBestUpdate usVars themVars
        secondLineFirstPly = Normal a
    ∧ 5 / 0 = infinity
    ∧ guardedRatio 5 0 = 0
    ∧ width a = infinity
    ∧ scalingLaw Host.pow (guardedRatio 5 0) 15 + 1 = 1
    ∧ width a ≠ scalingLaw Host.pow (guardedRatio 5 0) 15 + 1.
Proof.
  eexists _, _, _. split; [vm_compute; reflexivity|].
  split; [vm_compute; reflexivity|].
  repeat split; try (vm_compute; reflexivity).
  intros H. apply (f_equal Prim2SF) in H. vm_compute in H. discriminate H.
Qed.

(* ------------------------------------------------------------------ *)
(** ** Lanes and offsets                                                *)
(* ------------------------------------------------------------------ *)

Section Lanes.

Variable Math_atan2 : Js.number → Js.number → Js.number.
Variable update : WsEvaluationData.

Lemma keyed_cons (a : ArrowInfo) (l : list ArrowInfo) :
  keyed Math_atan2 update (a :: l) → keyed Math_atan2 update l.
Proof. intros H b Hb. apply H. by right. Qed.

Lemma laneMembers_skip (key : string) (a : ArrowInfo) (l : list ArrowInfo) :
  isLaned a = false → laneMembers Math_atan2 update key (a :: l) = laneMembers Math_atan2 update key l.
Proof. intros H. unfold laneMembers, inLane. cbn. by rewrite H. Qed.

Lemma laneMembers_cons (key key0 : string) (a : ArrowInfo)
  (l : list ArrowInfo) :
  isLaned a = true → laneKey Math_atan2 update a = Normal key0 →
  laneMembers Math_atan2 update key (a :: l)
  = if decide (key0 = key) then a :: laneMembers Math_atan2 update key l
    else laneMembers Math_atan2 update key l.
Proof.
  intros H Hk. unfold laneMembers, inLane. cbn. rewrite H, Hk. cbn.
  destruct (decide (key0 = key)) as [Heq|Hne].
  - by rewrite bool_decide_eq_true_2.
  - by rewrite bool_decide_eq_false_2.
Qed.

Lemma countOne_lookup (key0 key : string) (d : gmap string Counts) :
  totalOf (countOne key0 d) key
  = (totalOf d key + if decide (key0 = key) then 1 else 0)%nat
  ∧ currentOf (countOne key0 d) key = currentOf d key
  ∧ (is_Some (d !! key) ∨ key0 = key → is_Some (countOne key0 d !! key)).
Proof.
  unfold countOne, totalOf, currentOf.
  destruct (decide (key0 = key)) as [->|Hne].
  - rewrite lookup_alter_eq.
    destruct (decide (is_Some (d !! key))) as [[c Hc]|Hnone].
    + rewrite Hc. cbn. split; [lia|]. split; [done|]. by eexists.
    + rewrite lookup_insert_eq.
      apply eq_None_not_Some in Hnone. rewrite Hnone. cbn.
      split; [done|]. split; [done|]. by eexists.
  - rewrite lookup_alter_ne by done.
    destruct (decide (is_Some (d !! key0))) as [_|_].
    + split; [lia|]. split; [done|]. by intros [?|?].
    + rewrite lookup_insert_ne by done.
      split; [lia|]. split; [done|]. by intros [?|?].
Qed.

Lemma countLanes_totals (l : list ArrowInfo) :
  keyed Math_atan2 update l →
  ∀ d, ∃ d',
    countLanes Math_atan2 update l d = Normal d'
    ∧ ∀ key,
        totalOf d' key = (totalOf d key + length (laneMembers Math_atan2 update key l))%nat
        ∧ currentOf d' key = currentOf d key
        ∧ (is_Some (d !! key) ∨ laneMembers Math_atan2 update key l ≠ []
           → is_Some (d' !! key)).
Proof.
  induction l as [|a l IH]; intros Hkeyed d.
  - exists d. split; [done|]. intros key. cbn.
    split; [lia|]. split; [done|]. by intros [?|?].
  - specialize (IH (keyed_cons _ _ Hkeyed)). cbn [countLanes].
    destruct (isLaned a) eqn:Hlaned.
    + unfold isLaned in Hlaned. apply negb_true_iff in Hlaned.
      rewrite Hlaned.
      destruct (Hkeyed a) as [key0 Hkey0]; [by left| |].
      { unfold isLaned. by rewrite Hlaned. }
      rewrite Hkey0. cbn [mbind completion_bind].
      fold (countOne key0 d).
      destruct (IH (countOne key0 d)) as (d' & -> & Hd').
      exists d'. split; [done|]. intros key.
      destruct (Hd' key) as (Htot & Hcur & Hsome).
      destruct (countOne_lookup key0 key d) as (Htot1 & Hcur1 & Hsome1).
      rewrite (laneMembers_cons key key0); [|unfold isLaned;
        by rewrite Hlaned|done].
      rewrite Htot, Htot1, Hcur, Hcur1.
      destruct (decide (key0 = key)) as [Heq|Hne]; cbn.
      * split; [lia|]. split; [done|]. intros _. apply Hsome. left.
        apply Hsome1. by right.
      * split; [lia|]. split; [done|]. intros [H|H]; apply Hsome.
        -- left. apply Hsome1. by left.
        -- by right.
    + assert (H2 : (2 <=? ply a)%nat = true).
      { unfold isLaned in Hlaned. by apply negb_false_iff in Hlaned. }
      rewrite H2. destruct (IH d) as (d' & -> & Hd').
      exists d'. split; [done|]. intros key.
      rewrite laneMembers_skip by done. apply Hd'.
Qed.

Lemma assigned_assignOne_eq (a : ArrowInfo) (v : Counts)
  (offsets : gmap nat Counts * gmap nat Counts) :
  assigned (assignOne a v offsets) a = Some v.
Proof.
  unfold assigned, assignOne. cbn.
  destruct (ply a =? 0)%nat; by rewrite lookup_insert_eq.
Qed.

Lemma assigned_assignOne_ne (a b : ArrowInfo) (v : Counts)
  (offsets : gmap nat Counts * gmap nat Counts) :
  isLaned a = true → isLaned b = true → a ≠ b →
  assigned (assignOne a v offsets) b = assigned offsets b.
Proof.
  unfold isLaned, assigned, assignOne. cbn.
  destruct a as [ia pa], b as [ib pb]. cbn.
  intros Ha Hb Hne.
  destruct pa as [|[|pa]], pb as [|[|pb]]; cbn in *; try discriminate;
    try done.
  all: rewrite lookup_insert_ne; [done|congruence].
Qed.

Lemma assigned_assignOne_mono (a b : ArrowInfo) (v : Counts)
  (offsets : gmap nat Counts * gmap nat Counts) :
  is_Some (assigned offsets b) →
  is_Some (assigned (assignOne a v offsets) b).
Proof.
  unfold assigned, assignOne. cbn.
  destruct (ply a =? 0)%nat, (ply b =? 0)%nat; try done.
  all: rewrite lookup_insert_is_Some'; by right.
Qed.

(** The second loop completes once the first has seen the same arrows,
    and leaves counts for every laned arrow. *)
Lemma assignOffsets_completes (l : list ArrowInfo) :
  keyed Math_atan2 update l →
  ∀ d us them,
    (∀ key, laneMembers Math_atan2 update key l ≠ [] → is_Some (d !! key)) →
    ∃ offsets,
      assignOffsets Math_atan2 update l d us them = Normal offsets
      ∧ (∀ a, is_Some (assigned (us, them) a) → is_Some (assigned offsets a))
      ∧ (∀ a, a ∈ l → isLaned a = true → is_Some (assigned offsets a)).
Proof.
  induction l as [|a0 l IH]; intros Hkeyed d us them Hd.
  - exists (us, them). split; [done|]. split; [done|].
    intros a Ha. by apply not_elem_of_nil in Ha.
  - specialize (IH (keyed_cons _ _ Hkeyed)). cbn [assignOffsets].
    destruct (isLaned a0) eqn:Hlaned.
    + assert (H2 : (2 <=? ply a0)%nat = false).
      { unfold isLaned in Hlaned. by apply negb_true_iff in Hlaned. }
      rewrite H2.
      destruct (Hkeyed a0) as [key0 Hkey0]; [by left|done|].
      rewrite Hkey0. cbn [mbind completion_bind].
      destruct (Hd key0) as [v Hv].
      { rewrite (laneMembers_cons key0 key0) by done.
        by rewrite decide_True. }
      rewrite Hv. cbn [defined mbind completion_bind].
      destruct (IH (<[key0 := {| current := S (current v);
                                total := total v |}]> d)
                   (assignOne a0 v (us, them)).1
                   (assignOne a0 v (us, them)).2)
        as (offsets & Hrun & Hmono & Hall).
      { intros key Hkey. rewrite lookup_insert_is_Some'. right.
        apply Hd. rewrite (laneMembers_cons key key0) by done.
        by destruct (decide (key0 = key)). }
      exists offsets. split; [exact Hrun|]. split.
      * intros a Ha. apply Hmono.
        rewrite <- surjective_pairing. by apply assigned_assignOne_mono.
      * intros a Ha Hla. apply elem_of_cons in Ha as [->|Ha].
        -- apply Hmono. rewrite <- surjective_pairing.
           rewrite assigned_assignOne_eq. by eexists.
        -- by apply Hall.
    + assert (H2 : (2 <=? ply a0)%nat = true).
      { unfold isLaned in Hlaned. by apply negb_false_iff in Hlaned. }
      rewrite H2.
      destruct (IH d us them) as (offsets & Hrun & Hmono & Hall).
      { intros key Hkey. apply Hd. by rewrite laneMembers_skip. }
      exists offsets. split; [exact Hrun|]. split; [exact Hmono|].
      intros a Ha Hla. apply elem_of_cons in Ha as [->|Ha].
      * congruence.
      * by apply Hall.
Qed.

(** What the second loop leaves for each arrow, when no laned arrow is
    listed twice: the running count of its lane when it was met, and the
    total of the lane. *)
Lemma assignOffsets_values (l : list ArrowInfo) :
  NoDup (List.filter isLaned l) →
  ∀ d us them offsets,
    assignOffsets Math_atan2 update l d us them = Normal offsets →
    (∀ a, isLaned a = true → a ∉ List.filter isLaned l →
          assigned offsets a = assigned (us, them) a)
    ∧ (∀ key j a, laneMembers Math_atan2 update key l !! j = Some a →
         assigned offsets a
         = Some {| current := (currentOf d key + j)%nat;
                   total := totalOf d key |}).
Proof.
  induction l as [|a0 l IH]; intros Hnodup d us them offsets Hrun.
  - cbn in Hrun. injection Hrun as <-. split; [done|].
    intros key j a Hj. unfold laneMembers in Hj. cbn in Hj. by destruct j.
  - cbn [assignOffsets] in Hrun.
    destruct (isLaned a0) eqn:Hlaned.
    + assert (H2 : (2 <=? ply a0)%nat = false).
      { unfold isLaned in Hlaned. by apply negb_true_iff in Hlaned. }
      rewrite H2 in Hrun.
      destruct (laneKey Math_atan2 update a0) as [key0|e] eqn:Hkey0;
        [|discriminate Hrun].
      cbn [mbind completion_bind] in Hrun.
      destruct (d !! key0) as [v|] eqn:Hv; [|discriminate Hrun].
      cbn [defined mbind completion_bind] in Hrun.
      cbn [List.filter] in Hnodup. rewrite Hlaned in Hnodup.
      apply NoDup_cons in Hnodup as [Hfresh Hnodup].
      destruct (IH Hnodup _ _ _ _ Hrun) as [Hframe Hvalues].
      change (if (ply a0 =? 0)%nat then <[variationIdx a0:=v]> us else us,
              if (ply a0 =? 0)%nat then them else <[variationIdx a0:=v]> them)
        with (assignOne a0 v (us, them)) in Hframe.
      split.
      * intros a Hla Ha. cbn [List.filter] in Ha. rewrite Hlaned in Ha.
        apply not_elem_of_cons in Ha as [Hne Ha].
        rewrite (Hframe a Hla Ha).
        by apply assigned_assignOne_ne.
      * intros key j a Hj.
        rewrite (laneMembers_cons key key0) in Hj by done.
        destruct (decide (key0 = key)) as [<-|Hne].
        -- destruct j as [|j]; cbn in Hj.
           ++ injection Hj as <-. rewrite (Hframe a0 Hlaned Hfresh).
              rewrite assigned_assignOne_eq.
              unfold currentOf, totalOf. rewrite Hv. cbn.
              rewrite Nat.add_0_r. by destruct v.
           ++ rewrite (Hvalues key0 j a Hj). unfold currentOf, totalOf.
              rewrite lookup_insert_eq, Hv. cbn. do 2 f_equal. lia.
        -- rewrite (Hvalues key j a Hj). unfold currentOf, totalOf.
           by rewrite lookup_insert_ne.
    + assert (H2 : (2 <=? ply a0)%nat = true).
      { unfold isLaned in Hlaned. by apply negb_false_iff in Hlaned. }
      rewrite H2 in Hrun. cbn [List.filter] in Hnodup.
      rewrite Hlaned in Hnodup.
      destruct (IH Hnodup _ _ _ _ Hrun) as [Hframe Hvalues]. split.
      * intros a Hla Ha. cbn [List.filter] in Ha. rewrite Hlaned in Ha.
        by apply Hframe.
      * intros key j a Hj. rewrite laneMembers_skip in Hj by done.
        by apply Hvalues.
Qed.

Lemma append_inj_length (s1 s2 t1 t2 : string) :
  String.length s1 = String.length s2 →
  (s1 ++ t1)%string = (s2 ++ t2)%string → s1 = s2 ∧ t1 = t2.
Proof.
  revert s2. induction s1 as [|c s1 IH]; intros [|c2 s2] Hlen Happ;
    try discriminate Hlen.
  - by rewrite !append_nil in Happ.
  - rewrite !append_cons in Happ. injection Happ as -> Happ.
    injection Hlen as Hlen. destruct (IH s2 Hlen Happ) as [-> ->]. done.
Qed.

(** The key is the lane of the specification: two arrows whose moves start
    on a square of the same length have the same key exactly when they
    leave the same square in the same printed direction. *)
Lemma laneKey_origin_direction (a1 a2 : ArrowInfo) (v1 v2 : Variation)
  (m1 m2 : string) :
  variations update !! variationIdx a1 = Some v1 →
  Js.split " " (pvUci v1) !! ply a1 = Some m1 →
  variations update !! variationIdx a2 = Some v2 →
  Js.split " " (pvUci v2) !! ply a2 = Some m2 →
  String.length (Js.slice m1 0 2) = String.length (Js.slice m2 0 2) →
  laneKey Math_atan2 update a1 = laneKey Math_atan2 update a2
  ↔ Js.slice m1 0 2 = Js.slice m2 0 2
    ∧ Js.numberToString (moveToDirectionDeg Math_atan2 m1)
      = Js.numberToString (moveToDirectionDeg Math_atan2 m2).
Proof.
  intros Hv1 Hm1 Hv2 Hm2 Hlen. unfold laneKey.
  rewrite Hv1, Hv2. cbn [defined mbind completion_bind].
  rewrite Hm1, Hm2. cbn [defined mbind completion_bind mret completion_ret].
  split.
  - intros [=Hkey]. apply append_inj_length in Hkey as [Hfrom Hdir]; [|done].
    split; [done|]. by injection Hdir.
  - by intros [-> ->].
Qed.

(** The arrows from ply 2 on play no part in either loop. *)
Lemma countLanes_laned (l : list ArrowInfo) (d : gmap string Counts) :
  countLanes Math_atan2 update l d
  = countLanes Math_atan2 update (List.filter isLaned l) d.
Proof.
  revert d. induction l as [|a l IH]; intros d; [done|].
  cbn [countLanes List.filter]. unfold isLaned at 1.
  destruct (2 <=? ply a)%nat eqn:H2; cbn [negb].
  - apply IH.
  - cbn [countLanes]. rewrite H2.
    destruct (laneKey Math_atan2 update a); [|done].
    cbn [mbind completion_bind]. apply IH.
Qed.

Lemma assignOffsets_laned (l : list ArrowInfo) (d : gmap string Counts)
  (us them : gmap nat Counts) :
  assignOffsets Math_atan2 update l d us them
  = assignOffsets Math_atan2 update (List.filter isLaned l) d us them.
Proof.
  revert d us them. induction l as [|a l IH]; intros d us them; [done|].
  cbn [assignOffsets List.filter]. unfold isLaned at 1.
  destruct (2 <=? ply a)%nat eqn:H2; cbn [negb].
  - apply IH.
  - cbn [assignOffsets]. rewrite H2.
    destruct (laneKey Math_atan2 update a); [|done].
    cbn [mbind completion_bind].
    destruct (d !! a0); [|done].
    cbn [defined mbind completion_bind]. apply IH.
Qed.

Lemma buildArrowOffsets_laned (l : list ArrowInfo) :
  buildArrowOffsets Math_atan2 update l
  = buildArrowOffsets Math_atan2 update (List.filter isLaned l).
Proof.
  unfold buildArrowOffsets. rewrite countLanes_laned.
  destruct (countLanes _ _ _ _); [|done].
  cbn [mbind completion_bind]. apply assignOffsets_laned.
Qed.

Lemma buildArrowOffsets_completes (l : list ArrowInfo) :
  keyed Math_atan2 update l →
  ∃ offsets,
    buildArrowOffsets Math_atan2 update l = Normal offsets
    ∧ (∀ a, a ∈ l → isLaned a = true → is_Some (assigned offsets a))
    ∧ (NoDup (List.filter isLaned l) →
       ∀ key j a, laneMembers Math_atan2 update key l !! j = Some a →
         assigned offsets a
         = Some {| current := j; total := length (laneMembers Math_atan2 update key l) |}).
Proof.
  intros Hkeyed. unfold buildArrowOffsets.
  destruct (countLanes_totals l Hkeyed ∅) as (d & -> & Hd).
  cbn [mbind completion_bind].
  destruct (assignOffsets_completes l Hkeyed d ∅ ∅)
    as (offsets & Hrun & _ & Hall).
  { intros key Hkey. apply Hd. by right. }
  exists offsets. split; [exact Hrun|]. split; [exact Hall|].
  intros Hnodup key j a Hj.
  destruct (assignOffsets_values l Hnodup _ _ _ _ Hrun) as [_ Hvalues].
  rewrite (Hvalues key j a Hj).
  destruct (Hd key) as (Htot & Hcur & _). rewrite Htot, Hcur.
  unfold totalOf, currentOf. by rewrite lookup_empty.
Qed.

End Lanes.

Lemma keyedb_keyed (Math_atan2 : Js.number → Js.number → Js.number)
  (update : WsEvaluationData) (arrowInfos : list ArrowInfo) :
  keyedb Math_atan2 update arrowInfos = true →
  keyed Math_atan2 update arrowInfos.
Proof.
  unfold keyedb, keyed. rewrite forallb_forall.
  intros Hall a Ha Hla. apply list_elem_of_In in Ha.
  specialize (Hall a Ha). rewrite Hla in Hall. cbn in Hall.
  destruct (laneKey Math_atan2 update a) as [key|]; [by exists key|done].
Defined.

(** The key of the code and the lane of the specification. *)
Lemma colonFree_app (s t : string) :
  colonFree s → colonFree t → colonFree (s ++ t)%string.
Proof.
  induction s as [|c s IH]; intros Hs Ht.
  - by rewrite append_nil.
  - rewrite append_cons. destruct Hs as [Hc Hs]. split; [done|by apply IH].
Qed.

Lemma colon_not_free (s t : string) : ¬ colonFree (s ++ ":" ++ t)%string.
Proof.
  induction s as [|c s IH].
  - rewrite append_nil, append_cons. by intros [Hc _].
  - rewrite append_cons. intros [_ Hs]. by apply IH.
Qed.

Lemma lane_key_inj (o1 n1 o2 n2 : string) :
  colonFree n1 → colonFree n2 →
  (o1 ++ ":" ++ n1)%string = (o2 ++ ":" ++ n2)%string →
  o1 = o2 ∧ n1 = n2.
Proof.
  intros Hn1 Hn2. revert o2.
  induction o1 as [|c o1 IH]; intros [|c2 o2] Hkey.
  - rewrite !append_nil, !append_cons, !append_nil in Hkey.
    by injection Hkey as ->.
  - rewrite append_nil, !append_cons, !append_nil in Hkey.
    injection Hkey as <- ->. by destruct (colon_not_free o2 n2).
  - rewrite append_nil, !append_cons, !append_nil in Hkey.
    injection Hkey as -> <-. by destruct (colon_not_free o1 n1).
  - rewrite !(append_cons _ _ (":" ++ _)) in Hkey.
    injection Hkey as -> Hkey. by destruct (IH o2 Hkey) as [-> ->].
Qed.

Lemma pretty_N_go_colonFree (x : N) (s : string) :
  colonFree s → colonFree (pretty_N_go x s).
Proof.
  revert s. induction (N.lt_wf_0 x) as [x _ IH]; intros s Hs.
  assert (x = 0 ∨ 0 < x)%N as [->|Hpos] by lia.
  - by rewrite pretty_N_go_0.
  - rewrite pretty_N_go_step by done. apply IH.
    + by apply N.div_lt.
    + split; [|done]. unfold pretty_N_char. by repeat case_match.
Qed.

Lemma pretty_positive_colonFree (p : positive) :
  colonFree (pretty p).
Proof.
  unfold pretty, pretty_positive, pretty, pretty_N.
  destruct (decide (N.pos p = 0%N)); [done|].
  by apply pretty_N_go_colonFree.
Qed.

Lemma pretty_Z_colonFree (z : Z) : colonFree (pretty z).
Proof.
  destruct z as [|p|p]; unfold pretty, pretty_Z.
  - by split.
  - apply pretty_positive_colonFree.
  - apply (colonFree_app "-"); [by split|apply pretty_positive_colonFree].
Qed.

Lemma numberToString_colonFree (x : Js.number) :
  colonFree (Js.numberToString x).
Proof.
  unfold Js.numberToString.
  destruct (Prim2SF x) as [[]|[]| |s m e]; try (cbn; by repeat split).
  destruct (Js.toZ x) as [z|]; [apply pretty_Z_colonFree|].
  apply colonFree_app; [by destruct s; cbn; repeat split|].
  apply colonFree_app; [apply (pretty_Z_colonFree (Zpos m))|].
  apply (colonFree_app "p"); [by split|apply pretty_Z_colonFree].
Qed.

Lemma laneKey_laneOf (Math_atan2 : Js.number → Js.number → Js.number)
  (update : WsEvaluationData) (arrow : ArrowInfo) :
  laneKey Math_atan2 update arrow
  = match moveOf update arrow with
    | Some move' =>
        Normal ((laneOf Math_atan2 move').1 ++ ":"
                ++ (laneOf Math_atan2 move').2)%string
    | None => Throw TypeError
    end.
Proof.
  unfold laneKey, moveOf.
  destruct (variations update !! variationIdx arrow) as [variation|];
    [|reflexivity].
  cbn [defined mbind completion_bind option_bind].
  destruct (Js.split " " (pvUci variation) !! ply arrow) as [move'|];
    reflexivity.
Qed.

Lemma named_keyed (Math_atan2 : Js.number → Js.number → Js.number)
  (update : WsEvaluationData) (arrowInfos : list ArrowInfo) :
  named update arrowInfos → keyed Math_atan2 update arrowInfos.
Proof.
  unfold named. rewrite Forall_forall. intros Hnamed a Ha Hlaned.
  destruct (Hnamed a Ha Hlaned) as [move' Hmove].
  rewrite laneKey_laneOf, Hmove. by eexists.
Qed.

(** The arrows of a lane of the specification are those of one key. *)
Lemma laneArrows_laneMembers
  (Math_atan2 : Js.number → Js.number → Js.number)
  (update : WsEvaluationData) (arrowInfos : list ArrowInfo)
  (origin bucket : string) :
  colonFree bucket →
  laneArrows Math_atan2 update (origin, bucket) arrowInfos
  = laneMembers Math_atan2 update (origin ++ ":" ++ bucket)%string arrowInfos.
Proof.
  intros Hbucket. unfold laneArrows, laneMembers.
  apply List.filter_ext. intros a. unfold inLaneOf, inLane.
  destruct (isLaned a); [|reflexivity]. cbn [andb].
  rewrite laneKey_laneOf.
  destruct (moveOf update a) as [move'|]; [|reflexivity].
  cbn [fmap option_fmap option_map].
  apply bool_decide_ext. split.
  - intros Hlane. apply (inj Some) in Hlane. by rewrite Hlane.
  - intros Hkey. f_equal.
    apply lane_key_inj in Hkey as [Horigin Hprinted];
      [|apply numberToString_colonFree|done].
    destruct (laneOf Math_atan2 move') as [o n]. cbn in *. congruence.
Qed.

(** C5 (as the code has it). When every ply-0 and ply-1 arrow of the list
    stands for a move of the update and none of them is listed twice,
    [buildArrowOffsets] completes and, for every lane -- an origin square
    and a direction bucket, the direction of a move being
    [round(atan2(Δrow, Δfile) * 180 / π)] on its two squares --, the ply-0
    and ply-1 arrows of that lane, [N] of them, are given in the order of
    the list the offsets 0, 1, ..., N-1, each with total [N]. *)
Theorem buildArrowOffsets_lane_permutation
  (Math_atan2 : Js.number → Js.number → Js.number)
  (update : WsEvaluationData) (arrowInfos : list ArrowInfo) :
  named update arrowInfos →
  NoDup (List.filter isLaned arrowInfos) →
  ∃ offsets,
    buildArrowOffsets Math_atan2 update arrowInfos = Normal offsets
    ∧ ∀ lane : string * string,
        let members := laneArrows Math_atan2 update lane arrowInfos in
        let N := length members in
        (∀ j a, members !! j = Some a →
                assigned offsets a = Some {| current := j; total := N |})
        ∧ assigned offsets <$> members
          = (fun j => Some {| current := j; total := N |}) <$> seq 0 N.
Proof.
  intros Hnamed Hnodup.
  destruct (buildArrowOffsets_completes Math_atan2 update arrowInfos
              (named_keyed Math_atan2 update arrowInfos Hnamed))
    as (offsets & Hrun & _ & Hvalues).
  exists offsets. split; [exact Hrun|]. intros [origin bucket] members N.
  assert (Hjth : ∀ j a, members !! j = Some a →
            assigned offsets a = Some {| current := j; total := N |}).
  { intros j a Hj.
    assert (Hbucket : colonFree bucket).
    { apply list_elem_of_lookup_2, list_elem_of_In in Hj.
      apply filter_In in Hj as [_ Hin]. unfold inLaneOf in Hin.
      apply andb_true_iff in Hin as [_ Hin].
      apply bool_decide_eq_true in Hin.
      destruct (moveOf update a) as [move'|]; [|discriminate Hin].
      injection Hin as _ <-. apply numberToString_colonFree. }
    unfold N, members in *.
    rewrite (laneArrows_laneMembers _ _ _ _ _ Hbucket) in *.
    by apply (Hvalues Hnodup). }
  split; [exact Hjth|].
  apply list_eq. intros j. rewrite !list_lookup_fmap.
  destruct (members !! j) as [a|] eqn:Hj.
  - rewrite (lookup_seq_lt _ _ j); [|by eapply lookup_lt_Some].
    cbn. f_equal. by apply Hjth.
  - rewrite lookup_seq_ge; [done|]. by apply lookup_ge_None.
Qed.

Lemma buildArrowOffsets_lane_permutation_witness :
  ∃ offsets,
    buildArrowOffsets Host.atan2 twoLines twoLinesArrows = Normal offsets
    ∧ ∀ lane : string * string,
        let members := laneArrows Host.atan2 twoLines lane twoLinesArrows in
        let N := length members in
        (∀ j a, members !! j = Some a →
                assigned offsets a = Some {| current := j; total := N |})
        ∧ assigned offsets <$> members
          = (fun j => Some {| current := j; total := N |}) <$> seq 0 N.
Proof.
  apply (buildArrowOffsets_lane_permutation Host.atan2 twoLines
           twoLinesArrows).
  - apply (bool_decide_unpack _). vm_compute. reflexivity.
  - apply (bool_decide_unpack _). vm_compute. reflexivity.
Defined.

(** C5, refuted as stated: a candidate listed twice is two arrows of one
    lane, here the lane of e2 and 90 degrees, and both listings share the
    one slot of their variation and ply, which the second pass leaves at
    offset 1 of 2; the two arrows are not given the offsets 0 and 1. *)
Lemma duplicate_candidate_shares_a_slot :
  ∃ offsets,
    buildArrowOffsets Host.atan2 twoLines firstLineTwice = Normal offsets
    ∧ laneArrows Host.atan2 twoLines ("e2", "90")%string firstLineTwice
      = firstLineTwice
    ∧ assigned offsets <$> firstLineTwice
      = [ Some {| current := 1; total := 2 |};
          Some {| current := 1; total := 2 |} ]
    ∧ assigned offsets <$> firstLineTwice
      ≠ (fun j => Some {| current := j; total := 2 |}) <$> seq 0 2.
Proof.
  eexists. split; [vm_compute; reflexivity|].
  split; [vm_compute; reflexivity|].
  split; [vm_compute; reflexivity|].
  vm_compute. discriminate.
Qed.

Example twoLines_lane :
  laneArrows Host.atan2 twoLines ("e2", "90")%string twoLinesArrows
  = [ {| variationIdx := 0; ply := 0 |}; {| variationIdx := 1; ply := 0 |} ].
Proof. vm_compute. reflexivity. Qed.

(** Three first moves out of e2 in one direction: offsets 0, 1, 2 of 3. *)
Example three_arrows_one_lane :
  let update :=
    {| variations := [ {| pvUci := "e2e3"; nodes := 9 |};
                       {| pvUci := "e2e4"; nodes := 8 |};
                       {| pvUci := "e2e5"; nodes := 7 |} ] |} in
  let arrowInfos := [ {| variationIdx := 0; ply := 0 |};
                      {| variationIdx := 1; ply := 0 |};
                      {| variationIdx := 2; ply := 0 |} ] in
  (offsets ← buildArrowOffsets Host.atan2 update arrowInfos;
   mret (assigned offsets <$> arrowInfos))
  = Normal [ Some {| current := 0; total := 3 |};
             Some {| current := 1; total := 3 |};
             Some {| current := 2; total := 3 |} ].
Proof. vm_compute. reflexivity. Qed.

(** e2e4 and e2d4 leave e2 in different directions: two lanes of one. *)
Example two_arrows_two_lanes :
  let update :=
    {| variations := [ {| pvUci := "e2e4"; nodes := 9 |};
                       {| pvUci := "e2d4"; nodes := 8 |} ] |} in
  let arrowInfos := [ {| variationIdx := 0; ply := 0 |};
                      {| variationIdx := 1; ply := 0 |} ] in
  laneKey Host.atan2 update <$> arrowInfos
  = [ Normal "e2:90"%string; Normal "e2:117"%string ]
  ∧ (offsets ← buildArrowOffsets Host.atan2 update arrowInfos;
     mret (assigned offsets <$> arrowInfos))
    = Normal [ Some {| current := 0; total := 1 |};
               Some {| current := 0; total := 1 |} ].
Proof. split; vm_compute; reflexivity. Qed.

(* ------------------------------------------------------------------ *)
(** ** The arrows from ply 2 on                                         *)
(* ------------------------------------------------------------------ *)

Section DeepArrows.

Variables Math_atan2 Math_pow : Js.number → Js.number → Js.number.
Variable update : WsEvaluationData.

Lemma thinkingArrow_placed (offsets : gmap nat Counts * gmap nat Counts)
  (arrow : ArrowInfo) (variation : Variation) (counts : Counts)
  (along : string) :
  variations update !! variationIdx arrow = Some variation →
  countsRead offsets arrow = Some counts →
  Js.split " " (pvUci variation) !! directionPly arrow = Some along →
  ∃ loc,
    thinkingArrow Math_atan2 Math_pow update offsets.1 offsets.2 arrow
    = Normal loc
    ∧ placed Math_atan2 update offsets arrow loc.
Proof.
  intros Hvar Hcounts Halong.
  destruct (lookup_first _ _ _ Hvar) as [best Hbest].
  unfold thinkingArrow, countsRead, directionPly in *.
  rewrite Hvar, Hbest. cbn [defined mbind completion_bind].
  destruct (ply arrow) as [|[|n]] eqn:Hply; cbn [Nat.eqb] in *.
  - rewrite Hcounts, Halong. cbn [defined mbind completion_bind].
    eexists. split; [reflexivity|].
    exists variation, counts, along. unfold countsRead, directionPly.
    rewrite Hply. cbn. done.
  - rewrite Hcounts, Halong. cbn [defined mbind completion_bind].
    eexists. split; [reflexivity|].
    exists variation, counts, along. unfold countsRead, directionPly.
    rewrite Hply. cbn. done.
  - rewrite Hcounts, Halong. cbn [defined mbind completion_bind].
    eexists. split; [reflexivity|].
    exists variation, counts, along. unfold countsRead, directionPly.
    rewrite Hply. cbn. done.
Qed.

Lemma addThinkingArrows_placed
  (offsets : gmap nat Counts * gmap nat Counts) (todo : list ArrowInfo) :
  Forall (fun a => ∃ loc,
            thinkingArrow Math_atan2 Math_pow update offsets.1 offsets.2 a
            = Normal loc ∧ placed Math_atan2 update offsets a loc) todo →
  ∀ board, ∃ added,
    addThinkingArrows Math_atan2 Math_pow update offsets.1 offsets.2
      todo board = Normal (foldl addArrow board added)
    ∧ Forall2 (placed Math_atan2 update offsets) todo added.
Proof.
  induction 1 as [|a todo (loc & Hloc & Hplaced) _ IH]; intros board.
  - exists []. split; [done|constructor].
  - cbn [addThinkingArrows]. rewrite Hloc. cbn [mbind completion_bind].
    destruct (IH (addArrow board loc)) as (added & -> & Hadded).
    exists (loc :: added). split; [done|]. by constructor.
Qed.

Lemma laneKey_inv (arrow : ArrowInfo) (key : string) :
  laneKey Math_atan2 update arrow = Normal key →
  ∃ variation move',
    variations update !! variationIdx arrow = Some variation
    ∧ Js.split " " (pvUci variation) !! ply arrow = Some move'.
Proof.
  unfold laneKey. intros H.
  destruct (variations update !! variationIdx arrow) as [variation|];
    [|discriminate H].
  cbn [defined mbind completion_bind] in H.
  destruct (Js.split " " (pvUci variation) !! ply arrow) as [m|] eqn:Hm;
    [|discriminate H].
  by exists variation, m.
Qed.

Lemma thinkingArrows_all_placed
  (offsets : gmap nat Counts * gmap nat Counts)
  (arrowInfos : list ArrowInfo) :
  keyed Math_atan2 update arrowInfos →
  anchored arrowInfos →
  (∀ a, a ∈ arrowInfos → isLaned a = true →
        is_Some (assigned offsets a)) →
  Forall (fun a => ∃ loc,
            thinkingArrow Math_atan2 Math_pow update offsets.1 offsets.2 a
            = Normal loc ∧ placed Math_atan2 update offsets a loc) arrowInfos.
Proof.
  intros Hkeyed Hanchored Hassigned. apply Forall_forall. intros a Ha.
  destruct (isLaned a) eqn:Hlaned.
  - destruct (Hkeyed a Ha Hlaned) as [key Hkey].
    destruct (laneKey_inv a key Hkey) as (variation & m & Hvar & Hm).
    destruct (Hassigned a Ha Hlaned) as [counts Hcounts].
    unfold isLaned in Hlaned. apply negb_true_iff, Nat.leb_gt in Hlaned.
    apply (thinkingArrow_placed offsets a variation counts m Hvar).
    + unfold countsRead, assigned in *.
      destruct (ply a) as [|[|n]]; [done|done|lia].
    + unfold directionPly. destruct (ply a) as [|[|n]]; [done|done|lia].
  - unfold isLaned in Hlaned. apply negb_false_iff, Nat.leb_le in Hlaned.
    unfold anchored in Hanchored. rewrite Forall_forall in Hanchored.
    specialize (Hanchored a Ha Hlaned). apply Exists_exists in Hanchored.
    destruct Hanchored as (a0 & Ha0 & Hply0 & Hidx).
    assert (Hlaned0 : isLaned a0 = true).
    { unfold isLaned. by rewrite Hply0. }
    destruct (Hkeyed a0 Ha0 Hlaned0) as [key Hkey].
    destruct (laneKey_inv a0 key Hkey) as (variation & m & Hvar & Hm).
    destruct (Hassigned a0 Ha0 Hlaned0) as [counts Hcounts].
    rewrite Hidx in Hvar. rewrite Hply0 in Hm.
    apply (thinkingArrow_placed offsets a variation counts m Hvar).
    + unfold countsRead, assigned in *. rewrite Hply0, Hidx in Hcounts.
      destruct (ply a) as [|[|n]]; [lia|lia|done].
    + unfold directionPly. destruct (ply a) as [|[|n]]; [lia|lia|done].
Qed.

End DeepArrows.

Lemma arrows_foldl_addArrow (added : list ArrowLocation) (board : Board) :
  arrows (foldl addArrow board added) = arrows board ++ added.
Proof.
  revert board. induction added as [|loc added IH]; intros board; cbn.
  - by rewrite app_nil_r.
  - rewrite IH. cbn. by rewrite <- app_assoc.
Qed.

(** What a completed call tells of the list, loop by loop. *)
Section LaneCounts.

Variables Math_atan2 Math_pow : Js.number → Js.number → Js.number.
Variable update : WsEvaluationData.

Lemma countLanes_keyed (l : list ArrowInfo) (d d' : gmap string Counts) :
  countLanes Math_atan2 update l d = Normal d' →
  keyed Math_atan2 update l.
Proof.
  revert d. induction l as [|a l IH]; intros d Hrun b Hb Hlaned.
  - by apply not_elem_of_nil in Hb.
  - cbn [countLanes] in Hrun.
    destruct (2 <=? ply a)%nat eqn:H2.
    + apply elem_of_cons in Hb as [->|Hb]; [|by eapply IH].
      unfold isLaned in Hlaned. by rewrite H2 in Hlaned.
    + destruct (laneKey Math_atan2 update a) as [key|] eqn:Hkey;
        [|discriminate Hrun].
      cbn [mbind completion_bind] in Hrun.
      apply elem_of_cons in Hb as [->|Hb]; [by exists key|by eapply IH].
Qed.

Lemma buildArrowOffsets_keyed (l : list ArrowInfo)
  (offsets : gmap nat Counts * gmap nat Counts) :
  buildArrowOffsets Math_atan2 update l = Normal offsets →
  keyed Math_atan2 update l.
Proof.
  unfold buildArrowOffsets. intros Hrun.
  destruct (countLanes Math_atan2 update l ∅) as [d|] eqn:Hcount;
    [|discriminate Hrun].
  by eapply countLanes_keyed.
Qed.


(** The second loop writes only counts that are below their total. *)
Lemma assignOffsets_bounded (l : list ArrowInfo) :
  ∀ d us them offsets,
    assignOffsets Math_atan2 update l d us them = Normal offsets →
    (∀ key, (currentOf d key
             + length (laneMembers Math_atan2 update key l)
             ≤ totalOf d key)%nat) →
    (∀ i c, us !! i = Some c → (current c < total c)%nat) →
    (∀ i c, them !! i = Some c → (current c < total c)%nat) →
    (∀ i c, offsets.1 !! i = Some c → (current c < total c)%nat)
    ∧ (∀ i c, offsets.2 !! i = Some c → (current c < total c)%nat).
Proof.
  induction l as [|a0 l IH]; intros d us them offsets Hrun Hd Hus Hthem.
  - cbn in Hrun. injection Hrun as <-. done.
  - cbn [assignOffsets] in Hrun.
    destruct (isLaned a0) eqn:Hlaned.
    + assert (H2 : (2 <=? ply a0)%nat = false).
      { unfold isLaned in Hlaned. by apply negb_true_iff in Hlaned. }
      rewrite H2 in Hrun.
      destruct (laneKey Math_atan2 update a0) as [key0|e] eqn:Hkey0;
        [|discriminate Hrun].
      cbn [mbind completion_bind] in Hrun.
      destruct (d !! key0) as [v|] eqn:Hv; [|discriminate Hrun].
      cbn [defined mbind completion_bind] in Hrun.
      assert (Hbound : (current v < total v)%nat).
      { specialize (Hd key0).
        rewrite (laneMembers_cons _ _ key0 key0) in Hd by done.
        rewrite decide_True in Hd by done.
        unfold currentOf, totalOf in Hd. rewrite Hv in Hd. cbn in Hd. lia. }
      apply (IH _ _ _ _ Hrun).
      * intros key. specialize (Hd key).
        rewrite (laneMembers_cons _ _ key key0) in Hd by done.
        unfold currentOf, totalOf in *.
        destruct (decide (key0 = key)) as [<-|Hne].
        -- rewrite lookup_insert_eq. rewrite Hv in Hd. cbn in *. lia.
        -- by rewrite lookup_insert_ne.
      * intros i c. destruct (ply a0 =? 0)%nat; [|apply Hus].
        rewrite lookup_insert. case_decide; [|apply Hus].
        by intros [= <-].
      * intros i c. destruct (ply a0 =? 0)%nat; [apply Hthem|].
        rewrite lookup_insert. case_decide; [|apply Hthem].
        by intros [= <-].
    + assert (H2 : (2 <=? ply a0)%nat = true).
      { unfold isLaned in Hlaned. by apply negb_false_iff in Hlaned. }
      rewrite H2 in Hrun. apply (IH _ _ _ _ Hrun); [|done|done].
      intros key. specialize (Hd key).
      by rewrite laneMembers_skip in Hd.
Qed.

(** The entries the second loop adds: one for each variation with a
    ply-0 arrow in [usVariations], with a ply-1 arrow in
    [themVariations]. *)
Lemma assignOffsets_entries (l : list ArrowInfo) :
  ∀ d us them offsets,
    assignOffsets Math_atan2 update l d us them = Normal offsets →
    ∀ i,
      (is_Some (offsets.1 !! i)
       ↔ is_Some (us !! i)
         ∨ ∃ a, a ∈ l ∧ ply a = 0%nat ∧ variationIdx a = i)
      ∧ (is_Some (offsets.2 !! i)
         ↔ is_Some (them !! i)
           ∨ ∃ a, a ∈ l ∧ ply a = 1%nat ∧ variationIdx a = i).
Proof.
  induction l as [|a0 l IH]; intros d us them offsets Hrun i.
  - cbn in Hrun. injection Hrun as <-. cbn.
    split; (split; [by left|intros [?|(a & Ha & _)]; [done|]]);
      by apply not_elem_of_nil in Ha.
  - cbn [assignOffsets] in Hrun.
    destruct (2 <=? ply a0)%nat eqn:H2.
    + destruct (IH _ _ _ _ Hrun i) as [Hus Hthem].
      apply Nat.leb_le in H2. rewrite Hus, Hthem.
      split; (split; (intros [?|(a & Ha & Hply & Hidx)]; [by left|right]));
        try (exists a; by rewrite elem_of_cons; auto).
      all: apply elem_of_cons in Ha as [->|Ha]; [lia|by exists a].
    + destruct (laneKey Math_atan2 update a0) as [key0|e];
        [|discriminate Hrun].
      cbn [mbind completion_bind] in Hrun.
      destruct (d !! key0) as [v|]; [|discriminate Hrun].
      cbn [defined mbind completion_bind] in Hrun.
      destruct (IH _ _ _ _ Hrun i) as [Hus Hthem]. rewrite Hus, Hthem.
      apply Nat.leb_gt in H2.
      destruct (ply a0) as [|[|n]] eqn:Hply0; [| |lia]; cbn [Nat.eqb].
      * split.
        -- rewrite lookup_insert_is_Some'. split.
           ++ intros [[Hi|?]|(a & Ha & Hply & Hidx)].
              ** right. exists a0. rewrite elem_of_cons. auto.
              ** by left.
              ** right. exists a. by rewrite elem_of_cons; auto.
           ++ intros [?|(a & Ha & Hply & Hidx)]; [left; by right|].
              apply elem_of_cons in Ha as [->|Ha]; [left; by left|].
              right. by exists a.
        -- split.
           ++ intros [?|(a & Ha & Hply & Hidx)]; [by left|].
              right. exists a. by rewrite elem_of_cons; auto.
           ++ intros [?|(a & Ha & Hply & Hidx)]; [by left|].
              apply elem_of_cons in Ha as [->|Ha]; [congruence|].
              right. by exists a.
      * split.
        -- split.
           ++ intros [?|(a & Ha & Hply & Hidx)]; [by left|].
              right. exists a. by rewrite elem_of_cons; auto.
           ++ intros [?|(a & Ha & Hply & Hidx)]; [by left|].
              apply elem_of_cons in Ha as [->|Ha]; [congruence|].
              right. by exists a.
        -- rewrite lookup_insert_is_Some'. split.
           ++ intros [[Hi|?]|(a & Ha & Hply & Hidx)].
              ** right. exists a0. rewrite elem_of_cons. auto.
              ** by left.
              ** right. exists a. by rewrite elem_of_cons; auto.
           ++ intros [?|(a & Ha & Hply & Hidx)]; [left; by right|].
              apply elem_of_cons in Ha as [->|Ha]; [left; by left|].
              right. by exists a.
Qed.

End LaneCounts.

Section ThinkingArrows.

Variables Math_atan2 Math_pow : Js.number → Js.number → Js.number.
Variable update : WsEvaluationData.

Lemma addThinkingArrows_inv (usVars themVars : gmap nat Counts)
  (todo : list ArrowInfo) (board board' : Board) :
  addThinkingArrows Math_atan2 Math_pow update usVars themVars todo board
  = Normal board' →
  ∃ added,
    board' = foldl addArrow board added
    ∧ Forall2 (fun a loc =>
                 thinkingArrow Math_atan2 Math_pow update usVars themVars a
                 = Normal loc) todo added.
Proof.
  revert board. induction todo as [|a todo IH]; intros board Hrun.
  - cbn in Hrun. injection Hrun as <-. exists []. split; [done|constructor].
  - cbn [addThinkingArrows] in Hrun.
    destruct (thinkingArrow Math_atan2 Math_pow update usVars themVars a)
      as [loc|] eqn:Hloc; [|discriminate Hrun].
    cbn [mbind completion_bind] in Hrun.
    destruct (IH _ Hrun) as (added & -> & Hadded).
    exists (loc :: added). split; [done|]. by constructor.
Qed.

(** What [thinkingArrow] needs, and the look it gives. *)
Lemma thinkingArrow_inv (usVars themVars : gmap nat Counts)
  (a : ArrowInfo) (loc : ArrowLocation) :
  thinkingArrow Math_atan2 Math_pow update usVars themVars a = Normal loc →
  ((2 ≤ ply a)%nat → is_Some (usVars !! variationIdx a))
  ∧ renderAfterPieces loc = negb (ply a =? 0)%nat
  ∧ classes loc
    = ("arrow arrow-variation" ++ pretty (variationIdx a) ++ " arrow-ply"
       ++ pretty (Nat.min (ply a) 2))%string
  ∧ ((2 ≤ ply a)%nat →
     width loc = 3 ∧ headLength loc = 5 ∧ headWidth loc = 10
     ∧ dashLength loc = 3 ∧ dashSpace loc = 3)
  ∧ ∃ v, variations update !! variationIdx a = Some v
         ∧ move loc = Js.split " " (pvUci v) !! ply a.
Proof.
  unfold thinkingArrow. intros Hrun.
  destruct (variations update !! variationIdx a) as [v|];
    [|discriminate Hrun].
  cbn [defined mbind completion_bind] in Hrun.
  destruct (variations update !! 0%nat) as [best|]; [|discriminate Hrun].
  cbn [defined mbind completion_bind] in Hrun.
  destruct (ply a) as [|[|n]] eqn:Hply; cbn [Nat.eqb] in Hrun.
  - destruct (usVars !! variationIdx a) as [c|]; [|discriminate Hrun].
    cbn [defined mbind completion_bind] in Hrun.
    destruct (Js.split " " (pvUci v) !! 0%nat) as [m|] eqn:Hm;
      [|discriminate Hrun].
    injection Hrun as <-. cbn. repeat split; try lia. by exists v.
  - destruct (themVars !! variationIdx a) as [c|]; [|discriminate Hrun].
    cbn [defined mbind completion_bind] in Hrun.
    destruct (Js.split " " (pvUci v) !! 1%nat) as [m|] eqn:Hm;
      [|discriminate Hrun].
    injection Hrun as <-. cbn. repeat split; try lia. by exists v.
  - destruct (usVars !! variationIdx a) as [c|]; [|discriminate Hrun].
    cbn [defined mbind completion_bind] in Hrun.
    destruct (Js.split " " (pvUci v) !! 0%nat) as [m|];
      [|discriminate Hrun].
    injection Hrun as <-. cbn [renderAfterPieces classes width headLength
      headWidth dashLength dashSpace move negb].
    split; [intros _; by eexists|]. split; [done|].
    split; [by destruct n|]. split; [done|]. by exists v.
Qed.

End ThinkingArrows.

(** C1 (as the code has it). For every list of candidate arrows,
    [renderThinkingarrows] completes exactly when every ply-0 and ply-1
    arrow names a move of the update and every arrow from ply 2 on comes
    with the ply-0 arrow of its own variation, and throws a TypeError in
    every other case.  When it completes it adds one arrow for each
    candidate, in order.  Only the ply-0 and ply-1 arrows are grouped into
    lanes: the counts are those of the list without the deeper arrows.
    An arrow from ply 2 on is not given offset 0 of 1: it reads the counts
    of the ply-0 arrow of its own variation and is displaced along that
    arrow's direction, so it carries the same offset, the same total and
    the same offset direction as that arrow. *)
Theorem renderThinkingarrows_deep_plies
  (Math_atan2 Math_pow : Js.number → Js.number → Js.number)
  (selectArrowsToRender : WsEvaluationData → list ArrowInfo)
  (update : WsEvaluationData) (board : Board) :
  let arrowInfos := selectArrowsToRender update in
  ((∃ board', renderThinkingarrows Math_atan2 Math_pow selectArrowsToRender
                update board = Normal board')
   ↔ keyed Math_atan2 update arrowInfos ∧ anchored arrowInfos)
  ∧ (renderThinkingarrows Math_atan2 Math_pow selectArrowsToRender
       update board = Throw TypeError
     ↔ ¬ (keyed Math_atan2 update arrowInfos ∧ anchored arrowInfos))
  ∧ ∀ board',
      renderThinkingarrows Math_atan2 Math_pow selectArrowsToRender
        update board = Normal board' →
      ∃ offsets added,
        buildArrowOffsets Math_atan2 update (List.filter isLaned arrowInfos)
        = Normal offsets
        ∧ buildArrowOffsets Math_atan2 update arrowInfos = Normal offsets
        ∧ board' = foldl addArrow board added
        ∧ arrows board' = arrows board ++ added
        ∧ Forall2 (placed Math_atan2 update offsets) arrowInfos added
        ∧ ∀ i a loc i0 a0 loc0,
            arrowInfos !! i = Some a → added !! i = Some loc →
            arrowInfos !! i0 = Some a0 → added !! i0 = Some loc0 →
            (2 ≤ ply a)%nat → ply a0 = 0%nat →
            variationIdx a0 = variationIdx a →
            offset loc = offset loc0
            ∧ totalOffsets loc = totalOffsets loc0
            ∧ offsetDirection loc = offsetDirection loc0.
Proof.
  intros arrowInfos.
  assert (Hgiven : keyed Math_atan2 update arrowInfos → anchored arrowInfos →
            ∃ offsets added,
              buildArrowOffsets Math_atan2 update
                (List.filter isLaned arrowInfos) = Normal offsets
              ∧ buildArrowOffsets Math_atan2 update arrowInfos
                = Normal offsets
              ∧ renderThinkingarrows Math_atan2 Math_pow
                  selectArrowsToRender update board
                = Normal (foldl addArrow board added)
              ∧ Forall2 (placed Math_atan2 update offsets) arrowInfos added).
  { intros Hkeyed Hanchored.
    destruct (buildArrowOffsets_completes Math_atan2 update arrowInfos
                Hkeyed) as (offsets & Hrun & Hall & _).
    pose proof (thinkingArrows_all_placed Math_atan2 Math_pow update offsets
                  arrowInfos Hkeyed Hanchored Hall) as Hplaced.
    destruct (addThinkingArrows_placed Math_atan2 Math_pow update offsets
                arrowInfos Hplaced board) as (added & Hadd & Hadded).
    exists offsets, added.
    split; [by rewrite <- buildArrowOffsets_laned|]. split; [exact Hrun|].
    split; [|exact Hadded].
    unfold renderThinkingarrows. fold arrowInfos. rewrite Hrun.
    cbn [mbind completion_bind]. destruct offsets as [us them]. exact Hadd. }
  assert (Hneeded : ∀ board',
            renderThinkingarrows Math_atan2 Math_pow selectArrowsToRender
              update board = Normal board' →
            keyed Math_atan2 update arrowInfos ∧ anchored arrowInfos).
  { intros board' Hrun. unfold renderThinkingarrows in Hrun.
    fold arrowInfos in Hrun.
    destruct (buildArrowOffsets Math_atan2 update arrowInfos)
      as [[us them]|] eqn:Hbuild; [|discriminate Hrun].
    cbn [mbind completion_bind] in Hrun.
    split; [by eapply buildArrowOffsets_keyed|].
    destruct (addThinkingArrows_inv _ _ _ _ _ _ _ _ Hrun)
      as (added & _ & Hadded).
    assert (Hus : ∀ i, is_Some (us !! i)
                       → ∃ a, a ∈ arrowInfos ∧ ply a = 0%nat
                              ∧ variationIdx a = i).
    { intros i Hi. unfold buildArrowOffsets in Hbuild.
      destruct (countLanes Math_atan2 update arrowInfos ∅) as [d|];
        [|discriminate Hbuild].
      cbn [mbind completion_bind] in Hbuild.
      destruct (assignOffsets_entries _ _ _ _ _ _ _ Hbuild i) as [H _].
      cbn in H. apply H in Hi as [Hi|Hi]; [|done].
      rewrite lookup_empty in Hi. by destruct Hi. }
    unfold anchored. apply Forall_forall. intros a Ha Hdeep.
    apply list_elem_of_lookup in Ha as [i Hi].
    destruct (Forall2_lookup_l _ _ _ _ _ Hadded Hi) as (loc & _ & Hloc).
    destruct (thinkingArrow_inv _ _ _ _ _ _ _ Hloc) as (Hcounts & _).
    apply Hus in Hcounts as (a0 & Ha0 & Hply0 & Hidx); [|done].
    apply Exists_exists. by exists a0. }
  split; [|split].
  - split.
    + intros [board' Hrun]. by eapply Hneeded.
    + intros [Hkeyed Hanchored].
      destruct (Hgiven Hkeyed Hanchored) as (_ & added & _ & _ & Hrun & _).
      by eexists.
  - split.
    + intros Hthrow [Hkeyed Hanchored].
      destruct (Hgiven Hkeyed Hanchored) as (_ & added & _ & _ & Hrun & _).
      rewrite Hrun in Hthrow. discriminate Hthrow.
    + intros Hnot.
      destruct (renderThinkingarrows _ _ _ _ _) as [board'|[]] eqn:Hrun;
        [|done].
      exfalso. apply Hnot. by eapply Hneeded.
  - intros board' Hrun.
    destruct (Hneeded board' Hrun) as [Hkeyed Hanchored].
    destruct (Hgiven Hkeyed Hanchored)
      as (offsets & added & Hlaned & Hbuild & Hrun' & Hadded).
    rewrite Hrun in Hrun'. injection Hrun' as ->.
    exists offsets, added.
    split; [exact Hlaned|]. split; [exact Hbuild|]. split; [done|].
    split; [apply arrows_foldl_addArrow|]. split; [exact Hadded|].
    intros i a loc i0 a0 loc0 Ha Hloc Ha0 Hloc0 Hdeep Hfirst Hidx.
    pose proof (Forall2_lookup_lr _ _ _ _ _ _ Hadded Ha Hloc) as Hp.
    pose proof (Forall2_lookup_lr _ _ _ _ _ _ Hadded Ha0 Hloc0) as Hp0.
    destruct Hp as (v & c & along & Hv & Hc & Halong & _ & -> & -> & ->).
    destruct Hp0
      as (v0 & c0 & along0 & Hv0 & Hc0 & Halong0 & _ & -> & -> & ->).
    unfold countsRead, directionPly in *. rewrite Hidx in *.
    rewrite Hfirst in *. cbn [Nat.eqb] in *.
    destruct (ply a) as [|[|n]]; [lia|lia|]. cbn [Nat.eqb] in *.
    assert (v0 = v) as -> by congruence.
    assert (c0 = c) as -> by congruence.
    assert (along0 = along) as -> by congruence.
    done.
Qed.

Lemma renderThinkingarrows_deep_plies_witness :
  ∃ board' offsets added,
    renderThinkingarrows Host.atan2 Host.pow (fun _ => twoLinesArrows)
      twoLines emptyBoard = Normal board'
    ∧ buildArrowOffsets Host.atan2 twoLines
        (List.filter isLaned twoLinesArrows) = Normal offsets
    ∧ buildArrowOffsets Host.atan2 twoLines twoLinesArrows = Normal offsets
    ∧ board' = foldl addArrow emptyBoard added
    ∧ arrows board' = arrows emptyBoard ++ added
    ∧ Forall2 (placed Host.atan2 twoLines offsets) twoLinesArrows added
    ∧ ∀ i a loc i0 a0 loc0,
        twoLinesArrows !! i = Some a → added !! i = Some loc →
        twoLinesArrows !! i0 = Some a0 → added !! i0 = Some loc0 →
        (2 ≤ ply a)%nat → ply a0 = 0%nat →
        variationIdx a0 = variationIdx a →
        offset loc = offset loc0
        ∧ totalOffsets loc = totalOffsets loc0
        ∧ offsetDirection loc = offsetDirection loc0.
Proof.
  destruct (renderThinkingarrows_deep_plies Host.atan2 Host.pow
              (fun _ => twoLinesArrows) twoLines emptyBoard)
    as (Hcompletes & _ & Hadded).
  destruct (proj2 Hcompletes) as [board' Hrun].
  { split.
    - apply keyedb_keyed. vm_compute. reflexivity.
    - apply (bool_decide_unpack _). vm_compute. reflexivity. }
  destruct (Hadded board' Hrun) as (offsets & added & Hrest).
  exists board', offsets, added. split; [exact Hrun|exact Hrest].
Defined.

(** C1, refuted as stated: with two lines that both open from e2 straight
    up the board, the third-ply arrow of the second line (the fifth
    candidate) is added with offset 1 of 2, the lane position of the first
    move of its line, and not with offset 0 of 1. *)
Lemma deep_arrow_shares_the_fan :
  ∃ board loc,
    renderThinkingarrows Host.atan2 Host.pow (fun _ => twoLinesArrows)
      twoLines emptyBoard = Normal board
    ∧ twoLinesArrows !! 4%nat = Some {| variationIdx := 1; ply := 2 |}
    ∧ arrows board !! 4%nat = Some loc
    ∧ move loc = Some "d2d4"%string
    ∧ offset loc = 1 ∧ totalOffsets loc = 2
    ∧ offset loc ≠ 0 ∧ totalOffsets loc ≠ 1.
Proof.
  eexists _, _. split; [vm_compute; reflexivity|].
  split; [reflexivity|]. split; [vm_compute; reflexivity|].
  split; [reflexivity|]. split; [reflexivity|]. split; [reflexivity|].
  split; intros H; apply (f_equal Prim2SF) in H; vm_compute in H;
    discriminate H.
Qed.

(* ================================================================== *)
(** * Further properties of the two files                               *)
(* ================================================================== *)

(* ------------------------------------------------------------------ *)
(** ** Highlights, orientation and the boards that can be reached       *)
(* ------------------------------------------------------------------ *)




Lemma seven_minus (k : nat) :
  (k ≤ 7)%nat → 7 - Js.ofNat k = Js.ofNat (7 - k).
Proof. intros Hk. below8 k; vm_compute; reflexivity. Qed.

Lemma seven_minus_twice (k : nat) :
  (k ≤ 7)%nat → 7 - Js.ofNat (7 - k) = Js.ofNat k.
Proof. intros Hk. below8 k; vm_compute; reflexivity. Qed.

(** X2. Turning the board is a half turn: what a flipped board draws for
    the square of rank [rank] and file [file] is where an unflipped board
    with the same border draws the square of rank [7 - rank] and file
    [7 - file]; and the same holds for a piece and the piece of the
    opposite row and file. *)
Theorem flipped_board_is_half_turn (b b' : Board) (rank' file' : nat) :
  (file' ≤ 7)%nat → (rank' ≤ 7)%nat →
  flipped b = true → flipped b' = false → border b = border b' →
  svgXY (boardSquare b rank' file')
  = svgXY (boardSquare b' (7 - rank') (7 - file'))
  ∧ ∀ p p',
      rank p = Js.ofNat rank' → file p = Js.ofNat file' →
      rank p' = Js.ofNat (7 - rank') → file p' = Js.ofNat (7 - file') →
      svgXY (pieceUse b p) = svgXY (pieceUse b' p').
Proof.
  intros Hf Hr Hb Hb' Hborder. split.
  - unfold boardSquare, svgXY. rewrite Hb, Hb', Hborder.
    by rewrite (seven_minus file'), (seven_minus_twice rank').
  - intros p p' Hrank Hfile Hrank' Hfile'. unfold pieceUse, svgXY.
    rewrite Hb, Hb', Hborder, Hrank, Hfile, Hrank', Hfile'.
    by rewrite (seven_minus file'), (seven_minus rank').
Qed.

Lemma flipped_board_is_half_turn_witness :
  svgXY (boardSquare turnedBoard 1 4)
  = svgXY (boardSquare emptyBoard (7 - 1) (7 - 4))
  ∧ ∀ p p',
      rank p = Js.ofNat 1 → file p = Js.ofNat 4 →
      rank p' = Js.ofNat (7 - 1) → file p' = Js.ofNat (7 - 4) →
      svgXY (pieceUse turnedBoard p) = svgXY (pieceUse emptyBoard p').
Proof.
  apply (flipped_board_is_half_turn turnedBoard emptyBoard 1 4);
    try lia; reflexivity.
Defined.

Lemma fromFen_keeps_orientation (b b' : Board) (fen : string) :
  fromFen b fen = Normal b' →
  flipped b' = flipped b ∧ border b' = border b
  ∧ boardClass b' = boardClass b.
Proof. rewrite fromFen_unfold. by intros [= <-]. Qed.

(** X3. No method ever turns a board or gives it a border: every board
    built by the constructor and changed through its methods is unflipped
    with border 0, so that it draws the square of rank [rank] and file
    [file] at [(45 file, 45 (7 - rank))] -- a1 in the bottom left corner --
    and a piece of row [rank] of the position string at
    [(45 file, 45 rank)]. *)
Theorem reachable_board_is_unflipped (b : Board) (rank' file' : nat) :
  reachable b → (file' ≤ 7)%nat → (rank' ≤ 7)%nat →
  flipped b = false ∧ border b = 0
  ∧ svgXY (boardSquare b rank' file')
    = Some (Js.ofNat (45 * file'), Js.ofNat (45 * (7 - rank')))
  ∧ ∀ p, rank p = Js.ofNat rank' → file p = Js.ofNat file' →
         svgXY (pieceUse b p)
         = Some (Js.ofNat (45 * file'), Js.ofNat (45 * rank')).
Proof.
  intros Hreach Hf Hr.
  assert (Hinv : flipped b = false ∧ border b = 0).
  { clear Hf Hr. induction Hreach as [b Hnew| | | | | | | |b fen b' _ IH Hfen];
      try exact IHHreach.
    - unfold newBoard in Hnew.
      by destruct (fromFen_keeps_orientation _ _ _ Hnew) as (-> & -> & _).
    - by destruct (fromFen_keeps_orientation _ _ _ Hfen) as (-> & -> & _). }
  destruct Hinv as [Hflip Hborder]. split; [done|]. split; [done|]. split.
  - unfold boardSquare, svgXY. rewrite Hflip, Hborder.
    below8 file'; below8 rank'; vm_compute; reflexivity.
  - intros p Hrank Hfile. unfold pieceUse, svgXY.
    rewrite Hflip, Hborder, Hrank, Hfile.
    below8 file'; below8 rank'; vm_compute; reflexivity.
Qed.

Lemma reachable_board_is_unflipped_witness :
  flipped (addHighlight (setPieces emptyBoard (fenPieces startFen)) "e2")
  = false
  ∧ border (addHighlight (setPieces emptyBoard (fenPieces startFen)) "e2")
    = 0
  ∧ svgXY (boardSquare
             (addHighlight (setPieces emptyBoard (fenPieces startFen)) "e2")
             1 4)
    = Some (Js.ofNat (45 * 4), Js.ofNat (45 * (7 - 1)))
  ∧ ∀ p, rank p = Js.ofNat 1 → file p = Js.ofNat 4 →
         svgXY (pieceUse
                  (addHighlight (setPieces emptyBoard (fenPieces startFen))
                     "e2") p)
         = Some (Js.ofNat (45 * 4), Js.ofNat (45 * 1)).
Proof.
  apply (reachable_board_is_unflipped
           (addHighlight (setPieces emptyBoard (fenPieces startFen)) "e2")
           1 4); [|lia|lia].
  apply reach_addHighlight. apply reach_new. reflexivity.
Defined.

(* ------------------------------------------------------------------ *)
(** ** The squares of the pieces of a position                          *)
(* ------------------------------------------------------------------ *)

Lemma sameDouble_eq (x y : Js.number) : sameDouble x y = true → x = y.
Proof.
  unfold sameDouble. intros H. apply bool_decide_eq_true in H.
  by rewrite <- (SF2Prim_Prim2SF x), <- (SF2Prim_Prim2SF y), H.
Qed.

Lemma ofNat_add_small (k d : nat) :
  (k ≤ 64)%nat → (d ≤ 9)%nat →
  Js.ofNat k + Js.ofNat d = Js.ofNat (k + d).
Proof.
  intros Hk Hd.
  assert (Hall : forallb (fun k => forallb (fun d =>
              sameDouble (Js.ofNat k + Js.ofNat d) (Js.ofNat (k + d)))
              (seq 0 10)) (seq 0 65) = true) by (vm_compute; reflexivity).
  rewrite forallb_forall in Hall.
  specialize (Hall k). rewrite forallb_forall in Hall.
  apply sameDouble_eq, Hall; apply in_seq; lia.
Qed.

Lemma ofNat_inj_small (j k : nat) :
  (j ≤ 64)%nat → (k ≤ 64)%nat → Js.ofNat j = Js.ofNat k → j = k.
Proof.
  intros Hj Hk Heq.
  assert (Hall : forallb (fun k => bool_decide
              (Js.toZ (Js.ofNat k) = Some (Z.of_nat k))) (seq 0 65) = true)
    by (vm_compute; reflexivity).
  rewrite forallb_forall in Hall.
  assert (Hz : ∀ n, (n ≤ 64)%nat → Js.toZ (Js.ofNat n) = Some (Z.of_nat n)).
  { intros n Hn. assert (Hin : In n (seq 0 65)) by (apply in_seq; lia).
    apply Hall in Hin. by apply bool_decide_eq_true in Hin. }
  apply (f_equal Js.toZ) in Heq. rewrite !Hz in Heq by done.
  injection Heq. lia.
Qed.

Lemma digit_small (c : ascii) (d : nat) : Js.digit c = Some d → (d ≤ 9)%nat.
Proof.
  unfold Js.digit.
  destruct (_ && _) eqn:H; [|discriminate]. intros [= <-].
  apply andb_true_iff in H as [_ H]. apply Nat.leb_le in H. lia.
Qed.

Lemma fenChars_cells (rowIndex : nat) (cs : list ascii) (k : nat)
  (pieces : list PieceLocation) :
  (k + rowWidth cs ≤ 64)%nat →
  snd (foldl (fenChar rowIndex) (Js.ofNat k, pieces) cs)
  = pieces ++ map (fun cell => pieceOf (rowIndex, cell.2, cell.1))
                  (rowCells cs k).
Proof.
  revert k pieces. induction cs as [|c cs IH]; intros k pieces Hwidth.
  - cbn. by rewrite app_nil_r.
  - cbn [foldl rowCells rowWidth] in *. unfold fenChar at 2.
    rewrite isNaN_parseInt. unfold isDigitChar, Js.parseInt. cbn [mbind option_bind].
    destruct (Js.digit c) as [d|] eqn:Hd; cbn [negb].
    + pose proof (digit_small c d Hd).
      rewrite ofNat_add_small by lia. apply IH. lia.
    + change 1 with (Js.ofNat 1). rewrite ofNat_add_small by lia.
      rewrite Nat.add_1_r, IH by lia. cbn [map]. by rewrite <- app_assoc.
Qed.

Lemma fenRows_cells (rows : list string) (i : nat)
  (pieces : list PieceLocation) :
  Forall (fun row => (rowWidth (Js.chars row) ≤ 64)%nat) rows →
  foldl (fun pieces '(rowIndex, row) => fenRow pieces rowIndex row)
        pieces (imap (fun n row => ((i + n)%nat, row)) rows)
  = pieces ++ map pieceOf (cellsFrom i rows).
Proof.
  intros Hrows. revert i pieces.
  induction Hrows as [|row rows Hrow _ IH]; intros i pieces.
  - cbn. by rewrite app_nil_r.
  - cbn [imap foldl cellsFrom]. rewrite Nat.add_0_r. unfold fenRow at 2.
    change 0 with (Js.ofNat 0). rewrite fenChars_cells by (cbn; lia).
    rewrite (imap_ext _ (fun n row => ((S i + n)%nat, row)));
      [|intros n x _; cbn; f_equal; lia].
    rewrite IH, map_app, map_map, <- app_assoc. reflexivity.
Qed.

Lemma rowCells_files (cs : list ascii) (k : nat) :
  Forall (fun cell => (k ≤ cell.2 < k + rowWidth cs)%nat) (rowCells cs k)
  ∧ NoDup (map snd (rowCells cs k)).
Proof.
  revert k. induction cs as [|c cs IH]; intros k; cbn.
  - split; constructor.
  - destruct (Js.digit c) as [d|].
    + destruct (IH (k + d)%nat) as [Hin Hnodup]. split; [|done].
      eapply Forall_impl; [exact Hin|]. cbn. intros cell. lia.
    + destruct (IH (S k)) as [Hin Hnodup]. split.
      * constructor; [cbn; lia|].
        eapply Forall_impl; [exact Hin|]. cbn. intros cell. lia.
      * cbn. constructor; [|done]. intros Hk.
        apply list_elem_of_In, in_map_iff in Hk as (cell & Heq & Hcell).
        rewrite Forall_forall in Hin.
        apply list_elem_of_In in Hcell. specialize (Hin cell Hcell).
        cbn in *. lia.
Qed.

Lemma cellsFrom_squares (rows : list string) (i : nat) :
  Forall (fun row => (rowWidth (Js.chars row) ≤ 8)%nat) rows →
  Forall (fun cell => (i ≤ cell.1.1 < i + length rows)%nat
                      ∧ (cell.1.2 < 8)%nat) (cellsFrom i rows)
  ∧ NoDup (map fst (cellsFrom i rows)).
Proof.
  intros Hrows. revert i.
  induction Hrows as [|row rows Hrow _ IH]; intros i; cbn [cellsFrom].
  - split; constructor.
  - destruct (IH (S i)) as [Hin Hnodup].
    destruct (rowCells_files (Js.chars row) 0) as [Hfiles Hfresh].
    split.
    + apply Forall_app. split.
      * apply Forall_forall. intros cell Hcell.
        apply list_elem_of_In, in_map_iff in Hcell as (c & <- & Hc).
        rewrite Forall_forall in Hfiles.
        apply list_elem_of_In in Hc. specialize (Hfiles c Hc).
        cbn in *. lia.
      * eapply Forall_impl; [exact Hin|]. cbn. intros cell. lia.
    + rewrite map_app.
      replace (map fst (map (fun cell : ascii * nat => (i, cell.2, cell.1))
                            (rowCells (Js.chars row) 0)))
        with (map (pair i) (map snd (rowCells (Js.chars row) 0)))
        by (rewrite !map_map; reflexivity).
      apply NoDup_app. split; [|split; [|done]].
      * apply (NoDup_fmap_2 (pair i)). exact Hfresh.
      * intros sq Hsq Hsq'.
        apply list_elem_of_In, in_map_iff in Hsq as (c & <- & _).
        apply list_elem_of_In, in_map_iff in Hsq' as (cell & Heq & Hcell).
        rewrite Forall_forall in Hin.
        apply list_elem_of_In in Hcell. specialize (Hin cell Hcell).
        destruct cell as [[ci cj] cc]. cbn in *. injection Heq. lia.
Qed.

(** X4. A position of at most eight rows, none wider than eight files,
    puts every piece on a square of the board and no two pieces on one
    square: each piece has row and file below 8, and the pairs of row and
    file are pairwise distinct. *)
Theorem fromFen_pieces_on_distinct_squares (b : Board) (fen : string) :
  let rows := Js.split "/" (placementOf fen) in
  (length rows ≤ 8)%nat →
  Forall (fun row => (rowWidth (Js.chars row) ≤ 8)%nat) rows →
  ∃ b',
    fromFen b fen = Normal b'
    ∧ pieces b' = map pieceOf (cellsFrom 0 rows)
    ∧ Forall (fun p => ∃ i j, (i < 8)%nat ∧ (j < 8)%nat
                              ∧ rank p = Js.ofNat i ∧ file p = Js.ofNat j)
             (pieces b')
    ∧ NoDup (map (fun p => (rank p, file p)) (pieces b')).
Proof.
  intros rows Hlen Hrows. rewrite fromFen_unfold. eexists.
  split; [reflexivity|]. cbn [pieces].
  assert (Hpieces : fenPieces fen = map pieceOf (cellsFrom 0 rows)).
  { unfold fenPieces. fold rows.
    change (imap pair rows)
      with (imap (fun n (row : string) => ((0 + n)%nat, row)) rows).
    rewrite (fenRows_cells rows 0 []); [done|].
    eapply Forall_impl; [exact Hrows|]. cbn. intros row. lia. }
  rewrite Hpieces. split; [done|].
  destruct (cellsFrom_squares rows 0 Hrows) as [Hin Hnodup]. split.
  - apply Forall_forall. intros p Hp.
    apply list_elem_of_In, in_map_iff in Hp as (cell & <- & Hcell).
    rewrite Forall_forall in Hin.
    apply list_elem_of_In in Hcell. specialize (Hin cell Hcell).
    exists cell.1.1, cell.1.2. cbn. repeat split; lia.
  - replace (map (fun p => (rank p, file p))
                 (map pieceOf (cellsFrom 0 rows)))
      with (map (fun sq : nat * nat => (Js.ofNat sq.1, Js.ofNat sq.2))
                (map fst (cellsFrom 0 rows)))
      by (rewrite !map_map; reflexivity).
    apply NoDup_fmap_2_strong; [|exact Hnodup].
    intros sq sq' Hsq Hsq' [= Hi Hj].
    apply list_elem_of_In, in_map_iff in Hsq as (c & <- & Hc).
    apply list_elem_of_In, in_map_iff in Hsq' as (c' & <- & Hc').
    rewrite Forall_forall in Hin.
    apply list_elem_of_In in Hc, Hc'.
    pose proof (Hin c Hc). pose proof (Hin c' Hc').
    apply ofNat_inj_small in Hi, Hj; try lia.
    destruct c as [[? ?] ?], c' as [[? ?] ?]. cbn in *. by subst.
Qed.

Lemma fromFen_pieces_on_distinct_squares_witness :
  let rows := Js.split "/" (placementOf startFen) in
  ∃ b',
    fromFen emptyBoard startFen = Normal b'
    ∧ pieces b' = map pieceOf (cellsFrom 0 rows)
    ∧ Forall (fun p => ∃ i j, (i < 8)%nat ∧ (j < 8)%nat
                              ∧ rank p = Js.ofNat i ∧ file p = Js.ofNat j)
             (pieces b')
    ∧ NoDup (map (fun p => (rank p, file p)) (pieces b')).
Proof.
  apply (fromFen_pieces_on_distinct_squares emptyBoard startFen).
  - vm_compute. lia.
  - vm_compute. repeat constructor.
Defined.

(* ------------------------------------------------------------------ *)
(** ** What a redraw draws, and when it throws                          *)
(* ------------------------------------------------------------------ *)

Lemma filter_none {A : Type} (p : A → bool) (l : list A) :
  (∀ x, In x l → p x = false) → List.filter p l = [].
Proof.
  induction l as [|x l IH]; intros Hall; cbn; [done|].
  rewrite (Hall x) by (by left). apply IH. intros y Hy. apply Hall. by right.
Qed.

Lemma filter_all {A : Type} (p : A → bool) (l : list A) :
  (∀ x, In x l → p x = true) → List.filter p l = l.
Proof.
  induction l as [|x l IH]; intros Hall; cbn; [done|].
  rewrite (Hall x) by (by left). f_equal. apply IH.
  intros y Hy. apply Hall. by right.
Qed.

Lemma filter_split_length {A : Type} (p : A → bool) (l : list A) :
  (length (List.filter p l)
   + length (List.filter (fun x => negb (p x)) l))%nat = length l.
Proof.
  induction l as [|x l IH]; cbn; [done|].
  destruct (p x); cbn; lia.
Qed.

Lemma filter_split_perm {A : Type} (p : A → bool) (l : list A) :
  List.filter (fun x => negb (p x)) l ++ List.filter p l ≡ₚ l.
Proof.
  induction l as [|x l IH]; cbn; [done|].
  destruct (p x); cbn.
  - rewrite <- Permutation_middle. by constructor.
  - by constructor.
Qed.

Lemma styledSquares_rects (b : Board) (e : SvgElement) :
  In e (styledSquares b) → ∃ r f, e = styledSquare b r f.
Proof.
  unfold styledSquares. rewrite in_flat_map. intros (r & _ & He).
  apply in_map_iff in He as (f & <- & _). by exists r, f.
Qed.

Lemma objectsOf_length (entries : list OutlineEntry) :
  Forall (fun entry => isOutlineName entry = false) entries →
  length (objectsOf entries) = length entries.
Proof.
  induction 1 as [|entry entries Hentry _ IH]; [done|].
  destruct entry as [outline|name]; [|discriminate Hentry].
  cbn. by rewrite <- IH.
Qed.

(** X5. A redraw draws everything once: when no entry of the set of
    outlines is the name of a square and every arrow carries a move, the
    redraw completes and the svg element gets 64 + outlines + pieces +
    arrows children; the pieces among them are the pieces of the board,
    each once and drawn as the specification has them; there are as many
    arrows as the board has; and a piece is given the class side-to-move
    exactly when its colour -- black for a lower-case letter, white
    otherwise -- is the colour to move. *)
Theorem render_draws_everything_once
  (Math_sin Math_cos : Js.number → Js.number) (b : Board) :
  drawable b →
  ∃ svg,
    render Math_sin Math_cos b = Normal svg
    ∧ length (children svg)
      = (64 + length (outlinedSquares b) + length (pieces b)
         + length (arrows b))%nat
    ∧ List.filter isUse (children svg) ≡ₚ map (glyph b) (pieces b)
    ∧ length (List.filter isArrow (children svg)) = length (arrows b)
    ∧ ∀ p, useClass (pieceUse b p)
           = if Bool.eqb (whiteToMove b)
                         (negb (isBlackSymbol (pieceSymbol p)))
             then Some " side-to-move"%string else None.
Proof.
  intros Hdrawable.
  destruct (render_primitives Math_sin Math_cos b Hdrawable)
    as (svg & beneath & above & Hrun & Hchildren & Hbeneath & Habove).
  exists svg. split; [exact Hrun|]. rewrite Hchildren.
  apply Forall2_length in Hbeneath, Habove.
  pose proof (filter_split_length (inBucket true) (arrows b)) as Harrows.
  rewrite <- (filter_ext _ _ inBucket_false) in Harrows.
  assert (Hsq : ∀ p, (∀ r f, p (styledSquare b r f) = false) →
                     List.filter p (styledSquares b) = []).
  { intros p Hp. apply filter_none. intros e He.
    destruct (styledSquares_rects b e He) as (r & f & ->). apply Hp. }
  split; [|split; [|split]].
  - rewrite !length_app, !length_map.
    pose proof (filter_split_length (toMove b) (pieces b)).
    unfold outlineObjects.
    rewrite (objectsOf_length _ (proj1 Hdrawable)).
    change (length (styledSquares b)) with 64%nat. lia.
  - rewrite !List.filter_app, (Hsq isUse) by done.
    rewrite (filter_none isUse (map (outlineBox b) _)),
            (filter_none isUse (map SvgArrow beneath)),
            (filter_none isUse (map SvgArrow above)),
            !(filter_all isUse (map (glyph b) _)).
    + cbn [app]. rewrite app_nil_r, <- map_app.
      apply Permutation_map, filter_split_perm.
    + intros e He. by apply in_map_iff in He as (p & <- & _).
    + intros e He. by apply in_map_iff in He as (p & <- & _).
    + intros e He. by apply in_map_iff in He as (p & <- & _).
    + intros e He. by apply in_map_iff in He as (p & <- & _).
    + intros e He. by apply in_map_iff in He as (o & <- & _).
  - rewrite !List.filter_app, (Hsq isArrow) by done.
    rewrite (filter_none isArrow (map (outlineBox b) _)),
            !(filter_none isArrow (map (glyph b) _)),
            !(filter_all isArrow (map SvgArrow _)).
    + cbn [app]. rewrite length_app, !length_map. lia.
    + intros e He. by apply in_map_iff in He as (p & <- & _).
    + intros e He. by apply in_map_iff in He as (p & <- & _).
    + intros e He. by apply in_map_iff in He as (p & <- & _).
    + intros e He. by apply in_map_iff in He as (p & <- & _).
    + intros e He. by apply in_map_iff in He as (o & <- & _).
  - intros p. rewrite pieceUse_glyph. reflexivity.
Qed.

Lemma render_draws_everything_once_witness :
  ∃ svg,
    render Host.sin Host.cos outlinedBoard = Normal svg
    ∧ length (children svg)
      = (64 + length (outlinedSquares outlinedBoard)
         + length (pieces outlinedBoard) + length (arrows outlinedBoard))%nat
    ∧ List.filter isUse (children svg)
      ≡ₚ map (glyph outlinedBoard) (pieces outlinedBoard)
    ∧ length (List.filter isArrow (children svg))
      = length (arrows outlinedBoard)
    ∧ ∀ p, useClass (pieceUse outlinedBoard p)
           = if Bool.eqb (whiteToMove outlinedBoard)
                         (negb (isBlackSymbol (pieceSymbol p)))
             then Some " side-to-move"%string else None.
Proof.
  apply (render_draws_everything_once Host.sin Host.cos outlinedBoard).
  split.
  - repeat constructor.
  - repeat (apply Forall_cons_2; [by eexists|]). apply Forall_nil_2.
Defined.

Lemma renderMovePlayedOutline_names (b : Board) (move' : string) :
  Exists (fun entry => isOutlineName entry = true)
         (outlinedSquares (renderMovePlayedOutline b move')).
Proof.
  unfold renderMovePlayedOutline.
  cbn [outlinedSquares addOutline clearOutlines hasOutlineName existsb app].
  destruct (String.eqb _ _); cbn; by left.
Qed.

(** X6. A redraw fails on exactly two accounts: it completes when no
    entry of the set of outlines is the name of a square and every arrow
    carries a move, and throws a TypeError as soon as one entry is a name
    or one arrow, beneath or above the pieces, has no move.  The first
    is what [renderMovePlayedOutline] leaves behind: after it the redraw
    of the board throws, whatever the move and the board were. *)
Theorem render_throws_on_name_or_missing_move
  (Math_sin Math_cos : Js.number → Js.number) (b : Board) :
  ((∃ svg, render Math_sin Math_cos b = Normal svg)
   ↔ Forall (fun entry => isOutlineName entry = false) (outlinedSquares b)
     ∧ Forall (fun a => is_Some (move a)) (arrows b))
  ∧ (render Math_sin Math_cos b = Throw TypeError
     ↔ Exists (fun entry => isOutlineName entry = true) (outlinedSquares b)
       ∨ Exists (fun a => move a = None) (arrows b))
  ∧ ∀ move',
      render Math_sin Math_cos (renderMovePlayedOutline b move')
      = Throw TypeError.
Proof.
  split; [split|split; [split|]].
  - intros [svg Hrun]. by eapply render_completes_drawable.
  - intros [Hobjects Hmoves].
    destruct (render_phases Math_sin Math_cos b Hobjects Hmoves)
      as (svg & _ & _ & H & _).
    by exists svg.
  - intros Hrun. apply not_drawable. intros [Hobjects Hmoves].
    destruct (render_phases Math_sin Math_cos b Hobjects Hmoves)
      as (svg & _ & _ & H & _).
    rewrite H in Hrun. discriminate Hrun.
  - apply render_throws.
  - intros move'. apply render_throws. left.
    apply renderMovePlayedOutline_names.
Qed.

(* ------------------------------------------------------------------ *)
(** ** The counts of the lanes: bounds, entries and failures            *)
(* ------------------------------------------------------------------ *)

(** X7. Whatever the candidates (a pair listed twice included), every
    count that [buildArrowOffsets] returns has its offset index below its
    lane total, and so a total of at least 1. *)
Theorem buildArrowOffsets_offset_below_total
  (Math_atan2 : Js.number → Js.number → Js.number)
  (update : WsEvaluationData) (arrowInfos : list ArrowInfo)
  (usVars themVars : gmap nat Counts) :
  buildArrowOffsets Math_atan2 update arrowInfos
  = Normal (usVars, themVars) →
  map_Forall (fun _ c => (current c < total c)%nat) usVars
  ∧ map_Forall (fun _ c => (current c < total c)%nat) themVars.
Proof.
  intros Hrun.
  pose proof (buildArrowOffsets_keyed _ _ _ _ Hrun) as Hkeyed.
  unfold buildArrowOffsets in Hrun.
  destruct (countLanes_totals Math_atan2 update arrowInfos Hkeyed ∅)
    as (d & Hcount & Hd).
  rewrite Hcount in Hrun. cbn [mbind completion_bind] in Hrun.
  apply (assignOffsets_bounded Math_atan2 update arrowInfos _ _ _ _ Hrun).
  - intros key. destruct (Hd key) as (-> & -> & _).
    unfold totalOf, currentOf. rewrite lookup_empty. cbn. lia.
  - intros i c Hc. by rewrite lookup_empty in Hc.
  - intros i c Hc. by rewrite lookup_empty in Hc.
Qed.

Lemma buildArrowOffsets_offset_below_total_witness :
  map_Forall (fun _ c => (current c < total c)%nat) twoLinesCounts
  ∧ map_Forall (fun _ c => (current c < total c)%nat) twoLinesCounts.
Proof.
  apply (buildArrowOffsets_offset_below_total Host.atan2 twoLines
           twoLinesArrows).
  vm_compute. reflexivity.
Defined.


(** X9. The counts returned by [buildArrowOffsets] have an entry in
    [usVars] for exactly the variations that have a ply-0 candidate, and in
    [themVars] for exactly those that have a ply-1 candidate. *)
Theorem buildArrowOffsets_entries
  (Math_atan2 : Js.number → Js.number → Js.number)
  (update : WsEvaluationData) (arrowInfos : list ArrowInfo)
  (usVars themVars : gmap nat Counts) :
  buildArrowOffsets Math_atan2 update arrowInfos
  = Normal (usVars, themVars) →
  (∀ i, is_Some (usVars !! i)
        ↔ ∃ a, a ∈ arrowInfos ∧ ply a = 0%nat ∧ variationIdx a = i)
  ∧ (∀ i, is_Some (themVars !! i)
          ↔ ∃ a, a ∈ arrowInfos ∧ ply a = 1%nat ∧ variationIdx a = i).
Proof.
  unfold buildArrowOffsets. intros Hrun.
  destruct (countLanes Math_atan2 update arrowInfos ∅) as [d|];
    [|discriminate Hrun].
  cbn [mbind completion_bind] in Hrun.
  pose proof (assignOffsets_entries _ _ _ _ _ _ _ Hrun) as Hentries.
  split; intros i; destruct (Hentries i) as [Hus Hthem]; cbn in *.
  - rewrite Hus, lookup_empty. split; [intros [[? [=]]|?]; done|by right].
  - rewrite Hthem, lookup_empty. split; [intros [[? [=]]|?]; done|by right].
Qed.

Lemma buildArrowOffsets_entries_witness :
  (∀ i, is_Some (twoLinesCounts !! i)
        ↔ ∃ a, a ∈ twoLinesArrows ∧ ply a = 0%nat ∧ variationIdx a = i)
  ∧ (∀ i, is_Some (twoLinesCounts !! i)
          ↔ ∃ a, a ∈ twoLinesArrows ∧ ply a = 1%nat ∧ variationIdx a = i).
Proof.
  apply (buildArrowOffsets_entries Host.atan2 twoLines twoLinesArrows).
  vm_compute. reflexivity.
Defined.

(* ------------------------------------------------------------------ *)
(** ** The arrows of an update: when they are added and how they look   *)
(* ------------------------------------------------------------------ *)


Lemma foldl_addArrow_fields (added : list ArrowLocation) (board : Board) :
  pieces (foldl addArrow board added) = pieces board
  ∧ highlightedSquares (foldl addArrow board added)
    = highlightedSquares board
  ∧ outlinedSquares (foldl addArrow board added) = outlinedSquares board
  ∧ whiteToMove (foldl addArrow board added) = whiteToMove board.
Proof.
  revert board. induction added as [|loc added IH]; intros board; [done|].
  cbn [foldl]. by destruct (IH (addArrow board loc)) as (-> & -> & -> & ->).
Qed.

Lemma foldl_addArrow_frame (added : list ArrowLocation) (board : Board) :
  boardClass (foldl addArrow board added) = boardClass board
  ∧ flipped (foldl addArrow board added) = flipped board
  ∧ border (foldl addArrow board added) = border board.
Proof.
  revert board. induction added as [|loc added IH]; intros board; [done|].
  cbn [foldl]. by destruct (IH (addArrow board loc)) as (-> & -> & ->).
Qed.

Lemma thinkingArrows_styled
  (Math_atan2 Math_pow : Js.number → Js.number → Js.number)
  (selectArrowsToRender : WsEvaluationData → list ArrowInfo)
  (update : WsEvaluationData) (board board' : Board) :
  renderThinkingarrows Math_atan2 Math_pow selectArrowsToRender update board
  = Normal board' →
  keyed Math_atan2 update (selectArrowsToRender update)
  ∧ ∃ added,
      board' = foldl addArrow board added
      ∧ Forall2 (styled update) (selectArrowsToRender update) added.
Proof.
  unfold renderThinkingarrows. intros Hrun.
  destruct (buildArrowOffsets Math_atan2 update _) as [[us them]|] eqn:Hbuild;
    [|discriminate Hrun].
  cbn [mbind completion_bind] in Hrun.
  split; [by eapply buildArrowOffsets_keyed|].
  destruct (addThinkingArrows_inv _ _ _ _ _ _ _ _ Hrun)
    as (added & -> & Hadded).
  exists added. split; [done|].
  eapply Forall2_impl; [exact Hadded|]. intros a loc Hloc.
  destruct (thinkingArrow_inv _ _ _ _ _ _ _ Hloc) as (_ & ? & ? & _ & ?).
  done.
Qed.

(** X11. Once the board's arrows are cleared, as every update does first,
    [renderThinkingarrows] leaves on the board exactly one arrow for each
    candidate, in order, and touches nothing else of the board: the arrow of
    a ply-0 candidate is drawn beneath the pieces and every other above
    them, its classes name the variation and the ply (capped at 2), and
    its move is the move of that ply, or none when the line is shorter. *)
Theorem renderThinkingarrows_after_clearArrows
  (Math_atan2 Math_pow : Js.number → Js.number → Js.number)
  (selectArrowsToRender : WsEvaluationData → list ArrowInfo)
  (update : WsEvaluationData) (board board' : Board) :
  renderThinkingarrows Math_atan2 Math_pow selectArrowsToRender update
    (clearArrows board) = Normal board' →
  Forall2 (styled update) (selectArrowsToRender update) (arrows board')
  ∧ pieces board' = pieces board
  ∧ highlightedSquares board' = highlightedSquares board
  ∧ outlinedSquares board' = outlinedSquares board
  ∧ whiteToMove board' = whiteToMove board
  ∧ boardClass board' = boardClass board
  ∧ flipped board' = flipped board
  ∧ border board' = border board.
Proof.
  intros Hrun.
  destruct (thinkingArrows_styled _ _ _ _ _ _ Hrun)
    as (_ & added & -> & Hadded).
  rewrite arrows_foldl_addArrow. cbn [arrows clearArrows app].
  split; [exact Hadded|].
  destruct (foldl_addArrow_fields added (clearArrows board))
    as (-> & -> & -> & ->).
  by destruct (foldl_addArrow_frame added (clearArrows board))
    as (-> & -> & ->).
Qed.

Lemma renderThinkingarrows_after_clearArrows_witness :
  Forall2 (styled twoLines) twoLinesArrows
    (arrows (updated twoLines twoLinesArrows sampleBoard))
  ∧ pieces (updated twoLines twoLinesArrows sampleBoard) = pieces sampleBoard
  ∧ highlightedSquares (updated twoLines twoLinesArrows sampleBoard)
    = highlightedSquares sampleBoard
  ∧ outlinedSquares (updated twoLines twoLinesArrows sampleBoard)
    = outlinedSquares sampleBoard
  ∧ whiteToMove (updated twoLines twoLinesArrows sampleBoard)
    = whiteToMove sampleBoard
  ∧ boardClass (updated twoLines twoLinesArrows sampleBoard)
    = boardClass sampleBoard
  ∧ flipped (updated twoLines twoLinesArrows sampleBoard)
    = flipped sampleBoard
  ∧ border (updated twoLines twoLinesArrows sampleBoard)
    = border sampleBoard.
Proof.
  apply (renderThinkingarrows_after_clearArrows Host.atan2 Host.pow
           (fun _ => twoLinesArrows) twoLines sampleBoard).
  vm_compute. reflexivity.
Defined.

(** X12. An update is cleared, laid out and redrawn in a row.  The redraw
    that follows a completed [renderThinkingarrows] on the cleared board
    throws a TypeError exactly when the set of outlines of the board holds
    the name of a square or a candidate from ply 2 on lies beyond the
    moves of its line ([renderThinkingarrows] adds it without a move), and
    completes in every other case.  When [renderMovePlayedOutline] comes
    between the clearing and the arrows, as it does for a move played, the
    redraw throws whatever the candidates are. *)
Theorem redraw_after_update_throws_on_short_line
  (Math_atan2 Math_pow : Js.number → Js.number → Js.number)
  (Math_sin Math_cos : Js.number → Js.number)
  (selectArrowsToRender : WsEvaluationData → list ArrowInfo)
  (update : WsEvaluationData) (board board' : Board) :
  renderThinkingarrows Math_atan2 Math_pow selectArrowsToRender update
    (clearArrows board) = Normal board' →
  (render Math_sin Math_cos board' = Throw TypeError
   ↔ Exists (fun entry => isOutlineName entry = true) (outlinedSquares board)
     ∨ ∃ a v, a ∈ selectArrowsToRender update
              ∧ (2 ≤ ply a)%nat
              ∧ variations update !! variationIdx a = Some v
              ∧ Js.split " " (pvUci v) !! ply a = None)
  ∧ ((∃ svg, render Math_sin Math_cos board' = Normal svg)
     ↔ Forall (fun entry => isOutlineName entry = false)
              (outlinedSquares board)
       ∧ ∀ a v, a ∈ selectArrowsToRender update →
                variations update !! variationIdx a = Some v →
                is_Some (Js.split " " (pvUci v) !! ply a))
  ∧ ∀ move' played,
      renderThinkingarrows Math_atan2 Math_pow selectArrowsToRender update
        (renderMovePlayedOutline (clearArrows board) move') = Normal played →
      render Math_sin Math_cos played = Throw TypeError.
Proof.
  intros Hrun.
  destruct (thinkingArrows_styled _ _ _ _ _ _ Hrun)
    as (Hkeyed & added & -> & Hadded).
  set (b' := foldl addArrow (clearArrows board) added).
  assert (Harrows : arrows b' = added).
  { unfold b'. by rewrite arrows_foldl_addArrow. }
  assert (Houtlines : outlinedSquares b' = outlinedSquares board).
  { unfold b'.
    by destruct (foldl_addArrow_fields added (clearArrows board))
      as (_ & _ & -> & _). }
  assert (Hmissing : Exists (fun loc => move loc = None) added
                     ↔ ∃ a v, a ∈ selectArrowsToRender update
                              ∧ (2 ≤ ply a)%nat
                              ∧ variations update !! variationIdx a = Some v
                              ∧ Js.split " " (pvUci v) !! ply a = None).
  { rewrite Exists_exists. split.
    - intros (loc & Hloc & Hnone).
      apply list_elem_of_lookup in Hloc as [i Hi].
      destruct (Forall2_lookup_r _ _ _ _ _ Hadded Hi) as (a & Ha & Hst).
      destruct Hst as (_ & _ & v & Hv & Hmove).
      exists a, v. apply list_elem_of_lookup_2 in Ha.
      rewrite Hnone in Hmove. repeat split; try done.
      destruct (decide (2 ≤ ply a)%nat) as [|Hlow]; [done|exfalso].
      destruct (Hkeyed a Ha) as [key Hkey].
      { unfold isLaned. apply negb_true_iff, Nat.leb_gt. lia. }
      apply laneKey_inv in Hkey as (v' & m & Hv' & Hm). congruence.
    - intros (a & v & Ha & _ & Hv & Hnone).
      apply list_elem_of_lookup in Ha as [i Hi].
      destruct (Forall2_lookup_l _ _ _ _ _ Hadded Hi) as (loc & Hloc & Hst).
      destruct Hst as (_ & _ & v' & Hv' & Hmove).
      exists loc. split; [by eapply list_elem_of_lookup_2|]. congruence. }
  assert (Hnamed : Forall (fun a => is_Some (move a)) added
                   ↔ ∀ a v, a ∈ selectArrowsToRender update →
                            variations update !! variationIdx a = Some v →
                            is_Some (Js.split " " (pvUci v) !! ply a)).
  { split.
    - intros Hall a v Ha Hv.
      apply list_elem_of_lookup in Ha as [i Hi].
      destruct (Forall2_lookup_l _ _ _ _ _ Hadded Hi) as (loc & Hloc & Hst).
      destruct Hst as (_ & _ & v' & Hv' & Hmove).
      rewrite Forall_forall in Hall.
      specialize (Hall loc (list_elem_of_lookup_2 _ _ _ Hloc)).
      assert (v' = v) as -> by congruence. by rewrite <- Hmove.
    - intros Hall.
      destruct (moves_all_or_missing added) as [H|H]; [done|exfalso].
      apply Hmissing in H as (a & v & Ha & _ & Hv & Hnone).
      destruct (Hall a v Ha Hv) as [m Hm]. congruence. }
  split; [|split].
  - rewrite <- Hmissing, <- Harrows, <- Houtlines. split; [|apply render_throws].
    intros Hr. apply not_drawable. intros [Hobjects Hmoves].
    destruct (render_phases Math_sin Math_cos b' Hobjects Hmoves)
      as (svg & _ & _ & H' & _).
    rewrite H' in Hr. discriminate Hr.
  - rewrite <- Hnamed, <- Harrows, <- Houtlines. split.
    + intros [svg Hsvg]. by eapply render_completes_drawable.
    + intros [Hobjects Hmoves].
      destruct (render_phases Math_sin Math_cos b' Hobjects Hmoves)
        as (svg & _ & _ & H' & _).
      by exists svg.
  - intros move' played Hplayed.
    destruct (thinkingArrows_styled _ _ _ _ _ _ Hplayed)
      as (_ & added' & -> & _).
    apply render_throws. left.
    destruct (foldl_addArrow_fields added'
                (renderMovePlayedOutline (clearArrows board) move'))
      as (_ & _ & -> & _).
    apply renderMovePlayedOutline_names.
Qed.

Lemma redraw_after_update_throws_on_short_line_witness :
  (render Host.sin Host.cos (updated shortLine shortLineArrows sampleBoard)
   = Throw TypeError
   ↔ Exists (fun entry => isOutlineName entry = true)
            (outlinedSquares sampleBoard)
     ∨ ∃ a v, a ∈ shortLineArrows
              ∧ (2 ≤ ply a)%nat
              ∧ variations shortLine !! variationIdx a = Some v
              ∧ Js.split " " (pvUci v) !! ply a = None)
  ∧ ((∃ svg, render Host.sin Host.cos
               (updated shortLine shortLineArrows sampleBoard) = Normal svg)
     ↔ Forall (fun entry => isOutlineName entry = false)
              (outlinedSquares sampleBoard)
       ∧ ∀ a v, a ∈ shortLineArrows →
                variations shortLine !! variationIdx a = Some v →
                is_Some (Js.split " " (pvUci v) !! ply a))
  ∧ ∀ move' played,
      renderThinkingarrows Host.atan2 Host.pow (fun _ => shortLineArrows)
        shortLine (renderMovePlayedOutline (clearArrows sampleBoard) move')
      = Normal played →
      render Host.sin Host.cos played = Throw TypeError.
Proof.
  apply (redraw_after_update_throws_on_short_line Host.atan2 Host.pow
           Host.sin Host.cos (fun _ => shortLineArrows) shortLine
           sampleBoard).
  vm_compute. reflexivity.
Defined.

(* ------------------------------------------------------------------ *)
(** ** The clocks                                                       *)
(* ------------------------------------------------------------------ *)

Lemma allFrom_spec (p : Z → bool) (fuel : nat) (z : Z) :
  allFrom fuel z p = true →
  ∀ k, (z ≤ k < z + Z.of_nat fuel)%Z → p k = true.
Proof.
  revert z. induction fuel as [|fuel IH]; intros z Hall k Hk; [lia|].
  cbn [allFrom] in Hall. apply andb_true_iff in Hall as [Hz Hrest].
  destruct (decide (k = z)) as [->|Hne]; [done|].
  apply (IH (z + 1)%Z Hrest). lia.
Qed.

Lemma twoDigits_padStart (k : Z) :
  (0 ≤ k < 100)%Z →
  Js.padStart 2 "0" (Js.toString (Js.ofZ k)) = twoDigits k.
Proof.
  intros Hk. apply String.eqb_eq.
  apply (allFrom_spec
           (fun k => String.eqb (Js.padStart 2 "0" (Js.toString (Js.ofZ k)))
                                (twoDigits k)) 100 0); [|lia].
  vm_compute. reflexivity.
Qed.

Lemma fieldsOf_day : allFrom secondsInADay 0 fieldsOf = true.
Proof. vm_compute. reflexivity. Qed.

(** The three padded fields of [formatTime] on whole seconds of a day. *)
Lemma formatTime_fields (n : Z) :
  (0 ≤ n < 86400)%Z →
  let x := Js.ofZ n in
  Js.padStart 2 "0" (Js.toString (Js.Math_floor (x / 3600)))
  = twoDigits (n / 3600)
  ∧ (Js.Math_floor (x / 3600) =? 0) = (n <? 3600)%Z
  ∧ Js.padStart 2 "0" (Js.toString (Js.Math_floor (Js.rem x 3600 / 60)))
    = twoDigits (n / 60 mod 60)
  ∧ Js.padStart 2 "0" (Js.toString (Js.Math_floor (Js.rem x 60)))
    = twoDigits (n mod 60).
Proof.
  intros Hn x.
  assert (Hfields : fieldsOf n = true).
  { apply (allFrom_spec fieldsOf _ _ fieldsOf_day n).
    unfold secondsInADay. lia. }
  unfold fieldsOf in Hfields. fold x in Hfields. cbv zeta in Hfields.
  apply andb_true_iff in Hfields as [Hfields Hs].
  apply andb_true_iff in Hfields as [Hfields Hm].
  apply andb_true_iff in Hfields as [Hh Hz].
  apply FloatAxioms.Leibniz.eqb_spec in Hh, Hm, Hs.
  rewrite Hh, Hm, Hs.
  split; [apply twoDigits_padStart|].
  { split; [by apply Z.div_pos; lia|]. apply Z.div_lt_upper_bound; lia. }
  split; [rewrite <- Hh; by apply eqb_prop|].
  split; apply twoDigits_padStart.
  - pose proof (Z.mod_pos_bound (n / 60) 60). lia.
  - pose proof (Z.mod_pos_bound n 60). lia.
Qed.

(** X13. For every whole number of seconds of a day [formatTime] gives the
    zero-padded HH:MM:SS; when the hours are not asked for it gives MM:SS
    below one hour and the same HH:MM:SS from one hour on. *)
Theorem formatTime_whole_seconds (n : Z) (alwaysShowHours : bool) :
  (0 ≤ n < 86400)%Z →
  formatTime (Some (Js.ofZ n)) alwaysShowHours
  = if alwaysShowHours || (3600 <=? n)%Z then clockFace n else minuteFace n.
Proof.
  intros Hn. destruct (formatTime_fields n Hn) as (Hh & Hz & Hm & Hs).
  unfold formatTime. rewrite Hh, Hz, Hm, Hs.
  destruct alwaysShowHours; cbn [negb orb andb].
  - by rewrite andb_false_r.
  - rewrite andb_true_r. destruct (Z.ltb_spec n 3600) as [Hlt|Hge].
    + rewrite (proj2 (Z.leb_gt 3600 n)) by lia.
      unfold minuteFace. by rewrite (Z.mod_small (n / 60) 60)
        by (split; [apply Z.div_pos; lia|apply Z.div_lt_upper_bound; lia]).
    + by rewrite (proj2 (Z.leb_le 3600 n)) by lia.
Qed.

Lemma formatTime_whole_seconds_witness :
  (0 ≤ 3725 < 86400)%Z
  ∧ formatTime (Some (Js.ofZ 3725)) false
    = if false || (3600 <=? 3725)%Z then clockFace 3725
      else minuteFace 3725.
Proof.
  split; [lia|]. apply (formatTime_whole_seconds 3725 false). lia.
Defined.

Lemma thinkingTime_seconds (k : Z) :
  (1 ≤ k < 3600)%Z →
  Js.truthy (Js.ofZ (1000 * k)) = true
  ∧ Js.ofZ (1000 * k) / 1000 = Js.ofZ k.
Proof.
  intros Hk.
  pose proof (allFrom_spec
    (fun k => Js.truthy (Js.ofZ (1000 * k))
              && PrimFloat.Leibniz.eqb (Js.ofZ (1000 * k) / 1000) (Js.ofZ k))
    3599 1) as Hall.
  destruct (proj1 (andb_true_iff _ _) (Hall ltac:(vm_compute; reflexivity)
                                            k ltac:(lia))) as [Ht He].
  split; [done|]. by apply FloatAxioms.Leibniz.eqb_spec.
Qed.

(** X14. With a thinking time of [k] whole seconds under an hour
    [formatClock] shows it first, in parentheses and as MM:SS, and then
    the clock less the thinking time; a thinking time of 0 is not shown at
    all, and neither is any when the clock itself is missing. *)
Theorem formatClock_thinking_time (seconds : Js.number) (k : Z) :
  (1 ≤ k < 3600)%Z →
  formatClock (Some seconds) (Some (Js.ofZ (1000 * k)))
  = ("(" ++ minuteFace k ++ ") "
     ++ formatTime (Some (seconds - Js.ofZ k)) true)%string
  ∧ formatClock (Some seconds) (Some 0) = formatTime (Some seconds) true
  ∧ formatClock None (Some (Js.ofZ (1000 * k))) = EmptyString.
Proof.
  intros Hk. destruct (thinkingTime_seconds k Hk) as [Ht He].
  split; [|split; [|done]].
  - unfold formatClock. rewrite Ht, He.
    destruct (formatTime_fields k ltac:(lia)) as (_ & Hz & Hm & Hs).
    do 3 f_equal.
    unfold formatTime at 1. rewrite Hz, Hm, Hs.
    rewrite (proj2 (Z.ltb_lt k 3600)) by lia. cbn [negb andb].
    unfold minuteFace. by rewrite (Z.mod_small (k / 60) 60)
      by (split; [apply Z.div_pos; lia|apply Z.div_lt_upper_bound; lia]).
  - unfold formatClock.
    by replace (Js.truthy 0) with false by (vm_compute; reflexivity).
Qed.

Lemma formatClock_thinking_time_witness :
  (1 ≤ 61 < 3600)%Z
  ∧ formatClock (Some 100) (Some (Js.ofZ (1000 * 61)))
    = ("(" ++ minuteFace 61 ++ ") "
       ++ formatTime (Some (100 - Js.ofZ 61)) true)%string
  ∧ formatClock (Some 100) (Some 0) = formatTime (Some 100) true
  ∧ formatClock None (Some (Js.ofZ (1000 * 61))) = EmptyString.
Proof.
  split; [lia|]. apply (formatClock_thinking_time 100 61). lia.
Defined.

(** X15. [formatTime] does not stop at zero: a time of [n] whole seconds
    below zero, up to an hour, is shown with -1 for the hours, the minutes
    rounded away from zero and a sign on every field that is not zero, so
    that one second below zero reads -1:-1:-1. *)
Theorem formatTime_below_zero (n : Z) (alwaysShowHours : bool) :
  (1 ≤ n < 3600)%Z →
  formatTime (Some (Js.ofZ (- n))) alwaysShowHours = overdrawnFace n.
Proof.
  intros Hn. apply String.eqb_eq.
  pose proof (allFrom_spec
    (fun n => String.eqb (formatTime (Some (Js.ofZ (- n))) true)
                         (overdrawnFace n)
              && String.eqb (formatTime (Some (Js.ofZ (- n))) false)
                            (overdrawnFace n))
    3599 1) as Hall.
  destruct (proj1 (andb_true_iff _ _) (Hall ltac:(vm_compute; reflexivity)
                                            n ltac:(lia))) as [Ht Hf].
  by destruct alwaysShowHours.
Qed.

Lemma formatTime_below_zero_witness :
  (1 ≤ 61 < 3600)%Z
  ∧ formatTime (Some (Js.ofZ (- 61))) true = overdrawnFace 61.
Proof.
  split; [lia|]. apply (formatTime_below_zero 61 true). lia.
Defined.

(* ------------------------------------------------------------------ *)
(** ** An arrow alone in its lane                                       *)
(* ------------------------------------------------------------------ *)

Lemma finite_times_zero (s : Js.number) :
  PrimFloat.is_finite s = true → ∃ sg, Prim2SF (s * 0) = S754_zero sg.
Proof.
  unfold PrimFloat.is_finite, PrimFloat.is_nan, PrimFloat.is_infinity.
  rewrite !FloatAxioms.eqb_spec, abs_spec, mul_spec.
  change (Prim2SF 0) with (S754_zero false).
  change (Prim2SF infinity) with (S754_infinity false).
  destruct (Prim2SF s) as [[]|[]| |[] m e]; cbn; intros H;
    try discriminate H; by eexists.
Qed.

Lemma add_zero_then_half (a d : Js.number) (sg : bool) :
  Prim2SF d = S754_zero sg →
  a + d + SQUARE_SIZE / 2 = a + SQUARE_SIZE / 2.
Proof.
  intros Hd. apply Prim2SF_inj. rewrite !add_spec, Hd.
  change (Prim2SF (SQUARE_SIZE / 2)) with (S754_finite false 6333186975989760 (-48)).
  by destruct (Prim2SF a) as [[]|[]| |[] m e], sg.
Qed.

(** With offset 0 of 1 the lateral displacement is a zero, which the
    half square added next absorbs. *)
Lemma lone_displacement (s a : Js.number) :
  PrimFloat.is_finite s = true →
  a + s * (((0 + 1) / (1 + 1) - 0.5) * BEAM_SPREAD) + SQUARE_SIZE / 2
  = a + SQUARE_SIZE / 2.
Proof.
  intros Hs.
  change (((0 + 1) / (1 + 1) - 0.5) * BEAM_SPREAD) with 0.
  destruct (finite_times_zero _ Hs) as [sg Hd].
  exact (add_zero_then_half _ _ _ Hd).
Qed.

(** X16. An arrow alone in its lane (offset 0 of 1) is not moved aside:
    on a host whose sine and cosine are finite at its direction,
    [renderArrows] draws it from the centre of the square it leaves to the
    centre of the square it reaches, whatever that direction is. *)
Theorem lone_arrow_runs_centre_to_centre
  (Math_sin Math_cos : Js.number → Js.number) (b : Board)
  (arrow : ArrowLocation) (move' : string) :
  move arrow = Some move' →
  lone arrow →
  PrimFloat.is_finite
    (Math_sin (offsetDirection arrow * Js.Math_PI / 180)) = true →
  PrimFloat.is_finite
    (Math_cos (offsetDirection arrow * Js.Math_PI / 180)) = true →
  ∃ ar, arrowShape Math_sin Math_cos b arrow = Normal ar
        ∧ centred b move' ar.
Proof.
  intros Hmove [Hoffset Htotal] Hsin Hcos.
  unfold arrowShape, centred. rewrite Hmove, Hoffset, Htotal.
  cbn -[squareToFileRank Js.slice].
  destruct (squareToFileRank (Js.slice move' 0 2)) as [file1 rank1].
  destruct (squareToFileRank (Js.slice move' 2 4)) as [file2 rank2].
  eexists. split; [reflexivity|]. cbn [x1 y1 x2 y2].
  unfold fileOnScreen, rowOnScreen.
  by rewrite !(lone_displacement _ _ Hsin), !(lone_displacement _ _ Hcos).
Qed.

Lemma lone_arrow_runs_centre_to_centre_witness :
  ∃ ar, arrowShape Host.sin Host.cos sampleBoard
          (shaft "g1f3" true 0 1 27) = Normal ar
        ∧ centred sampleBoard "g1f3" ar.
Proof.
  apply (lone_arrow_runs_centre_to_centre Host.sin Host.cos sampleBoard
           (shaft "g1f3" true 0 1 27) "g1f3").
  - reflexivity.
  - split; reflexivity.
  - vm_compute. reflexivity.
  - vm_compute. reflexivity.
Defined.

(* ------------------------------------------------------------------ *)
(** ** The two boards of the area                                       *)
(* ------------------------------------------------------------------ *)

Lemma render_class (Math_sin Math_cos : Js.number → Js.number) (b : Board)
  (svg : Svg) :
  render Math_sin Math_cos b = Normal svg →
  svgClass svg = ("board " ++ boardClass b)%string.
Proof.
  unfold render. intros Hrun.
  destruct (renderOutlines b _) as [s0|]; [|discriminate Hrun].
  cbn [mbind completion_bind] in Hrun.
  destruct (renderArrows _ _ _ _ false) as [s1|]; [|discriminate Hrun].
  cbn [mbind completion_bind] in Hrun.
  destruct (renderArrows _ _ _ _ true) as [s2|]; [|discriminate Hrun].
  by injection Hrun as <-.
Qed.

Lemma pvArrows_moves (moves' : list string) :
  Forall (fun a => is_Some (move a))
    (take (length moves')
       [pvArrow0 moves'; pvArrow1 moves'; pvArrow2 moves'; pvArrow3 moves']).
Proof.
  destruct moves' as [|m0 [|m1 [|m2 [|m3 rest]]]]; cbn;
    rewrite ?take_nil; repeat (apply Forall_cons_2; [by eexists|]);
    apply Forall_nil_2.
Qed.

Section TwoBoards.

Variables Math_sin Math_cos : Js.number → Js.number.

(** The second board after [setPvVisualization]. *)
Lemma setPvVisualization_unfold (area : BoardArea)
  (lastMove' : option string) (baseFen : string) (moves' : list string) :
  ∃ pv,
    setPvVisualization Math_sin Math_cos area lastMove' baseFen moves'
    = ({| board := board area; pvBoard := pv;
          pvVisualization := Some {| lastMove := lastMove'; fen := baseFen;
                                     moves := moves' |} |},
       render Math_sin Math_cos pv)
    ∧ boardClass pv = boardClass (pvBoard area)
    ∧ flipped pv = flipped (pvBoard area)
    ∧ border pv = border (pvBoard area)
    ∧ pieces pv = fenPieces baseFen
    ∧ whiteToMove pv
      = bool_decide (Js.split " " baseFen !! 1%nat = Some "w"%string)
    ∧ outlinedSquares pv = []
    ∧ highlightedSquares pv = lastMoveSquares lastMove'
    ∧ arrows pv
      = take (length moves')
          [pvArrow0 moves'; pvArrow1 moves'; pvArrow2 moves';
           pvArrow3 moves'].
Proof.
  unfold setPvVisualization. cbn [pvBoard board pvVisualization].
  rewrite fromFen_unfold. eexists. split; [reflexivity|].
  assert (Hsquares : ∀ x y : string,
            (∅ : gset string) ∪ {[x]} ∪ {[y]} = {[x; y]}).
  { intros x y. by rewrite (left_id_L ∅ (∪)). }
  destruct moves' as [|m0 [|m1 [|m2 [|m3 rest]]]];
    destruct lastMove' as [[|c r]|]; cbn; by rewrite ?Hsquares, ?take_nil.
Qed.

End TwoBoards.

(** X17. [setPvVisualization] starts the second board afresh from the
    position string: its pieces are those of the string, its only
    highlights the two squares of the last move (none for an empty or
    missing one), it has no outlines, and it carries one arrow for each of
    the first four moves of the line, in order and each alone in its lane,
    the first beneath the pieces and the others above them; the main board
    is not touched. *)
Theorem setPvVisualization_second_board
  (Math_sin Math_cos : Js.number → Js.number) (area : BoardArea)
  (lastMove' : option string) (baseFen : string) (moves' : list string) :
  ∃ area' drawn,
    setPvVisualization Math_sin Math_cos area lastMove' baseFen moves'
    = (area', drawn)
    ∧ board area' = board area
    ∧ pieces (pvBoard area') = fenPieces baseFen
    ∧ highlightedSquares (pvBoard area') = lastMoveSquares lastMove'
    ∧ outlinedSquares (pvBoard area') = []
    ∧ map move (arrows (pvBoard area')) = map Some (take 4 moves')
    ∧ Forall lone (arrows (pvBoard area'))
    ∧ map renderAfterPieces (arrows (pvBoard area'))
      = take (length moves') [false; true; true; true].
Proof.
  destruct (setPvVisualization_unfold Math_sin Math_cos area lastMove'
              baseFen moves')
    as (pv & -> & _ & _ & _ & Hpieces & _ & Houtlines & Hsquares & Harrows).
  eexists _, _. split; [reflexivity|]. cbn [board pvBoard].
  rewrite Hpieces, Hsquares, Houtlines, Harrows.
  do 4 (split; [done|]).
  destruct moves' as [|m0 [|m1 [|m2 [|m3 rest]]]]; cbn;
    rewrite ?take_nil; repeat split; repeat constructor.
Qed.

(** X18. [setPvVisualization] never throws: whatever the position string,
    the last move and the line, the drawing completes, and what is drawn
    is the second board -- its 64 squares, the pieces of the position
    string and at most four arrows, each running from the centre of a
    square to the centre of a square on a host whose sine and cosine of 0
    are finite. *)
Theorem setPvVisualization_always_draws
  (Math_sin Math_cos : Js.number → Js.number) (area : BoardArea)
  (lastMove' : option string) (baseFen : string) (moves' : list string) :
  PrimFloat.is_finite (Math_sin 0) = true →
  PrimFloat.is_finite (Math_cos 0) = true →
  ∃ area' svg beneath above,
    setPvVisualization Math_sin Math_cos area lastMove' baseFen moves'
    = (area', Normal svg)
    ∧ svgClass svg = ("board " ++ boardClass (pvBoard area))%string
    ∧ children svg
      = allSquares (pvBoard area')
        ++ map (pieceUse (pvBoard area'))
             (List.filter (fun p => negb (ofSideToMove (pvBoard area') p))
                          (fenPieces baseFen))
        ++ map SvgArrow beneath
        ++ map (pieceUse (pvBoard area'))
             (List.filter (ofSideToMove (pvBoard area')) (fenPieces baseFen))
        ++ map SvgArrow above
    ∧ Forall2 (centred (pvBoard area')) (take 1 moves') beneath
    ∧ Forall2 (centred (pvBoard area')) (take 3 (drop 1 moves')) above.
Proof.
  intros Hsin Hcos.
  destruct (setPvVisualization_unfold Math_sin Math_cos area lastMove'
              baseFen moves')
    as (pv & -> & Hclass & _ & _ & Hpieces & _ & Houtlines & _ & Harrows).
  assert (Hmoves : Forall (fun a => is_Some (move a)) (arrows pv))
    by (rewrite Harrows; apply pvArrows_moves).
  assert (Hobjects : Forall (fun entry => isOutlineName entry = false)
                            (outlinedSquares pv))
    by (rewrite Houtlines; constructor).
  destruct (render_phases Math_sin Math_cos pv Hobjects Hmoves)
    as (svg & beneath & above & Hrun & Hchildren & Hbeneath & Habove).
  exists {| board := board area; pvBoard := pv;
            pvVisualization := Some {| lastMove := lastMove';
                                       fen := baseFen; moves := moves' |} |},
         svg, beneath, above.
  cbn [pvBoard]. rewrite Hrun. split; [done|].
  split; [by rewrite (render_class _ _ _ _ Hrun), Hclass|].
  split.
  { rewrite Hchildren, Hpieces. unfold outlineObjects.
    rewrite Houtlines. reflexivity. }
  assert (Hzero : 0 * Js.Math_PI / 180 = 0) by (vm_compute; reflexivity).
  assert (Hcentred : ∀ (a : ArrowLocation) (m : string) (ar : Arrow),
            move a = Some m → lone a → offsetDirection a = 0 →
            shapeOf Math_sin Math_cos pv a ar → centred pv m ar).
  { intros a m ar Hm [Hoffset Htotal] Hdir Hshape.
    unfold shapeOf, arrowShape in Hshape. unfold centred.
    rewrite Hm, Hoffset, Htotal, Hdir, Hzero in Hshape.
    cbn -[squareToFileRank Js.slice] in Hshape.
    destruct (squareToFileRank (Js.slice m 0 2)) as [file1 rank1].
    destruct (squareToFileRank (Js.slice m 2 4)) as [file2 rank2].
    injection Hshape as <-. cbn [x1 y1 x2 y2].
    unfold fileOnScreen, rowOnScreen.
    by rewrite !(lone_displacement _ _ Hsin),
               !(lone_displacement _ _ Hcos). }
  rewrite Harrows in Hbeneath, Habove.
  destruct moves' as [|m0 [|m1 [|m2 [|m3 rest]]]];
    cbn in Hbeneath, Habove |- *;
    rewrite ?take_nil in Hbeneath, Habove; cbn in Hbeneath, Habove;
    repeat match goal with
           | H : Forall2 _ [] _ |- _ => apply Forall2_nil_inv_l in H as ->
           | H : Forall2 _ (_ :: _) _ |- _ =>
               apply Forall2_cons_inv_l in H as (? & ? & ? & H & ->)
           end;
    split;
    repeat match goal with |- Forall2 _ _ _ => constructor end;
    (eapply Hcentred; [| | |eassumption]; [reflexivity|by split|reflexivity]).
Qed.

Lemma setPvVisualization_always_draws_witness :
  ∃ area' svg beneath above,
    setPvVisualization Host.sin Host.cos sampleArea (Some "e2e4") afterE4
      spanishLine
    = (area', Normal svg)
    ∧ svgClass svg = ("board " ++ boardClass (pvBoard sampleArea))%string
    ∧ children svg
      = allSquares (pvBoard area')
        ++ map (pieceUse (pvBoard area'))
             (List.filter (fun p => negb (ofSideToMove (pvBoard area') p))
                          (fenPieces afterE4))
        ++ map SvgArrow beneath
        ++ map (pieceUse (pvBoard area'))
             (List.filter (ofSideToMove (pvBoard area')) (fenPieces afterE4))
        ++ map SvgArrow above
    ∧ Forall2 (centred (pvBoard area')) (take 1 spanishLine) beneath
    ∧ Forall2 (centred (pvBoard area')) (take 3 (drop 1 spanishLine)) above.
Proof.
  apply (setPvVisualization_always_draws Host.sin Host.cos sampleArea
           (Some "e2e4") afterE4 spanishLine).
  - vm_compute. reflexivity.
  - vm_compute. reflexivity.
Defined.

(** X19. Showing a line and resetting it brings the main board back as it
    was: [setPvVisualization] draws the second board, and
    [resetPvVisualization] after it draws exactly what a redraw of the
    untouched main board draws, while the line stays on the second board,
    out of sight. *)
Theorem resetPvVisualization_after_setPvVisualization
  (Math_sin Math_cos : Js.number → Js.number) (area : BoardArea)
  (lastMove' : option string) (baseFen : string) (moves' : list string) :
  ∃ shown drawn,
    setPvVisualization Math_sin Math_cos area lastMove' baseFen moves'
    = (shown, drawn)
    ∧ drawn = render Math_sin Math_cos (pvBoard shown)
    ∧ resetPvVisualization Math_sin Math_cos shown
      = ({| board := board area; pvBoard := pvBoard shown;
            pvVisualization := None |},
         render Math_sin Math_cos (board area)).
Proof.
  destruct (setPvVisualization_unfold Math_sin Math_cos area lastMove'
              baseFen moves') as (pv & -> & _).
  eexists _, _. split; [reflexivity|]. by cbn.
Qed.

(** X20. The second board keeps nothing of what it showed before: a second
    [setPvVisualization] leaves the object as it would have been without
    the first, and draws the same. *)
Theorem setPvVisualization_replaces_the_line
  (Math_sin Math_cos : Js.number → Js.number) (area : BoardArea)
  (lastMove1 lastMove2 : option string) (fen1 fen2 : string)
  (moves1 moves2 : list string) :
  setPvVisualization Math_sin Math_cos
    (fst (setPvVisualization Math_sin Math_cos area lastMove1 fen1 moves1))
    lastMove2 fen2 moves2
  = setPvVisualization Math_sin Math_cos area lastMove2 fen2 moves2
  ∧ setPvVisualization Math_sin Math_cos
      (fst (resetPvVisualization Math_sin Math_cos
         (fst (setPvVisualization Math_sin Math_cos area lastMove1 fen1
                 moves1))))
      lastMove2 fen2 moves2
    = setPvVisualization Math_sin Math_cos area lastMove2 fen2 moves2.
Proof.
  destruct (setPvVisualization_unfold Math_sin Math_cos area lastMove1
              fen1 moves1) as (pv & -> & Hclass & Hflipped & Hborder & _).
  unfold setPvVisualization, resetPvVisualization.
  cbn [fst board pvBoard pvVisualization].
  rewrite !fromFen_unfold, Hclass, Hflipped, Hborder. done.
Qed.

(* ------------------------------------------------------------------ *)
(** ** Outlines, and the areas that can be reached                      *)
(* ------------------------------------------------------------------ *)

(** X21. An outline is drawn on the square it names: for the name
    [fileRanktoSquare] gives to a square of the board, [renderOutlines]
    draws the rectangle of that square as [renderBoard] draws it, moved in
    by half the inset on every side, on a board of either orientation and
    with any border. *)
Theorem outline_is_drawn_on_its_square (b : Board) (outline : Outline)
  (rank' file' : nat) :
  (rank' ≤ 7)%nat → (file' ≤ 7)%nat →
  square outline = fileRanktoSquare rank' file' →
  ∃ x y cls,
    boardSquare b rank' file' = SvgRect x y SQUARE_SIZE SQUARE_SIZE cls
    ∧ outlineRect b outline
      = SvgRect (x + inset outline / 2) (y + inset outline / 2)
                (SQUARE_SIZE - 2 * (inset outline / 2))
                (SQUARE_SIZE - 2 * (inset outline / 2))
                (className outline).
Proof.
  intros Hr Hf Hsquare. unfold boardSquare, outlineRect.
  rewrite Hsquare.
  destruct (square_name_decoded rank' file' Hf Hr) as [_ ->].
  eexists _, _, _. split; reflexivity.
Qed.

Lemma outline_is_drawn_on_its_square_witness :
  ∃ x y cls,
    boardSquare sampleBoard 3 4 = SvgRect x y SQUARE_SIZE SQUARE_SIZE cls
    ∧ outlineRect sampleBoard
        {| square := "e4"; className := "outline"; inset := 4 |}
      = SvgRect (x + 4 / 2) (y + 4 / 2)
                (SQUARE_SIZE - 2 * (4 / 2)) (SQUARE_SIZE - 2 * (4 / 2))
                "outline".
Proof.
  apply (outline_is_drawn_on_its_square sampleBoard
           {| square := "e4"; className := "outline"; inset := 4 |} 3 4).
  - lia.
  - lia.
  - reflexivity.
Defined.

(** X22. Whatever lines are shown and reset after the constructor, the
    area can always be drawn: [renderCorrectBoard] completes on every
    host, the class of what it draws tells which of the two boards is
    shown, and the main board is still the board the constructor made. *)
Theorem reachableArea_always_draws
  (Math_sin Math_cos : Js.number → Js.number) (area : BoardArea) :
  reachableArea Math_sin Math_cos area →
  ∃ svg,
    renderCorrectBoard Math_sin Math_cos area = Normal svg
    ∧ svgClass svg
      = match pvVisualization area with
        | Some _ => "board pv-board"%string
        | None => "board main-board"%string
        end
    ∧ newBoard = Normal (board area).
Proof.
  intros Hreach.
  assert (Hinv : newBoard = Normal (board area)
                 ∧ boardClass (pvBoard area) = "pv-board"%string
                 ∧ outlinedSquares (pvBoard area) = []
                 ∧ Forall (fun a => is_Some (move a)) (arrows (pvBoard area))).
  { induction Hreach as [area svg Hnew
                        |area lastMove' baseFen moves' _ (Hmain & Hclass & _)
                        |area _ IH].
    - unfold newBoardArea in Hnew.
      destruct newBoard as [b0|] eqn:Hb0; [|discriminate Hnew].
      cbn [mbind completion_bind] in Hnew.
      destruct (renderCorrectBoard _ _ _) as [svg'|]; [|discriminate Hnew].
      injection Hnew as <- _. cbn [board pvBoard].
      unfold newBoard in Hb0. rewrite fromFen_unfold in Hb0.
      injection Hb0 as <-. repeat split. constructor.
    - destruct (setPvVisualization_unfold Math_sin Math_cos area lastMove'
                  baseFen moves')
        as (pv & -> & Hpv & _ & _ & _ & _ & Houtlines & _ & Harrows).
      cbn [fst board pvBoard]. rewrite Hpv, Harrows.
      split; [done|]. split; [done|]. split; [done|]. apply pvArrows_moves.
    - exact IH. }
  destruct Hinv as (Hmain & Hclass & Houtlines & Harrows).
  assert (Hmainclass : boardClass (board area) = "main-board"%string
                       ∧ outlinedSquares (board area) = []
                       ∧ arrows (board area) = []).
  { unfold newBoard in Hmain. rewrite fromFen_unfold in Hmain.
    by injection Hmain as <-. }
  destruct Hmainclass as (Hmainclass & Hplain & Hnone).
  unfold renderCorrectBoard. destruct (pvVisualization area) as [shown|].
  - assert (Hobjects : Forall (fun entry => isOutlineName entry = false)
                              (outlinedSquares (pvBoard area)))
      by (rewrite Houtlines; constructor).
    destruct (render_phases Math_sin Math_cos (pvBoard area) Hobjects
                Harrows)
      as (svg & _ & _ & Hrun & _).
    exists svg. split; [done|]. split; [|done].
    by rewrite (render_class _ _ _ _ Hrun), Hclass.
  - assert (Hmoves : Forall (fun a => is_Some (move a)) (arrows (board area)))
      by (rewrite Hnone; constructor).
    assert (Hobjects : Forall (fun entry => isOutlineName entry = false)
                              (outlinedSquares (board area)))
      by (rewrite Hplain; constructor).
    destruct (render_phases Math_sin Math_cos (board area) Hobjects Hmoves)
      as (svg & _ & _ & Hrun & _).
    exists svg. split; [done|]. split; [|done].
    by rewrite (render_class _ _ _ _ Hrun), Hmainclass.
Qed.

Lemma reachableArea_always_draws_witness :
  ∃ svg,
    renderCorrectBoard Host.sin Host.cos
      (fst (setPvVisualization Host.sin Host.cos startArea (Some "e2e4")
              afterE4 spanishLine)) = Normal svg
    ∧ svgClass svg
      = match pvVisualization
                (fst (setPvVisualization Host.sin Host.cos startArea
                        (Some "e2e4") afterE4 spanishLine)) with
        | Some _ => "board pv-board"%string
        | None => "board main-board"%string
        end
    ∧ newBoard
      = Normal (board (fst (setPvVisualization Host.sin Host.cos startArea
                              (Some "e2e4") afterE4 spanishLine))).
Proof.
  apply (reachableArea_always_draws Host.sin Host.cos).
  apply reach_setPv.
  apply (reach_newArea Host.sin Host.cos startArea
           (default {| svgClass := ""; viewBox := 0; children := [] |}
              (match render Host.sin Host.cos (board startArea) with
               | Normal svg => Some svg
               | Throw _ => None
               end))).
  vm_compute. reflexivity.
Defined.
